(** * pcigale: parameter resolution, flux saving, model data lookup

    A shallow embedding of the parts of pcigale that drive the computation
    of a grid of SEDs: the resolution of module parameters
    ([pcigale/sed/modules/common.py], [pcigale/analysis_modules/__init__.py]),
    the [savefluxes] analysis module with its worker function, the
    observation table helpers, and the lookups of the model databases
    ([pcigale/data/__init__.py]).

    Python dictionaries whose iteration order is never observed are finite
    maps ([gmap]); the ordered dictionaries of the flux-saving module are
    association lists.  Exceptions are values of [exn], and a function that
    may raise returns a [result]. *)

From Stdlib Require Import ZArith Ascii String List Permutation.
From stdpp Require Import base option list functions strings pretty sorting gmap.

Open Scope string_scope.
Open Scope list_scope.

(** ** Python values, exceptions and results *)

Module Py.

(** Scalars that appear as parameter values.  A float is kept as the bit
    pattern of its binary64 representation: the code below only stores,
    compares and prints parameter values. *)
Inductive atom : Type :=
| ANone
| ABool (b : bool)
| AInt (z : Z)
| AFloat (bits : Z)
| AStr (s : string).

(** A parameter value is a scalar or a Python list of scalars. *)
Inductive pyval : Type :=
| VAtom (a : atom)
| VList (l : list atom).

Definition VNone : pyval := VAtom ANone.
Definition VInt (z : Z) : pyval := VAtom (AInt z).
Definition VStr (s : string) : pyval := VAtom (AStr s).

(** [v is None] *)
Definition is_None (v : pyval) : bool :=
  match v with
  | VAtom ANone => true
  | _ => false
  end.

(** The exception classes raised by the code, with their message. *)
Inductive exn : Type :=
| KeyError (msg : string)
| ValueError (msg : string)
| TypeError (msg : string)
| IndexError (msg : string)
| ImportError (msg : string)
| OSError (msg : string)
| SyntaxError (msg : string)
| StandardError (msg : string)
| Exception (msg : string)
| DatabaseLookupError (msg : string)
| DatabaseInsertError (msg : string).

Inductive result (A : Type) : Type :=
| Ok (a : A)
| Raise (e : exn).
Arguments Ok {A} a.
Arguments Raise {A} e.

Definition bind {A B : Type} (r : result A) (k : A -> result B) : result B :=
  match r with
  | Ok a => k a
  | Raise e => Raise e
  end.

(** A computation that reads and updates a state of type [S] and may
    raise; the state survives a raise. *)
Definition stm (S A : Type) : Type := S -> result A * S.

Definition stm_ret {S A : Type} (a : A) : stm S A := fun h => (Ok a, h).

Definition stm_bind {S A B : Type} (m : stm S A) (k : A -> stm S B)
    : stm S B :=
  fun h =>
    match m h with
    | (Ok a, h') => k a h'
    | (Raise e, h') => (Raise e, h')
    end.

Definition stm_raise {S A : Type} (e : exn) : stm S A :=
  fun h => (Raise e, h).

Definition stm_lift {S A : Type} (r : result A) : stm S A :=
  fun h => (r, h).

(** [sep.join(l)] on a list of [str]. *)
Definition join (sep : string) (l : list string) : string :=
  String.concat sep l.

(** [sub in s] for strings: [sub] occurs in [s]. *)
Definition occurs_in (sub s : string) : Prop :=
  exists pre post : string, s = pre +:+ sub +:+ post.

End Py.

Import Py.

#[global] Instance result_ret : MRet result := @Ok.
#[global] Instance result_bind : MBind result :=
  fun A B k r => Py.bind r k.

#[global] Instance stm_mret {S : Type} : MRet (stm S) := @stm_ret S.
#[global] Instance stm_mbind {S : Type} : MBind (stm S) :=
  fun A B k m => stm_bind m k.

#[global] Instance atom_eq_dec : EqDecision atom.
Proof. solve_decision. Defined.

#[global] Instance pyval_eq_dec : EqDecision pyval.
Proof. solve_decision. Defined.

(** Scalars and values can be keys of finite maps. *)
Definition atom_to_sum (a : atom) : unit + (bool + (Z + (Z + string))) :=
  match a with
  | ANone => inl tt
  | ABool b => inr (inl b)
  | AInt z => inr (inr (inl z))
  | AFloat z => inr (inr (inr (inl z)))
  | AStr s => inr (inr (inr (inr s)))
  end.

Definition atom_of_sum (c : unit + (bool + (Z + (Z + string)))) : atom :=
  match c with
  | inl _ => ANone
  | inr (inl b) => ABool b
  | inr (inr (inl z)) => AInt z
  | inr (inr (inr (inl z))) => AFloat z
  | inr (inr (inr (inr s))) => AStr s
  end.

Lemma atom_of_to_sum (a : atom) : atom_of_sum (atom_to_sum a) = a.
Proof. by destruct a. Qed.

#[global] Instance atom_countable : Countable atom :=
  inj_countable' atom_to_sum atom_of_sum atom_of_to_sum.

Definition pyval_to_sum (v : pyval) : atom + list atom :=
  match v with VAtom a => inl a | VList l => inr l end.

Definition pyval_of_sum (c : atom + list atom) : pyval :=
  match c with inl a => VAtom a | inr l => VList l end.

Lemma pyval_of_to_sum (v : pyval) : pyval_of_sum (pyval_to_sum v) = v.
Proof. by destruct v. Qed.

#[global] Instance pyval_countable : Countable pyval :=
  inj_countable' pyval_to_sum pyval_of_sum pyval_of_to_sum.

(** ** [pcigale/sed/modules/common.py] and the parameter check of
       [AnalysisModule.process] *)

Module Common.

(** An entry of a [parameter_list]: the tuple
    (variable type, description, default value). *)
Definition schema_entry : Type := (pyval * pyval * pyval)%type.

(** [entry[2]] *)
Definition default_of (e : schema_entry) : pyval := snd e.

(** One turn of the loop [for key in parameter_list]. *)
Definition fill_default (given : gmap string pyval)
    (kv : string * schema_entry) : gmap string pyval :=
  if bool_decide (given !! kv.1 = None) && negb (is_None (default_of kv.2))
  then <[kv.1 := default_of kv.2]> given
  else given.

(** The whole loop; the dictionary is visited in the order of
    [map_to_list]. *)
Definition fill_defaults (given : gmap string pyval)
    (parameter_list : gmap string schema_entry) : gmap string pyval :=
  foldl fill_default given (map_to_list parameter_list).

(** The text built when the key sets differ.  [set_iter] is the order in
    which Python iterates over a set, which the language leaves open.
    [dot] is the text closing the list of missing parameters: [". "] in
    [complete_parameters], ["."] in [AnalysisModule.process]. *)
Definition mismatch_message (set_iter : gset string -> list string)
    (dot : string) (missing unexpected : gset string) : string :=
  let message := "" in
  let message :=
    if bool_decide (missing = ∅) then message
    else message +:+ ("Missing parameters: " +:+
                      join ", " (set_iter missing) +:+ dot) in
  let message :=
    if bool_decide (unexpected = ∅) then message
    else message +:+ ("Unexpected parameters: " +:+
                      join ", " (set_iter unexpected) +:+ ".") in
  "The parameters passed are different from the expected one." +:+ message.

Definition complete_parameters (set_iter : gset string -> list string)
    (given_parameters : gmap string pyval)
    (parameter_list : gmap string schema_entry)
    : result (gmap string pyval) :=
  let given_parameters := fill_defaults given_parameters parameter_list in
  if bool_decide (dom given_parameters = dom parameter_list)
  then Ok given_parameters
  else
    let missing_parameters := dom parameter_list ∖ dom given_parameters in
    let unexpected_parameters := dom given_parameters ∖ dom parameter_list in
    Raise (KeyError (mismatch_message set_iter ". "
                       missing_parameters unexpected_parameters)).

(** *** [SEDCreationModule] and [get_module] *)

(** What the code uses of a module file: the class attribute
    [parameter_list] of its [Module] class and the [_init_code] hook,
    which may raise. *)
Record module_class : Type := ModuleClass {
  parameter_list : gmap string schema_entry;
  _init_code : gmap string pyval -> result unit
}.

(** An instance: [self.name] and, unless the instance is blank,
    [self.parameters]. *)
Record instance : Type := Instance_ {
  inst_class : module_class;
  inst_name : string;
  inst_parameters : option (gmap string pyval)
}.

(** Truth value of a Python object, as [if not blank] takes it. *)
Definition truthy (v : pyval) : bool :=
  match v with
  | VAtom ANone => false
  | VAtom (ABool b) => b
  | VAtom (AInt z) => negb (Z.eqb z 0)
  | VAtom (AFloat bits) =>
      negb (Z.eqb (Z.land bits (Z.ones 63)) 0)
  | VAtom (AStr s) => negb (String.eqb s "")
  | VList l => negb (bool_decide (l = []))
  end.

(** [cls(name=name, **kwargs)], that is
    [SEDCreationModule.__init__(self, name=None, blank=False, **kwargs)]:
    a keyword called [blank] binds the flag and is not a module
    parameter. *)
Definition new_Module (set_iter : gset string -> list string)
    (cls : module_class) (name : string) (kwargs : gmap string pyval)
    : result instance :=
  let blank := from_option truthy false (kwargs !! "blank") in
  let kwargs := delete "blank" kwargs in
  if blank then Ok (Instance_ cls name None)
  else
    parameters ← complete_parameters set_iter kwargs (parameter_list cls);
    _ ← _init_code cls parameters;
    Ok (Instance_ cls name (Some parameters)).

(** [s.split(sep)] for a one-character separator. *)
Fixpoint split (sep : ascii) (s : string) : list string :=
  match s with
  | EmptyString => [EmptyString]
  | String c s' =>
      if bool_decide (c = sep) then EmptyString :: split sep s'
      else match split sep s' with
           | [] => [String c EmptyString]
           | w :: ws => String c w :: ws
           end
  end.

Definition dot : ascii := "."%char.

(** The statement handed to [exec]. *)
Definition import_string (module_name : string) : string :=
  "from . import " +:+ module_name +:+ " as module".

(** [get_module(name, **kwargs)].  [py_exec] stands for the interpreter
    executing the import statement: it yields the [Module] class of the
    imported file or raises.  The first component of the outcome is what
    was printed. *)
Definition get_module (set_iter : gset string -> list string)
    (py_exec : string -> result module_class)
    (name : string) (kwargs : gmap string pyval)
    : list string * result instance :=
  match split dot name !! 0%nat with
  | None => ([], Raise (IndexError "list index out of range"))
  | Some module_name =>
      let attempt :=
        module ← py_exec (import_string module_name);
        new_Module set_iter module name kwargs in
      match attempt with
      | Raise (ImportError msg) =>
          (["Module " +:+ module_name +:+ " does not exists!"],
           Raise (ImportError msg))
      | outcome => ([], outcome)
      end
  end.

End Common.

(** ** numpy arrays *)

Module Numpy.

(** The float operations the code applies to array elements. *)
Class Float (F : Type) : Type := {
  flt : F -> F -> bool;
  fadd : F -> F -> F;
  fmul : F -> F -> F;
  fsquare : F -> F;
  fsqrt : F -> F;
  fzero : F
}.

(** Arrays are objects: a reference is an index into the store, and two
    names may hold the same reference. *)
Definition ref : Type := nat.
Abbreviation store F := (list (list F)) (only parsing).

(** Array code runs on the store. *)
Abbreviation np F := (stm (list (list F))).

Definition np_read {F : Type} (r : ref) : np F (list F) :=
  fun h =>
    match h !! r with
    | Some a => (Ok a, h)
    | None => (Raise (Exception "dangling array reference"), h)
    end.

Definition np_write {F : Type} (r : ref) (a : list F) : np F unit :=
  fun h => (Ok tt, <[r := a]> h).

(** A new array object. *)
Definition np_alloc {F : Type} (a : list F) : np F ref :=
  fun h => (Ok (length h), h ++ [a]).

(** [np.copy(a)] *)
Definition np_copy {F : Type} (r : ref) : np F ref :=
  stm_bind (np_read r) np_alloc.

(** The elements of [a] where [mask] holds. *)
Fixpoint select {F : Type} (a : list F) (mask : list bool) : list F :=
  match a, mask with
  | x :: a', b :: mask' =>
      if b then x :: select a' mask' else select a' mask'
  | _, _ => []
  end.

(** [a[mask]] for a boolean array [mask]. *)
Definition mask_getitem {F : Type} (a : list F) (mask : list bool)
    : result (list F) :=
  if bool_decide (length mask = length a) then Ok (select a mask)
  else Raise (IndexError "boolean index did not match indexed array").

(** [a] with the values [vs] put, in order, where [mask] holds. *)
Fixpoint put {F : Type} (a : list F) (mask : list bool) (vs : list F)
    : list F :=
  match a, mask with
  | x :: a', true :: mask' =>
      match vs with
      | v :: vs' => v :: put a' mask' vs'
      | [] => x :: put a' mask' []
      end
  | x :: a', false :: mask' => x :: put a' mask' vs
  | _, _ => a
  end.

Definition count_true (mask : list bool) : nat :=
  length (filter (fun b => b = true) mask).

(** [a[mask] = vs], in place. *)
Definition mask_setitem {F : Type} (r : ref) (mask : list bool)
    (vs : list F) : np F unit :=
  stm_bind (np_read r) (fun a =>
    if negb (bool_decide (length mask = length a))
    then stm_raise (IndexError "boolean index did not match indexed array")
    else if bool_decide (length vs = count_true mask)
    then np_write r (put a mask vs)
    else match vs with
         | [v] => np_write r (put a mask (replicate (count_true mask) v))
         | _ => stm_raise (ValueError
                  "NumPy boolean array indexing assignment cannot assign input values to the output values")
         end).

(** An element-wise binary operation with numpy's broadcasting of arrays
    of one dimension. *)
Definition broadcast2 {F : Type} (f : F -> F -> F) (a b : list F)
    : result (list F) :=
  if bool_decide (length a = length b) then Ok (zip_with f a b)
  else match a, b with
       | [x], _ => Ok (map (f x) b)
       | _, [y] => Ok (map (fun x => f x y) a)
       | _, _ => Raise (ValueError "operands could not be broadcast together")
       end.

End Numpy.

Import Numpy.

(** ** Checks and helpers of [pcigale/analysis_modules/__init__.py] *)

Module Analysis.

(** [AnalysisModule.process]: the parameters are completed and checked as
    in [complete_parameters], then handed to the [_process] of the
    concrete module. *)
Definition process {R : Type} (set_iter : gset string -> list string)
    (_process : gmap string pyval -> result R)
    (parameter_list : gmap string Common.schema_entry)
    (parameters : gmap string pyval) : result R :=
  let parameters := Common.fill_defaults parameters parameter_list in
  if bool_decide (dom parameters = dom parameter_list)
  then _process parameters
  else
    let missing_parameters := dom parameter_list ∖ dom parameters in
    let unexpected_parameters := dom parameters ∖ dom parameter_list in
    Raise (KeyError (Common.mismatch_message set_iter "."
                       missing_parameters unexpected_parameters)).

(** [adjust_errors(flux, error, tolerance, default_error,
    systematic_deviation)]: [flux] and [error] are references to the
    caller's arrays, the outcome is a reference to a new array. *)
Definition adjust_errors {F : Type} `{Float F} (flux error : ref)
    (tolerance default_error systematic_deviation : F) : np F ref :=
  flux_data ← np_read flux;
  error_data ← np_read error;
  if negb (bool_decide (length flux_data = length error_data))
  then stm_raise (ValueError
         "The flux and error arrays must have the same length.")
  else
    (* error = np.copy(error) *)
    error ← np_copy error;
    (* error[error < tolerance] = default_error * flux[error < tolerance] *)
    error_data ← np_read error;
    flux_data ← np_read flux;
    selected ← stm_lift (mask_getitem flux_data
                          (map (fun e => flt e tolerance) error_data));
    error_data ← np_read error;
    _ ← mask_setitem error (map (fun e => flt e tolerance) error_data)
          (map (fmul default_error) selected);
    (* error = np.sqrt(np.square(error)
                       + np.square(flux * systematic_deviation)) *)
    error_data ← np_read error;
    flux_data ← np_read flux;
    total ← stm_lift (broadcast2 fadd
               (map fsquare error_data)
               (map fsquare
                  (map (fun x => fmul x systematic_deviation) flux_data)));
    np_alloc (map fsqrt total).

(** An [astropy] table: its columns in order, each a name and the array
    holding the data. *)
Definition table : Type := list (string * ref).

Definition colnames (t : table) : list string := t.*1.

(** [obs_table[name]] *)
Definition table_getitem {F : Type} (t : table) (name : string) : np F ref :=
  match list_find (fun c => c.1 = name) t with
  | Some (_, c) => stm_ret c.2
  | None => stm_raise (KeyError name)
  end.

(** [obs_table[name] = data]: the column is replaced, or added last. *)
Definition table_setitem (t : table) (name : string) (data : ref) : table :=
  match list_find (fun c => c.1 = name) t with
  | Some (i, _) => <[i := (name, data)]> t
  | None => t ++ [(name, data)]
  end.

(** [len(obs_table)]: the number of rows. *)
Definition table_len {F : Type} (t : table) : np F nat :=
  match t with
  | [] => stm_ret 0%nat
  | c :: _ => data ← np_read c.2; stm_ret (length data)
  end.

(** [obs_table.add_column(Column(name=name, data=data), index=index)] *)
Definition add_column (t : table) (name : string) (data : ref)
    (index : nat) : table :=
  take index t ++ (name, data) :: drop index t.

(** [colnames.index(name)] *)
Definition index_of {F : Type} (l : list string) (name : string) : np F nat :=
  match list_find (fun c => c = name) l with
  | Some (i, _) => stm_ret i
  | None => stm_raise (ValueError (name +:+ " is not in list"))
  end.

(** [complete_obs_table]: the loop over [filter_list], the table being
    threaded through its turns. *)
Fixpoint complete_obs_table {F : Type} `{Float F} (obs_table : table)
    (used_columns filter_list : list string)
    (tolerance default_error systematic_deviation : F) : np F table :=
  match filter_list with
  | [] => stm_ret obs_table
  | name :: filter_list =>
      if negb (bool_decide (name ∈ colnames obs_table))
      then stm_raise (StandardError
             ("The filter <" +:+ name +:+
              "> (at least) is not present in the observation table."))
      else
        let name_err := name +:+ "_err" in
        obs_table ←
          (if negb (bool_decide (name_err ∈ used_columns))
           then
             if negb (bool_decide (name_err ∈ colnames obs_table))
             then
               n ← table_len obs_table;
               zeros ← np_alloc (replicate n fzero);
               i ← index_of (colnames obs_table) name;
               stm_ret (add_column obs_table name_err zeros (i + 1))
             else
               n ← table_len obs_table;
               zeros ← np_alloc (replicate n fzero);
               stm_ret (table_setitem obs_table name_err zeros)
           else stm_ret obs_table);
        flux ← table_getitem obs_table name;
        error ← table_getitem obs_table name_err;
        adjusted ← adjust_errors flux error tolerance default_error
                     systematic_deviation;
        complete_obs_table (table_setitem obs_table name_err adjusted)
          used_columns filter_list
          tolerance default_error systematic_deviation
  end.

End Analysis.

(** ** The warehouse of SEDs *)

Module Warehouse.

Section Definitions.

(** [P] is the type of the parameter set of a stage, [SED] the type of
    the state of a SED. *)
Context {P SED : Type} `{Countable P}.

(** A stage of a pipeline is the name of a module with its parameters;
    a cache key is the prefix of the pipeline that ends at a stage, a
    list of stages. *)

(** Modelled from the spec: the [process] operation of the module
    contract, which [pcigale/sed_modules] implements one module at a
    time; a function of the module name, the parameters and the SED of
    the prior stages. *)
Context (process : string -> P -> SED -> SED).

(** Modelled from the spec: the SED a pipeline evaluation starts from;
    the class [SED] of [pcigale/sed] is not part of the code embedded
    here. *)
Context (fresh_sed : SED).

(** Modelled from the spec: the state of the class [SedWarehouse] of
    [pcigale/warehouse], which is not part of the code embedded here: the
    cache from prefixes to SED snapshots.  [invocations] lists, oldest
    first, the keys for which [process] has been run. *)
Record warehouse : Type := MkWarehouse {
  cache : gmap (list (string * P)) SED;
  invocations : list (list (string * P))
}.

Definition empty_warehouse : warehouse := MkWarehouse ∅ [].

(** Modelled from the spec: the walk of [get_or_build] over the stages
    [rest] that follow the prefix [prefix], whose snapshot is [prev].
    A key found in the cache gives its snapshot; a key not found has
    its snapshot computed by [process] and stored. *)
Fixpoint walk (prefix : list (string * P)) (prev : SED)
    (rest : list (string * P)) (w : warehouse) : SED * warehouse :=
  match rest with
  | [] => (prev, w)
  | s :: rest =>
      let key := prefix ++ [s] in
      match cache w !! key with
      | Some snapshot => walk key snapshot rest w
      | None =>
          let sed := process s.1 s.2 prev in
          walk key sed rest
            (MkWarehouse (<[key := sed]> (cache w))
                         (invocations w ++ [key]))
      end
  end.

(** Modelled from the spec: [get_or_build(pipeline)] of the warehouse
    cache. *)
Definition get_or_build (pipeline : list (string * P)) (w : warehouse)
    : SED * warehouse :=
  walk [] fresh_sed pipeline w.

(** Modelled from the spec: [partial_clear_cache(changed_at_index)],
    which removes the entries of the prefixes that end at the stage of
    that index or after it and keeps those that end before it. *)
Definition partial_clear_cache (changed_at_index : nat) (w : warehouse)
    : warehouse :=
  MkWarehouse
    (filter (fun kv => (length kv.1 ≤ changed_at_index)%nat) (cache w))
    (invocations w).

(** Modelled from the spec: [get_sed(modules, parameters)], the name
    under which the flux-saving module calls [get_or_build]; the
    pipeline pairs each module with its parameters. *)
Definition get_sed (w : warehouse) (modules : list string)
    (parameters : list P) : SED * warehouse :=
  get_or_build (zip modules parameters) w.

(** The SED of a pipeline computed without any cache. *)
Definition build (pipeline : list (string * P)) : SED :=
  foldl (fun sed s => process s.1 s.2 sed) fresh_sed pipeline.

End Definitions.

Arguments warehouse P SED {_ _}.

End Warehouse.

(** ** Files *)

Module Os.

Section Definitions.

(** [C] is the type of the content of a file. *)
Context {C : Type}.

Inductive node : Type :=
| File (content : C)
| Dir.

(** [os.path.isfile(path)] *)
Definition isfile (fs : gmap string node) (path : string) : bool :=
  match fs !! path with
  | Some (File _) => true
  | _ => false
  end.

(** [os.rename(src, dst)].  [refused] gives the error, if any, with
    which the operating system declines the call: a directory that is
    missing, a permission that is missing, a destination that is a
    directory or, on Windows, a destination that exists.  A call that
    goes through moves the entry of [src] to [dst], in place of what
    [dst] held. *)
Definition rename (refused : gmap string node -> string -> string
                             -> option exn)
    (src dst : string) (fs : gmap string node)
    : result unit * gmap string node :=
  match refused fs src dst with
  | Some e => (Raise e, fs)
  | None =>
      match fs !! src with
      | Some n => (Ok tt, <[dst := n]> (delete src fs))
      | None => (Raise (OSError "No such file or directory"), fs)
      end
  end.

(** Writing [content] to the file [path], which is created or
    replaced; [refused] as above. *)
Definition write (refused : gmap string node -> string -> option exn)
    (path : string) (content : C) (fs : gmap string node)
    : result unit * gmap string node :=
  match refused fs path with
  | Some e => (Raise e, fs)
  | None => (Ok tt, <[path := File content]> fs)
  end.

End Definitions.

Arguments node C : clear implicits.

End Os.

(** ** [pcigale/analysis_modules/savefluxes.py] *)

Module SaveFluxes.

(** The parameters of a module at a grid point: an ordered dictionary. *)
Abbreviation dict := (list (string * pyval)).

Definition keys (d : dict) : list string := d.*1.
Definition values (d : dict) : list pyval := d.*2.

(** What the flux-saving module asks of a [SedWarehouse]. *)
Class SedWarehouse (W SED : Type) : Type := {
  new_warehouse : string -> W;
  get_sed : W -> list string -> list dict -> SED * W;
  partial_clear_cache : W -> nat -> W
}.

(** The name Python gives to the type of a scalar. *)
Definition type_name (a : atom) : string :=
  match a with
  | ANone => "NoneType"
  | ABool _ => "bool"
  | AInt _ => "int"
  | AFloat _ => "float"
  | AStr _ => "str"
  end.

(** The items of the argument of [str.join], which must all be [str];
    [i] is the position of the first of them. *)
Fixpoint str_items (i : nat) (l : list atom) : result (list string) :=
  match l with
  | [] => Ok []
  | AStr s :: l => items ← str_items (S i) l; Ok (s :: items)
  | a :: _ =>
      Raise (TypeError ("sequence item " +:+ pretty i +:+
                        ": expected str instance, " +:+ type_name a +:+
                        " found"))
  end.

(** [if type(value) == list: value = ".".join(value)] *)
Definition joined (value : pyval) : result pyval :=
  match value with
  | VList l => items ← str_items 0 l; Ok (VStr (join "." items))
  | VAtom _ => Ok value
  end.

Section Worker.

(** [T] and [E] are the types of the transmission table and of the
    effective wavelength of a filter, [Fx] the type of a flux. *)
Context {W SED T E Fx : Type} `{SedWarehouse W SED}.

Record filter_ : Type := MkFilter {
  trans_table : T;
  effective_wavelength : E
}.

(** [sed.compute_fnu(trans_table, effective_wavelength)] *)
Context (compute_fnu : SED -> T -> E -> Fx).

(** An element of an output row. *)
Inductive cell : Type :=
| Param (value : pyval)
| Flux (fnu : Fx).

(** What a worker does that can be seen from outside, in order. *)
Inductive event : Type :=
| EvGetSed (modules : list string) (parameters : list dict)
| EvPartialClearCache (changed : nat)
| EvComputeFnu (f : filter_)
| EvReturn (row : list cell).

(** A worker holds its warehouse and the record of what it did. *)
Abbreviation wk := (stm (W * list event)).

Definition wk_get_sed (modules : list string) (parameters : list dict)
    : wk SED :=
  fun st =>
    let (sed, w) := get_sed st.1 modules parameters in
    (Ok sed, (w, st.2 ++ [EvGetSed modules parameters])).

Definition wk_partial_clear_cache (changed : nat) : wk unit :=
  fun st =>
    (Ok tt, (partial_clear_cache st.1 changed,
             st.2 ++ [EvPartialClearCache changed])).

Definition wk_compute_fnu (sed : SED) (f : filter_) : wk Fx :=
  fun st =>
    (Ok (compute_fnu sed (trans_table f) (effective_wavelength f)),
     (st.1, st.2 ++ [EvComputeFnu f])).

Definition wk_return (row : list cell) : wk (list cell) :=
  fun st => (Ok row, (st.1, st.2 ++ [EvReturn row])).

(** [for value in module_param.values(): ...; row.append(value)] *)
Fixpoint for_values (values : list pyval) (row : list cell)
    : result (list cell) :=
  match values with
  | [] => Ok row
  | value :: values =>
      value ← joined value;
      for_values values (row ++ [Param value])
  end.

(** [for module_param in parameters: ...] *)
Fixpoint for_parameters (parameters : list dict) (row : list cell)
    : result (list cell) :=
  match parameters with
  | [] => Ok row
  | module_param :: parameters =>
      row ← for_values (values module_param) row;
      for_parameters parameters row
  end.

(** [[sed.compute_fnu(...) for filter_ in filters]] *)
Fixpoint fluxes_of (sed : SED) (filters : list filter_) : wk (list Fx) :=
  match filters with
  | [] => mret []
  | f :: filters =>
      fnu ← wk_compute_fnu sed f;
      rest ← fluxes_of sed filters;
      mret (fnu :: rest)
  end.

(** [_worker_sed(warehouse, filters, modules, parameters, changed)],
    the warehouse being the one the worker holds. *)
Definition _worker_sed (filters : list filter_) (modules : list string)
    (parameters : list dict) (changed : nat) : wk (list cell) :=
  sed ← wk_get_sed modules parameters;
  _ ← wk_partial_clear_cache changed;
  let row := [] in
  row ← stm_lift (for_parameters parameters row);
  fluxes ← fluxes_of sed filters;
  wk_return (row ++ (Flux <$> fluxes)).

(** *** The pool *)

(** [pool.starmap(_worker_sed, zip(..., creation_modules_params,
    changed_pars))] from task [i] on.  [assign] tells which worker takes
    which task; [workers] gives what each worker holds.  Every task
    contributes what its call returned or raised, at its own place. *)
Fixpoint starmap_from (assign : nat -> nat) (filters : list filter_)
    (modules : list string) (i : nat) (tasks : list (list dict * nat))
    (workers : nat -> W * list event)
    : list (result (list cell)) * (nat -> W * list event) :=
  match tasks with
  | [] => ([], workers)
  | (parameters, changed) :: tasks =>
      let (outcome, st) :=
        _worker_sed filters modules parameters changed
          (workers (assign i)) in
      let (outcomes, workers) :=
        starmap_from assign filters modules (S i) tasks
          (<[assign i := st]> workers) in
      (outcome :: outcomes, workers)
  end.

(** The pool of [cores] processes, each with its own copy of
    [warehouse]; task [i] goes to the worker [schedule i mod cores]. *)
Definition starmap (cores : nat) (schedule : nat -> nat)
    (warehouse : W) (filters : list filter_) (modules : list string)
    (tasks : list (list dict * nat))
    : list (result (list cell)) * (nat -> W * list event) :=
  starmap_from (fun i => schedule i mod cores) filters modules 0 tasks
    (fun _ => (warehouse, [])).

(** The rows, if every call returned; otherwise the exception of the
    first task, in the order of the tasks, that raised. *)
Fixpoint gather (outcomes : list (result (list cell)))
    : result (list (list cell)) :=
  match outcomes with
  | [] => Ok []
  | outcome :: outcomes =>
      row ← outcome; rows ← gather outcomes; Ok (row :: rows)
  end.

(** *** The columns of the output table *)

(** [name.endswith(suffix)] *)
Definition endswith (name suffix : string) : bool :=
  let n := String.length name in
  let k := String.length suffix in
  bool_decide (k ≤ n)%nat
  && String.eqb (String.substring (n - k) k name) suffix.

(** [[name for name in column_list if not name.endswith('_err')]] *)
Definition filter_names_of (column_list : list string) : list string :=
  List.filter (fun name => negb (endswith name "_err")) column_list.

(** [for module_param in product([module], keys):
       out_columns.append(".".join(module_param))] *)
Fixpoint for_keys (module : string) (keys : list string)
    (out_columns : list string) : list string :=
  match keys with
  | [] => out_columns
  | key :: keys =>
      for_keys module keys (out_columns ++ [join "." [module; key]])
  end.

(** [for module_param_list in zip(creation_modules,
    creation_modules_params[0]): ...] *)
Fixpoint for_modules (pairs : list (string * dict))
    (out_columns : list string) : list string :=
  match pairs with
  | [] => out_columns
  | (module, params) :: pairs =>
      for_modules pairs (for_keys module (keys params) out_columns)
  end.

Definition out_columns_of (creation_modules : list string)
    (creation_modules_params : list (list dict))
    (filter_names : list string) : result (list string) :=
  match creation_modules_params !! 0%nat with
  | None => Raise (IndexError "list index out of range")
  | Some first =>
      let out_columns := [] in
      let out_columns :=
        for_modules (zip creation_modules first) out_columns in
      Ok (out_columns ++ filter_names)
  end.

End Worker.

Section Process.

Context {W SED T E Fx C : Type} `{SedWarehouse W SED}.

(** [zip] applied to the unpacked rows: the columns of the rows, as
    many as the shortest row has elements. *)
Definition zip_star {A : Type} (rows : list (list A)) : list (list A) :=
  match rows with
  | [] => []
  | row :: rest =>
      let n := foldr (fun r m => Nat.min (length r) m) (length row) rest in
      (fun i => omap (fun r => r !! i) rows) <$> seq 0 n
  end.

Record table : Type := MkTable {
  names : list string;
  columns : list (list (cell (Fx := Fx)))
}.

(** [Table(columns, names=names)] *)
Definition Table (cols : list (list (cell (Fx := Fx))))
    (out_columns : list string) : result table :=
  if bool_decide (length cols = length out_columns)
  then Ok (MkTable out_columns cols)
  else Raise (ValueError
         "Arguments names and dtype must match number of columns").

(** [parameters[key]] *)
Definition getitem (parameters : gmap string string) (key : string)
    : result string :=
  match parameters !! key with
  | Some v => Ok v
  | None => Raise (KeyError key)
  end.

(** What the run depends on besides its arguments: the reading of the
    clock ([datetime.now().strftime("%Y%m%d%H%M")]), the filters of the
    database, [find_changed_parameters] of [analysis_modules/utils.py],
    the writer of [astropy] for the chosen format, the refusals of the
    operating system and the schedule of the pool. *)
Context (now : string).
Context (get_filter : string -> result (filter_ (T := T) (E := E))).
Context (find_changed_parameters : list (list dict) -> list nat).
Context (table_write : string -> table -> result C).
Context (rename_refused : gmap string (Os.node C) -> string -> string
                          -> option exn).
Context (write_refused : gmap string (Os.node C) -> string -> option exn).
Context (schedule : nat -> nat).
Context (compute_fnu : SED -> T -> E -> Fx).

(** The state of a run: the files and what was printed. *)
Abbreviation run := (stm (gmap string (Os.node C) * list string)).

Definition os_isfile (path : string) : run bool :=
  fun st => (Ok (Os.isfile st.1 path), st).

Definition os_rename (src dst : string) : run unit :=
  fun st =>
    let (r, fs) := Os.rename rename_refused src dst st.1 in (r, (fs, st.2)).

Definition os_write (path : string) (content : C) : run unit :=
  fun st =>
    let (r, fs) := Os.write write_refused path content st.1 in
    (r, (fs, st.2)).

Definition print (line : string) : run unit :=
  fun st => (Ok tt, (st.1, st.2 ++ [line])).

(** The rows of the grid, computed by the pool. *)
Definition out_rows_of (cores : nat) (warehouse : W)
    (filter_list : list filter_) (creation_modules : list string)
    (creation_modules_params : list (list dict))
    : result (list (list cell)) :=
  if bool_decide (cores = 0%nat)
  then Raise (ValueError "Number of processes must be at least 1")
  else
    let changed_pars := find_changed_parameters creation_modules_params in
    gather (starmap compute_fnu cores schedule warehouse filter_list
              creation_modules
              (zip creation_modules_params changed_pars)).1.

(** The part of [process] between the renaming and the writing, which
    touches no file: the filters, the columns, the rows and the table
    made of them. *)
Definition out_table_of (column_list : list string)
    (creation_modules : list string)
    (creation_modules_params : list (list dict))
    (parameters : gmap string string) (cores : nat) : result table :=
  (* Get the filters in the database *)
  let filter_names := filter_names_of column_list in
  filter_list ← mapM get_filter filter_names;
  (* Columns of the output table *)
  out_columns ← out_columns_of creation_modules creation_modules_params
                  filter_names;
  (* Parallel computation of the fluxes *)
  storage_type ← getitem parameters "storage_type";
  let warehouse := new_warehouse storage_type in
  out_rows ← out_rows_of cores warehouse filter_list creation_modules
               creation_modules_params;
  Table (zip_star out_rows) out_columns.

(** [if os.path.isfile(out_file): ...] *)
Definition rename_existing (out_file : string) : run unit :=
  exists_ ← os_isfile out_file;
  if exists_ : bool then
    let new_name := now +:+ "_" +:+ out_file in
    _ ← os_rename out_file new_name;
    print ("The existing " +:+ out_file +:+ " file was renamed to " +:+
           new_name)
  else mret tt.

(** [SaveFluxes.process(data_file, column_list, creation_modules,
    creation_modules_params, parameters, cores)] *)
Definition process (data_file : string) (column_list : list string)
    (creation_modules : list string)
    (creation_modules_params : list (list dict))
    (parameters : gmap string string) (cores : nat) : run unit :=
  out_file ← stm_lift (getitem parameters "output_file");
  out_format ← stm_lift (getitem parameters "output_format");
  (* If the output file already exists make a copy. *)
  _ ← rename_existing out_file;
  out_table ← stm_lift (out_table_of column_list creation_modules
                          creation_modules_params parameters cores);
  content ← stm_lift (table_write out_format out_table);
  os_write out_file content.

End Process.

End SaveFluxes.

(** ** [pcigale/data/__init__.py]: the model databases *)

Module Data.

Section Definitions.

(** [K] is the type of the key values (floats, for the models of this
    file), printed by [str_of] in an f-string and by [repr_of] inside the
    [repr] of a dictionary; [D] is the type of the stored tables. *)
Context {K D : Type} `{EqDecision K}.
Context (str_of repr_of : K -> string).

(** *** The SQLAlchemy database *)

Record _THEMIS : Type := Mk_THEMIS {
  qhac : K; umin : K; umax : K; alpha : K; wave : D; lumin : D
}.

Record _Filter : Type := Mk_Filter {
  name : string; description : string; trans_table : D;
  pivot_wavelength : K
}.

(** The objects handed to the caller, built by the constructors of
    [pcigale.data.themis] and [pcigale.data.filters]. *)
Inductive THEMIS : Type :=
| THEMIS_ (qhac umin umax alpha : K) (wave lumin : D).

Inductive Filter : Type :=
| Filter_ (name description : string) (trans_table : D)
    (pivot_wavelength : K).

(** The rows the session sees. *)
Record Database : Type := MkDatabase {
  THEMIS_models : list _THEMIS;
  filters : list _Filter
}.

(** [session.query(_THEMIS).filter(...).first()] *)
Definition query_themis (db : Database) (q u1 u2 a : K) : option _THEMIS :=
  snd <$> list_find
    (fun r => qhac r = q ∧ umin r = u1 ∧ umax r = u2 ∧ alpha r = a)
    (THEMIS_models db).

Definition get_themis (db : Database) (q u1 u2 a : K) : result THEMIS :=
  match query_themis db q u1 u2 a with
  | Some r =>
      Ok (THEMIS_ (qhac r) (umin r) (umax r) (alpha r) (wave r) (lumin r))
  | None =>
      Raise (DatabaseLookupError
        ("The THEMIS model for qhac <" +:+ str_of q +:+ ">, umin <" +:+
         str_of u1 +:+ ">, umax " +:+ "<" +:+ str_of u2 +:+
         ">, and alpha <" +:+ str_of a +:+ "> is not in the database."))
  end.

(** [session.query(_Filter).filter(_Filter.name == name).first()] *)
Definition query_filter (db : Database) (n : string) : option _Filter :=
  snd <$> list_find (fun r => name r = n) (filters db).

Definition get_filter (db : Database) (n : string) : result Filter :=
  match query_filter db n with
  | Some r =>
      Ok (Filter_ (name r) (description r) (trans_table r)
            (pivot_wavelength r))
  | None =>
      Raise (DatabaseLookupError
        ("The filter <" +:+ n +:+ "> is not in the database"))
  end.

(** *** The pickle database *)

(** A file of the directory of a database holds a pickled object, or
    something [pickle.load] cannot read. *)
Inductive pickled : Type :=
| PParameters (parameters : list (string * list K))
| PEntry (primarykeys : list (string * K)) (data : list (string * D)).

Inductive file : Type :=
| Pickle (o : pickled)
| Unreadable.

Record SimpleDatabase : Type := MkSimpleDatabase {
  sdb_name : string;
  sdb_writable : bool;
  sdb_path : string;
  sdb_files : gmap string file;
  sdb_parameters : pickled
}.

(** [SimpleDatabase.__init__(name, writable)], [path] being the
    directory of the database and [dir] its files if it exists. *)
Definition SimpleDatabase_init (n : string) (writable : bool)
    (path : string) (dir : option (gmap string file))
    : result SimpleDatabase :=
  let dir :=
    match dir with
    | None =>
        if writable
        then Some {[ "parameters.pickle" := Pickle (PParameters []) ]}
        else None
    | Some files => Some files
    end in
  match dir ≫= (fun files => files !! "parameters.pickle") with
  | Some (Pickle o) =>
      Ok (MkSimpleDatabase n writable path (default ∅ dir) o)
  | _ =>
      Raise (Exception
        ("The database " +:+ n +:+ " appears corrupted. " +:+
         "Erase " +:+ path +:+ " and rebuild it."))
  end.

Definition key_le (a b : string * K) : Prop := String.le a.1 b.1.

#[local] Instance key_le_dec : RelDecision key_le :=
  fun a b => decide (String.le a.1 b.1).

(** ["_".join(f"{k}={v}" for k, v in sorted(primarykeys.items()))] *)
Definition basename (primarykeys : list (string * K)) : string :=
  join "_" (map (fun kv => kv.1 +:+ "=" +:+ str_of kv.2)
              (merge_sort key_le primarykeys)).

(** [f"{primarykeys}"]: the [repr] of the dictionary. *)
Definition dict_repr (primarykeys : list (string * K)) : string :=
  "{" +:+ join ", " (map (fun kv => "'" +:+ kv.1 +:+ "': " +:+ repr_of kv.2)
                       primarykeys) +:+ "}".

(** [SimpleDatabase.get], the primary keys being its keyword
    arguments in the order given. *)
Definition get (db : SimpleDatabase) (primarykeys : list (string * K))
    : result pickled :=
  match sdb_files db !! (basename primarykeys +:+ ".pickle") with
  | Some (Pickle entry) => Ok entry
  | _ =>
      Raise (Exception
        ("Cannot read model " +:+ dict_repr primarykeys +:+
         ". Either the " +:+ "parameters were passed incorrectly or the " +:+
         "database has not been built correctly."))
  end.

End Definitions.

End Data.

(** ** The flux-saving module on the warehouse of section 4.4 *)

(** The warehouse cache as the [SedWarehouse] of the flux-saving module.
    Whatever the storage type, a new warehouse has an empty cache. *)
Definition cached_warehouse {SED : Type}
    (process : string -> SaveFluxes.dict -> SED -> SED) (fresh_sed : SED)
    : SaveFluxes.SedWarehouse (Warehouse.warehouse SaveFluxes.dict SED) SED :=
  {| SaveFluxes.new_warehouse := fun _ => Warehouse.empty_warehouse;
     SaveFluxes.get_sed := Warehouse.get_sed process fresh_sed;
     SaveFluxes.partial_clear_cache :=
       fun w changed => Warehouse.partial_clear_cache changed w |}.

(** A SED that is only the history of the modules applied to it, to run
    the flux-saving module on concrete grids. *)
Definition history : Type := list (string * SaveFluxes.dict).

Definition record_stage (name : string) (params : SaveFluxes.dict)
    (sed : history) : history :=
  sed ++ [(name, params)].

Definition history_warehouse
    : SaveFluxes.SedWarehouse (Warehouse.warehouse SaveFluxes.dict history)
        history :=
  cached_warehouse record_stage [].

(** A flux that shows the SED it was computed from: the number of stages
    plus the effective wavelength of the filter. *)
Definition count_fnu (sed : history) (trans_table : string)
    (effective_wavelength : nat) : nat :=
  length sed + effective_wavelength.

(** Modelled from the spec: the comparison made by the changed-parameter
    detector, which is not part of the code embedded here: the index of the
    first stage whose parameters differ between two consecutive grid
    points.  For two equal grid points, on which the specification is
    silent, it gives the number of stages. *)
Fixpoint first_changed (previous current : list SaveFluxes.dict) : nat :=
  match previous, current with
  | p :: previous, c :: current =>
      if bool_decide (p = c) then S (first_changed previous current) else 0
  | _, _ => 0
  end.

(** Modelled from the spec: the changed-parameter detector,
    [find_changed_parameters] of [analysis_modules/utils.py], which is not
    part of the code embedded here: for each grid point the index of the
    first stage whose parameters differ from those of the grid point before
    it, and 0 for the first grid point. *)
Definition find_changed_parameters (grid : list (list SaveFluxes.dict))
    : list nat :=
  match grid with
  | [] => []
  | first :: rest => 0%nat :: zip_with first_changed (first :: rest) rest
  end.

(** The grid of two stages with the values 1, 2 for the first and 10, 20
    for the second, in row-major order. *)
Definition grid_2x2 : list (list SaveFluxes.dict) :=
  [ [[("tau", VInt 1)]; [("E_BV", VInt 10)]];
    [[("tau", VInt 1)]; [("E_BV", VInt 20)]];
    [[("tau", VInt 2)]; [("E_BV", VInt 10)]];
    [[("tau", VInt 2)]; [("E_BV", VInt 20)]] ].

(** ** [pcigale/data/__init__.py]: writing to the databases *)

Module DataOps.

Section Definitions.

Context {K D : Type} `{EqDecision K}.
Context (str_of : K -> string).

(** *** The SQLAlchemy database *)

(** The [Database] object: the rows its session sees, and
    [self.is_writable]. *)
Record handle : Type := MkHandle {
  rows : Data.Database (K := K) (D := D);
  is_writable : bool
}.

(** [_Filter(f)]: the row copies the four attributes of the filter. *)
Definition row_of_filter (f : Data.Filter (K := K) (D := D))
    : Data._Filter (K := K) (D := D) :=
  match f with
  | Data.Filter_ n d t p => Data.Mk_Filter n d t p
  end.

(** [_THEMIS(model)] *)
Definition row_of_themis (m : Data.THEMIS (K := K) (D := D))
    : Data._THEMIS (K := K) (D := D) :=
  match m with
  | Data.THEMIS_ q u1 u2 a w l => Data.Mk_THEMIS q u1 u2 a w l
  end.

(** The primary key of a row of [THEMIS_models]. *)
Definition themis_key (r : Data._THEMIS (K := K) (D := D)) : K * K * K * K :=
  (Data.qhac r, Data.umin r, Data.umax r, Data.alpha r).

(** Whether [session.commit()] accepts rows with the primary keys [new]
    added to a table with the primary keys [old]: a primary key is held by
    one row only, and the commit fails with [IntegrityError] otherwise. *)
Definition keys_accepted {A : Type} `{EqDecision A} (old new : list A) : bool :=
  bool_decide (NoDup new ∧ Forall (fun k => k ∉ old) new).

(** [add_filters(pcigale_filters)]: the rows are added to the session and
    committed together; a commit that fails is rolled back. *)
Definition add_filters (h : handle)
    (pcigale_filters : list (Data.Filter (K := K) (D := D)))
    : result unit * handle :=
  if is_writable h then
    let pending := row_of_filter <$> pcigale_filters in
    if keys_accepted (Data.name <$> Data.filters (rows h))
         (Data.name <$> pending)
    then (Ok tt,
          MkHandle (Data.MkDatabase (Data.THEMIS_models (rows h))
                      (Data.filters (rows h) ++ pending))
            (is_writable h))
    else (Raise (DatabaseInsertError "The filter is already in the base."), h)
  else (Raise (Exception "The database is not writable."), h).

(** [add_filter(pcigale_filter)] *)
Definition add_filter (h : handle)
    (pcigale_filter : Data.Filter (K := K) (D := D)) : result unit * handle :=
  if is_writable h then
    let pending := [row_of_filter pcigale_filter] in
    if keys_accepted (Data.name <$> Data.filters (rows h))
         (Data.name <$> pending)
    then (Ok tt,
          MkHandle (Data.MkDatabase (Data.THEMIS_models (rows h))
                      (Data.filters (rows h) ++ pending))
            (is_writable h))
    else (Raise (DatabaseInsertError "The filter is already in the base."), h)
  else (Raise (Exception "The database is not writable."), h).

(** [add_themis(models)] *)
Definition add_themis (h : handle)
    (models : list (Data.THEMIS (K := K) (D := D))) : result unit * handle :=
  if is_writable h then
    let pending := row_of_themis <$> models in
    if keys_accepted (themis_key <$> Data.THEMIS_models (rows h))
         (themis_key <$> pending)
    then (Ok tt,
          MkHandle (Data.MkDatabase (Data.THEMIS_models (rows h) ++ pending)
                      (Data.filters (rows h)))
            (is_writable h))
    else (Raise (DatabaseInsertError "Error."), h)
  else (Raise (Exception "The database is not writable."), h).

(** [get_filter_names()] *)
Definition get_filter_names (h : handle) : list string :=
  Data.name <$> Data.filters (rows h).

(** [parse_filters()], the filters it yields in order. *)
Definition parse_filters (h : handle)
    : list (Data.Filter (K := K) (D := D)) :=
  (fun r => Data.Filter_ (Data.name r) (Data.description r)
              (Data.trans_table r) (Data.pivot_wavelength r))
    <$> Data.filters (rows h).

(** *** The pickle database *)

(** [d[k]] and [d[k] = v] on a dictionary kept in insertion order. *)
Definition dict_get {V : Type} (d : list (string * V)) (k : string)
    : option V :=
  (fun iv => iv.2.2) <$> list_find (fun kv => kv.1 = k) d.

Definition dict_set {V : Type} (d : list (string * V)) (k : string) (v : V)
    : list (string * V) :=
  match list_find (fun kv => kv.1 = k) d with
  | Some (i, _) => <[i := (k, v)]> d
  | None => d ++ [(k, v)]
  end.

(** [for k, v in primarykeys.items(): self.parameters[k] = [v]] *)
Definition create_lists (parameters : list (string * list K))
    (primarykeys : list (string * K)) : list (string * list K) :=
  foldl (fun ps kv => dict_set ps kv.1 [kv.2]) parameters primarykeys.

(** [for k, v in primarykeys.items(): self.parameters[k].append(v)]: a
    name that is not a key of [parameters] stops the loop with
    [KeyError], the values of the names before it having been appended. *)
Fixpoint append_values (parameters : list (string * list K))
    (primarykeys : list (string * K))
    : result unit * list (string * list K) :=
  match primarykeys with
  | [] => (Ok tt, parameters)
  | (k, v) :: primarykeys =>
      match dict_get parameters k with
      | Some l => append_values (dict_set parameters k (l ++ [v])) primarykeys
      | None => (Raise (KeyError k), parameters)
      end
  end.

(** [SimpleDatabase.add(primarykeys, data)].  The entry goes to its file
    before the parameters dictionary is updated. *)
Definition add (db : Data.SimpleDatabase (K := K) (D := D))
    (primarykeys : list (string * K)) (data : list (string * D))
    : result unit * Data.SimpleDatabase (K := K) (D := D) :=
  if negb (Data.sdb_writable db)
  then (Raise (Exception ("The database " +:+ Data.sdb_name db +:+
                          " is read-only.")), db)
  else
    let files :=
      <[Data.basename str_of primarykeys +:+ ".pickle" :=
          Data.Pickle (Data.PEntry primarykeys data)]> (Data.sdb_files db) in
    let updated r parameters :=
      (r, Data.MkSimpleDatabase (Data.sdb_name db) (Data.sdb_writable db)
            (Data.sdb_path db) files parameters) in
    match Data.sdb_parameters db with
    | Data.PParameters ps =>
        if bool_decide (length ps = 0%nat)
        then updated (Ok tt) (Data.PParameters (create_lists ps primarykeys))
        else
          let (r, ps) := append_values ps primarykeys in
          updated r (Data.PParameters ps)
    | Data.PEntry pk d =>
        updated (Raise (TypeError
                   "object of type 'SimpleDatabaseEntry' has no len()"))
          (Data.PEntry pk d)
    end.

(** [SimpleDatabase.close()].  [set_list] is [list(set(v))], whose order
    Python leaves open.  A database that is not writable is left as it
    is; [None] stands for the [AttributeError] raised by
    [self.parameters.items()] when the object loaded from
    [parameters.pickle] is not a dictionary. *)
Definition close (set_list : list K -> list K)
    (db : Data.SimpleDatabase (K := K) (D := D))
    : option (Data.SimpleDatabase (K := K) (D := D)) :=
  if Data.sdb_writable db then
    match Data.sdb_parameters db with
    | Data.PParameters ps =>
        let ps :=
          foldl (fun ps' kv => dict_set ps' kv.1 (set_list kv.2)) ps ps in
        Some (Data.MkSimpleDatabase (Data.sdb_name db) (Data.sdb_writable db)
                (Data.sdb_path db)
                (<["parameters.pickle" := Data.Pickle (Data.PParameters ps)]>
                   (Data.sdb_files db))
                (Data.PParameters ps))
    | Data.PEntry _ _ => None
    end
  else Some db.


End Definitions.

End DataOps.

(** * Properties *)

(** ** Strings *)

Lemma string_app_assoc (a b c : string) : (a +:+ b) +:+ c = a +:+ (b +:+ c).
Proof.
  induction a as [|x a IH]; [reflexivity |].
  unfold append; fold append. by rewrite IH.
Qed.

Lemma string_app_nil_r (a : string) : a +:+ "" = a.
Proof.
  induction a as [|x a IH]; [reflexivity |].
  unfold append; fold append. by rewrite IH.
Qed.

Lemma string_app_length (a b : string) :
  String.length (a +:+ b) = String.length a + String.length b.
Proof.
  induction a as [|x a IH]; [reflexivity |].
  unfold append; fold append. simpl. by rewrite IH.
Qed.

Lemma occurs_in_refl (s : string) : occurs_in s s.
Proof. exists "", "". by rewrite string_app_nil_r. Qed.

Lemma occurs_in_app_l (sub s t : string) :
  occurs_in sub s -> occurs_in sub (s +:+ t).
Proof.
  intros (pre & post & ->). exists pre, (post +:+ t).
  by rewrite !string_app_assoc.
Qed.

Lemma occurs_in_app_r (sub s t : string) :
  occurs_in sub t -> occurs_in sub (s +:+ t).
Proof.
  intros (pre & post & ->). exists (s +:+ pre), post.
  by rewrite !string_app_assoc.
Qed.

Lemma occurs_in_join (sep k : string) (l : list string) :
  k ∈ l -> occurs_in k (join sep l).
Proof.
  unfold join. induction l as [|x l IH]; intros Hin.
  - by apply elem_of_nil in Hin.
  - apply elem_of_cons in Hin as [->|Hin].
    + destruct l; simpl; [apply occurs_in_refl |].
      apply occurs_in_app_l, occurs_in_refl.
    + specialize (IH Hin). destruct l as [|y l].
      * by apply elem_of_nil in Hin.
      * simpl. by do 2 apply occurs_in_app_r.
Qed.

Create HintDb occurs.
#[export] Hint Resolve occurs_in_refl occurs_in_app_l occurs_in_app_r
  occurs_in_join : occurs.

(** ** Sequencing *)

Lemma stm_bind_ok {S A B : Type} (m : stm S A) (k : A -> stm S B)
    (h h' : S) (a : A) :
  m h = (Ok a, h') -> stm_bind m k h = k a h'.
Proof. intros Hm. unfold stm_bind. by rewrite Hm. Qed.

Lemma stm_bind_raise {S A B : Type} (m : stm S A) (k : A -> stm S B)
    (h h' : S) (e : exn) :
  m h = (Raise e, h') -> stm_bind m k h = (Raise e, h').
Proof. intros Hm. unfold stm_bind. by rewrite Hm. Qed.

(** ** Parameter resolution *)

Section ParameterResolution.

Import Common.

(** What the loop over the schema leaves under key [k]. *)
Definition resolved_value (given : gmap string pyval)
    (parameter_list : gmap string schema_entry) (k : string)
    : option pyval :=
  match given !! k with
  | Some v => Some v
  | None =>
      match parameter_list !! k with
      | Some e => if is_None (default_of e) then None else Some (default_of e)
      | None => None
      end
  end.

Lemma foldl_fill_default (l : list (string * schema_entry))
    (given : gmap string pyval) (k : string) :
  NoDup l.*1 ->
  foldl fill_default given l !! k
  = resolved_value given (list_to_map l) k.
Proof.
  revert given. induction l as [|[k0 e0] l IH]; intros given Hnd.
  - unfold resolved_value. simpl. rewrite lookup_empty. by destruct (given !! k).
  - apply NoDup_cons in Hnd as [Hk0 Hnd]. simpl in Hk0.
    simpl foldl. rewrite IH by done.
    assert (Hl : (list_to_map l : gmap string schema_entry) !! k0 = None)
      by by apply not_elem_of_list_to_map_1.
    unfold resolved_value, fill_default. simpl.
    destruct (decide (k = k0)) as [->|Hne].
    + rewrite Hl, lookup_insert_eq.
      destruct (given !! k0) as [v|] eqn:Hg; simpl.
      * by rewrite Hg.
      * destruct (is_None (default_of e0)) eqn:Hd; simpl.
        -- by rewrite Hg.
        -- by rewrite lookup_insert_eq.
    + rewrite (lookup_insert_ne _ k0 k) by done.
      case_bool_decide; destruct (is_None (default_of e0)); simpl;
        rewrite ?lookup_insert_ne by done; done.
Qed.

Lemma fill_defaults_lookup (given : gmap string pyval)
    (parameter_list : gmap string schema_entry) (k : string) :
  fill_defaults given parameter_list !! k
  = resolved_value given parameter_list k.
Proof.
  unfold fill_defaults.
  rewrite foldl_fill_default by apply NoDup_fst_map_to_list.
  by rewrite list_to_map_to_list.
Qed.

Context (set_iter : gset string -> list string).
Hypothesis set_iter_perm : forall s, set_iter s ≡ₚ elements s.

Lemma mismatch_message_names (dot : string) (missing unexpected : gset string)
    (k : string) :
  k ∈ missing ∨ k ∈ unexpected ->
  occurs_in k (mismatch_message set_iter dot missing unexpected).
Proof.
  intros Hk. unfold mismatch_message. cbv zeta.
  apply occurs_in_app_r.
  destruct Hk as [Hk|Hk].
  - rewrite (bool_decide_eq_false_2 (missing = ∅)) by set_solver.
    assert (occurs_in k ("" +:+ "Missing parameters: " +:+
                         join ", " (set_iter missing) +:+ dot)).
    { apply occurs_in_app_r, occurs_in_app_r, occurs_in_app_l, occurs_in_join.
      rewrite set_iter_perm. by apply elem_of_elements. }
    case_bool_decide; [done | by apply occurs_in_app_l].
  - rewrite (bool_decide_eq_false_2 (unexpected = ∅)) by set_solver.
    apply occurs_in_app_r, occurs_in_app_r, occurs_in_app_l, occurs_in_join.
    rewrite set_iter_perm. by apply elem_of_elements.
Qed.

(** C1.  The loop over the schema adds exactly the non-null defaults of
    the absent keys and keeps every supplied value.  If the completed key
    set equals the key set of the schema, [complete_parameters] returns
    the completed dictionary and [AnalysisModule.process] hands it to
    [_process]; otherwise both raise a [KeyError] whose message names
    every missing key and every unexpected key. *)
Theorem complete_parameters_resolution
    (given : gmap string pyval) (parameter_list : gmap string schema_entry) :
  let filled := fill_defaults given parameter_list in
  (forall k, filled !! k = resolved_value given parameter_list k)
  ∧ (dom filled = dom parameter_list ->
     complete_parameters set_iter given parameter_list = Ok filled
     ∧ forall (R : Type) (_process : gmap string pyval -> result R),
         Analysis.process set_iter _process parameter_list given
         = _process filled)
  ∧ (dom filled ≠ dom parameter_list ->
     exists msg msg' : string,
       complete_parameters set_iter given parameter_list
       = Raise (KeyError msg)
       ∧ (forall (R : Type) (_process : gmap string pyval -> result R),
            Analysis.process set_iter _process parameter_list given
            = Raise (KeyError msg'))
       ∧ (forall k, k ∈ dom parameter_list -> k ∉ dom filled ->
            occurs_in k msg ∧ occurs_in k msg')
       ∧ (forall k, k ∈ dom filled -> k ∉ dom parameter_list ->
            occurs_in k msg ∧ occurs_in k msg')).
Proof.
  intros filled. split; [apply fill_defaults_lookup |]. split.
  - intros Hdom. unfold complete_parameters, Analysis.process.
    fold filled. by rewrite bool_decide_eq_true_2.
  - intros Hdom. eexists _, _.
    unfold complete_parameters, Analysis.process. fold filled.
    rewrite bool_decide_eq_false_2 by done.
    split; [reflexivity |]. split; [reflexivity |].
    split; intros k H1 H2; split; apply mismatch_message_names; set_solver.
Qed.

End ParameterResolution.

(** The schema [{a: default 1, b: no default}] of the specification. *)
Definition schema_ab : gmap string Common.schema_entry :=
  <["a" := (VStr "int", VStr "first", VInt 1)]>
    (<["b" := (VStr "int", VStr "second", VNone)]> ∅).

Lemma complete_parameters_resolution_witness :
  (forall s : gset string, elements s ≡ₚ elements s)
  ∧ Common.complete_parameters elements (<["b" := VInt 5]> ∅) schema_ab
    = Ok (<["a" := VInt 1]> (<["b" := VInt 5]> ∅)).
Proof.
  split; [reflexivity |].
  destruct (complete_parameters_resolution elements (fun s => reflexivity _)
              (<["b" := VInt 5]> ∅) schema_ab) as (_ & Hok & _).
  destruct Hok as [-> _]; [by vm_compute |].
  f_equal.
Defined.

Example complete_parameters_unexpected :
  exists msg,
    Common.complete_parameters elements
      (<["a" := VInt 2]> (<["b" := VInt 5]> (<["c" := VInt 9]> ∅))) schema_ab
    = Raise (KeyError msg)
    ∧ occurs_in "Unexpected parameters: c." msg.
Proof.
  eexists. split; [vm_compute; reflexivity |].
  by exists "The parameters passed are different from the expected one.", "".
Qed.

Example complete_parameters_missing :
  exists msg,
    Common.complete_parameters elements (<["a" := VInt 2]> ∅) schema_ab
    = Raise (KeyError msg)
    ∧ occurs_in "Missing parameters: b. " msg.
Proof.
  eexists. split; [vm_compute; reflexivity |].
  by exists "The parameters passed are different from the expected one.", "".
Qed.

(** ** Module lookup *)

Section ModuleLookup.

Import Common.




Context (set_iter : gset string -> list string).
Context (py_exec : string -> result module_class).




End ModuleLookup.

(** A package holding the single module file [dh2002.py], whose [Module]
    class has no parameter. *)
Definition dh2002_class : Common.module_class :=
  Common.ModuleClass ∅ (fun _ => Ok tt).

Definition dh2002_only (statement : string) : result Common.module_class :=
  if String.eqb statement "from . import dh2002 as module"
  then Ok dh2002_class
  else Raise (ImportError "cannot import name").


(** ** Error adjustment *)

Section AdjustErrors.

Import Analysis.

Context {F : Type} `{Float F}.

Lemma select_length (a : list F) (mask : list bool) :
  length mask = length a -> length (select a mask) = count_true mask.
Proof.
  unfold count_true. revert mask.
  induction a as [|x a IH]; intros [|b mask] Hlen; try done.
  injection Hlen as Hlen. rewrite filter_cons.
  destruct b; simpl; by rewrite IH.
Qed.

Lemma put_length (a : list F) (mask : list bool) (vs : list F) :
  length (put a mask vs) = length a.
Proof.
  revert mask vs. induction a as [|x a IH]; intros [|[] mask] vs; try done.
  - destruct vs; simpl; by rewrite IH.
  - simpl. by rewrite IH.
Qed.

Lemma np_read_ok (h : store F) (r : ref) (a : list F) :
  h !! r = Some a -> np_read r h = (Ok a, h).
Proof. intros Hr. unfold np_read. by rewrite Hr. Qed.

Lemma np_copy_ok (h : store F) (r : ref) (a : list F) :
  h !! r = Some a -> np_copy r h = (Ok (length h), h ++ [a]).
Proof.
  intros Hr. unfold np_copy.
  by rewrite (stm_bind_ok _ _ h h a) by by apply np_read_ok.
Qed.

Lemma mask_getitem_ok (a : list F) (mask : list bool) :
  length mask = length a -> mask_getitem a mask = Ok (select a mask).
Proof. intros Hlen. unfold mask_getitem. by rewrite bool_decide_eq_true_2. Qed.

Lemma mask_setitem_ok (h : store F) (r : ref) (a vs : list F)
    (mask : list bool) :
  h !! r = Some a -> length mask = length a ->
  length vs = count_true mask ->
  mask_setitem r mask vs h = (Ok tt, <[r := put a mask vs]> h).
Proof.
  intros Hr Hmask Hvs. unfold mask_setitem.
  rewrite (stm_bind_ok _ _ h h a) by by apply np_read_ok.
  by rewrite !bool_decide_eq_true_2.
Qed.

Lemma broadcast2_same_length (f : F -> F -> F) (a b : list F) :
  length a = length b -> broadcast2 f a b = Ok (zip_with f a b).
Proof. intros Hlen. unfold broadcast2. by rewrite bool_decide_eq_true_2. Qed.

(** What [adjust_errors] does on arrays of equal length: the working copy
    is the first new object, the outcome the second. *)
Lemma adjust_errors_run (h : store F) (flux error : ref) (fl er : list F)
    (tolerance default_error systematic_deviation : F) :
  h !! flux = Some fl -> h !! error = Some er ->
  length fl = length er ->
  exists work res : list F,
    adjust_errors flux error tolerance default_error systematic_deviation h
    = (Ok (S (length h)), h ++ [work] ++ [res])
    ∧ length res = length er.
Proof.
  intros Hfl Her Hlen.
  pose proof (lookup_lt_Some _ _ _ Hfl) as Hflt.
  pose proof (lookup_lt_Some _ _ _ Her) as Hert.
  set (mask := map (fun e => flt e tolerance) er).
  set (work := put er mask (map (fmul default_error) (select fl mask))).
  assert (Hmask : length mask = length er)
    by (unfold mask; by rewrite length_map).
  assert (Hh1f : (h ++ [er]) !! flux = Some fl) by by rewrite lookup_app_l.
  assert (Hh1c : (h ++ [er]) !! length h = Some er)
    by by rewrite list_lookup_middle.
  assert (Hh2 : <[length h := work]> (h ++ [er]) = h ++ [work]).
  { rewrite insert_app_r_alt by lia. by rewrite Nat.sub_diag. }
  assert (Hh2f : (h ++ [work]) !! flux = Some fl) by by rewrite lookup_app_l.
  assert (Hh2c : (h ++ [work]) !! length h = Some work)
    by by rewrite list_lookup_middle.
  exists work. eexists. unfold adjust_errors, mbind, stm_mbind.
  rewrite (stm_bind_ok _ _ h h fl) by by apply np_read_ok.
  rewrite (stm_bind_ok _ _ h h er) by by apply np_read_ok.
  rewrite bool_decide_eq_true_2 by done. cbn [negb].
  rewrite (stm_bind_ok _ _ h (h ++ [er]) (length h)) by by apply np_copy_ok.
  rewrite (stm_bind_ok _ _ _ (h ++ [er]) er) by by apply np_read_ok.
  rewrite (stm_bind_ok _ _ _ (h ++ [er]) fl) by by apply np_read_ok.
  rewrite (stm_bind_ok _ _ _ (h ++ [er]) (select fl mask))
    by (unfold stm_lift; rewrite mask_getitem_ok;
        [done | rewrite length_map; congruence]).
  rewrite (stm_bind_ok _ _ _ (h ++ [er]) er) by by apply np_read_ok.
  rewrite (stm_bind_ok _ _ _ (h ++ [work]) tt).
  2:{ rewrite <- Hh2. apply mask_setitem_ok; [done | done |].
      rewrite length_map. apply select_length. fold mask. congruence. }
  rewrite (stm_bind_ok _ _ _ (h ++ [work]) work) by by apply np_read_ok.
  rewrite (stm_bind_ok _ _ _ (h ++ [work]) fl) by by apply np_read_ok.
  rewrite (stm_bind_ok _ _ _ (h ++ [work])
             (zip_with fadd (map fsquare work)
                (map fsquare
                   (map (fun x => fmul x systematic_deviation) fl)))).
  2:{ unfold stm_lift. rewrite broadcast2_same_length; [done |].
      rewrite !length_map. unfold work. rewrite put_length. congruence. }
  unfold np_alloc. rewrite length_app. simpl length.
  rewrite Nat.add_1_r. rewrite <- (assoc (++)).
  split; [reflexivity |].
  rewrite length_map, length_zip_with, !length_map.
  unfold work. rewrite put_length. lia.
Qed.

(** C9.  [adjust_errors] raises [ValueError] exactly when the two arrays
    differ in length; whether it raises or not, every array of the caller,
    the error array among them, holds afterwards what it held before; and
    when it returns, the outcome is a new array of the length of the
    inputs. *)
Theorem adjust_errors_contract (h : store F) (flux error : ref)
    (fl er : list F) (tolerance default_error systematic_deviation : F) :
  h !! flux = Some fl -> h !! error = Some er ->
  let run :=
    adjust_errors flux error tolerance default_error systematic_deviation h in
  ((exists msg, run.1 = Raise (ValueError msg)) <-> length fl ≠ length er)
  ∧ run.2 !! error = Some er
  ∧ (forall r a, h !! r = Some a -> run.2 !! r = Some a)
  ∧ (length fl = length er ->
     exists out res,
       run.1 = Ok out ∧ h !! out = None
       ∧ run.2 !! out = Some res ∧ length res = length er).
Proof.
  intros Hfl Her run.
  destruct (decide (length fl = length er)) as [Hlen|Hlen].
  - destruct (adjust_errors_run h flux error fl er tolerance default_error
                systematic_deviation Hfl Her Hlen) as (work & res & Hrun & Hres).
    subst run. rewrite Hrun. simpl.
    assert (Hkeep : forall r a, h !! r = Some a ->
              (h ++ [work] ++ [res]) !! r = Some a).
    { intros r a Hr. by rewrite lookup_app_l by by eapply lookup_lt_Some. }
    repeat split; auto.
    + by intros [msg ?].
    + done.
    + intros _. exists (S (length h)), res.
      repeat split; [by apply lookup_ge_None_2; lia | | done].
      rewrite lookup_app_r by lia.
      by replace (S (length h) - length h)%nat with 1%nat by lia.
  - assert (Hrun : run = (Raise (ValueError
               "The flux and error arrays must have the same length."), h)).
    { subst run. unfold adjust_errors, mbind, stm_mbind.
      rewrite (stm_bind_ok _ _ h h fl) by by apply np_read_ok.
      rewrite (stm_bind_ok _ _ h h er) by by apply np_read_ok.
      by rewrite bool_decide_eq_false_2 by done. }
    rewrite Hrun. simpl. repeat split; eauto. done.
Qed.

End AdjustErrors.

(** Integer arithmetic in place of floats, to run the array code on
    concrete data. *)
Definition Z_float : Float Z :=
  {| flt := Z.ltb; fadd := Z.add; fmul := Z.mul;
     fsquare := fun z => (z * z)%Z; fsqrt := Z.sqrt; fzero := 0%Z |}.

Lemma adjust_errors_contract_witness :
  let h := [[3; 4]; [0; 5]]%Z in
  let run := Analysis.adjust_errors (H := Z_float) 0 1 1%Z 2%Z 1%Z h in
  h !! 0%nat = Some [3; 4]%Z ∧ h !! 1%nat = Some [0; 5]%Z
  ∧ run.2 !! 1%nat = Some [0; 5]%Z
  ∧ exists out res, run.1 = Ok out ∧ run.2 !! out = Some res
                    ∧ length res = 2%nat.
Proof.
  intros h run.
  destruct (adjust_errors_contract (H := Z_float) h 0 1 [3; 4]%Z [0; 5]%Z
              1%Z 2%Z 1%Z eq_refl eq_refl) as (_ & Hkeep & _ & Hout).
  destruct (Hout eq_refl) as (out & res & Hrun & _ & Hres & Hlen).
  repeat split; try done. by exists out, res.
Defined.

Example adjust_errors_values :
  Analysis.adjust_errors (H := Z_float) 0 1 1%Z 2%Z 1%Z [[3; 4]; [0; 5]]%Z
  = (Ok 3%nat, [[3; 4]; [0; 5]; [6; 5]; [6; 6]]%Z).
Proof. reflexivity. Qed.

Example adjust_errors_lengths_differ :
  Analysis.adjust_errors (H := Z_float) 0 1 1%Z 2%Z 1%Z [[3; 4]; [5]]%Z
  = (Raise (ValueError "The flux and error arrays must have the same length."),
     [[3; 4]; [5]]%Z).
Proof. reflexivity. Qed.

(** ** Completion of the observation table *)

Section CompleteObsTable.

Import Analysis.

Context {F : Type} `{Float F}.

Lemma table_getitem_absent (t : table) (name : string) (h : store F) :
  name ∉ colnames t -> table_getitem t name h = (Raise (KeyError name), h).
Proof.
  intros Hname. unfold table_getitem.
  destruct (list_find _ t) as [[i c]|] eqn:Hfind; [| done].
  apply list_find_Some in Hfind as (Hi & Hc & _).
  exfalso. apply Hname. unfold colnames. rewrite <- Hc.
  apply list_elem_of_fmap_2. by eapply list_elem_of_lookup_2.
Qed.

Lemma table_getitem_present (t : table) (name : string) (h : store F) :
  name ∈ colnames t -> exists r, table_getitem t name h = (Ok r, h).
Proof.
  intros Hname. unfold table_getitem.
  destruct (list_find _ t) as [[i c]|] eqn:Hfind; [by eexists |].
  apply list_elem_of_fmap in Hname as ([n r] & -> & Hin).
  rewrite list_find_None, Forall_forall in Hfind.
  by destruct (Hfind _ Hin).
Qed.

(** An error column listed among the used columns and absent from the
    table stops the completion at the turn of its filter. *)
Lemma complete_obs_table_absent_error_column (t : table)
    (used_columns filter_list : list string) (name : string)
    (tolerance default_error systematic_deviation : F) (h : store F) :
  name ∈ colnames t ->
  name +:+ "_err" ∈ used_columns ->
  name +:+ "_err" ∉ colnames t ->
  complete_obs_table t used_columns (name :: filter_list)
    tolerance default_error systematic_deviation h
  = (Raise (KeyError (name +:+ "_err")), h).
Proof.
  intros Hname Hused Habsent. simpl.
  rewrite (bool_decide_eq_true_2 (name ∈ colnames t)) by done.
  rewrite (bool_decide_eq_true_2 (name +:+ "_err" ∈ used_columns)) by done.
  cbn [negb]. unfold mbind, stm_mbind.
  destruct (table_getitem_present t name h Hname) as [r Hr].
  unfold stm_bind at 1. unfold stm_ret at 1.
  unfold stm_bind at 1. rewrite Hr.
  unfold stm_bind at 1. by rewrite table_getitem_absent.
Qed.

(** C7.  With the single column [f] in the table, [f_err] among the used
    columns and [f] as the only filter, [complete_obs_table] raises the
    [KeyError] of the table lookup [obs_table["f_err"]]: no table is
    returned. *)
Theorem complete_obs_table_used_error_column_absent
    (x tolerance default_error systematic_deviation : F) :
  complete_obs_table [("f", 0%nat)] ["f"; "f_err"] ["f"]
    tolerance default_error systematic_deviation [[x]]
  = (Raise (KeyError "f_err"), [[x]]).
Proof. reflexivity. Qed.

End CompleteObsTable.

(** With [f_err] in neither the used columns nor the table, the column of
    default errors is added next to [f] and the table is returned. *)
Example complete_obs_table_error_column_added :
  Analysis.complete_obs_table (H := Z_float) [("f", 0%nat)] ["f"] ["f"]
    1%Z 2%Z 1%Z [[3; 4]%Z]
  = (Ok [("f", 0%nat); ("f_err", 3%nat)],
     [[3; 4]; [0; 0]; [6; 8]; [6; 8]]%Z).
Proof. reflexivity. Qed.

(** ** Lookups of the model databases *)

Lemma occurs_in_trans (a b c : string) :
  occurs_in a b -> occurs_in b c -> occurs_in a c.
Proof.
  intros (p1 & q1 & ->) (p2 & q2 & ->).
  exists (p2 +:+ p1), (q1 +:+ q2). by rewrite !string_app_assoc.
Qed.

(** An exception of the class kept for failed searches. *)
Definition is_lookup_error (e : exn) : bool :=
  match e with
  | DatabaseLookupError _ => true
  | _ => false
  end.

Section DatabaseLookups.

Import Data.

Context {K D : Type} `{EqDecision K}.
Context (str_of repr_of : K -> string).

Lemma get_themis_absent (db : Database (K := K) (D := D)) (q u1 u2 a : K) :
  (forall r, r ∈ THEMIS_models db ->
     ~ (qhac r = q ∧ umin r = u1 ∧ umax r = u2 ∧ alpha r = a)) ->
  exists msg,
    get_themis str_of db q u1 u2 a = Raise (DatabaseLookupError msg)
    ∧ occurs_in (str_of q) msg ∧ occurs_in (str_of u1) msg
    ∧ occurs_in (str_of u2) msg ∧ occurs_in (str_of a) msg.
Proof.
  intros Habsent. unfold get_themis, query_themis.
  destruct (list_find _ _) as [[i r]|] eqn:Hfind.
  - apply list_find_Some in Hfind as (Hi & Hr & _).
    destruct (Habsent r); [by eapply list_elem_of_lookup_2 | done].
  - simpl. eexists. split; [reflexivity |].
    repeat split; eauto 20 with occurs.
Qed.

Lemma get_filter_absent (db : Database (K := K) (D := D)) (n : string) :
  (forall r, r ∈ filters db -> name r ≠ n) ->
  exists msg,
    get_filter db n = Raise (DatabaseLookupError msg) ∧ occurs_in n msg.
Proof.
  intros Habsent. unfold get_filter, query_filter.
  destruct (list_find _ _) as [[i r]|] eqn:Hfind.
  - apply list_find_Some in Hfind as (Hi & Hr & _).
    destruct (Habsent r); [by eapply list_elem_of_lookup_2 | done].
  - simpl. eexists. split; [reflexivity |]. eauto with occurs.
Qed.

Lemma dict_repr_names (primarykeys : list (string * K)) (k : string) (v : K) :
  (k, v) ∈ primarykeys ->
  occurs_in k (dict_repr repr_of primarykeys)
  ∧ occurs_in (repr_of v) (dict_repr repr_of primarykeys).
Proof.
  intros Hin. unfold dict_repr.
  assert (Hitem : occurs_in ("'" +:+ k +:+ "': " +:+ repr_of v)
            (join ", " (map (fun kv => "'" +:+ kv.1 +:+ "': " +:+ repr_of kv.2)
                          primarykeys))).
  { apply occurs_in_join.
    by apply (list_elem_of_fmap_2
                (fun kv => "'" +:+ kv.1 +:+ "': " +:+ repr_of kv.2) _ (k, v)). }
  split; (eapply occurs_in_trans;
          [| apply occurs_in_app_r, occurs_in_app_l, Hitem]);
    eauto 10 with occurs.
Qed.

Lemma simple_get_absent (db : SimpleDatabase (K := K)) (primarykeys : list (string * K)) :
  sdb_files db !! (basename str_of primarykeys +:+ ".pickle") = None ->
  exists msg,
    get (D := D) str_of repr_of db primarykeys = Raise (Exception msg)
    ∧ forall k v, (k, v) ∈ primarykeys ->
        occurs_in k msg ∧ occurs_in (repr_of v) msg.
Proof.
  intros Habsent. unfold get. rewrite Habsent.
  eexists. split; [reflexivity |].
  intros k v [Hk Hv]%dict_repr_names.
  split; (eapply occurs_in_trans; [eassumption |]); eauto with occurs.
Qed.

(** C6, amended.  A lookup of the SQLAlchemy database for keys it does
    not hold raises [DatabaseLookupError], and the message shows the
    keys.  [SimpleDatabase.get] for keys without a file raises a plain
    [Exception] whose message shows the names and the values of the keys;
    it raises the same exception when the file is there and cannot be
    read. *)
Theorem lookup_of_absent_keys :
  (forall (db : Database (K := K) (D := D)) (q u1 u2 a : K),
     (forall r, r ∈ THEMIS_models db ->
        ~ (qhac r = q ∧ umin r = u1 ∧ umax r = u2 ∧ alpha r = a)) ->
     exists msg,
       get_themis str_of db q u1 u2 a = Raise (DatabaseLookupError msg)
       ∧ occurs_in (str_of q) msg ∧ occurs_in (str_of u1) msg
       ∧ occurs_in (str_of u2) msg ∧ occurs_in (str_of a) msg)
  ∧ (forall (db : Database (K := K) (D := D)) (n : string),
       (forall r, r ∈ filters db -> name r ≠ n) ->
       exists msg,
         get_filter db n = Raise (DatabaseLookupError msg)
         ∧ occurs_in n msg)
  ∧ (forall (db db' : SimpleDatabase (K := K))
            (primarykeys : list (string * K)),
       sdb_files db !! (basename str_of primarykeys +:+ ".pickle") = None ->
       sdb_files db' !! (basename str_of primarykeys +:+ ".pickle")
       = Some Unreadable ->
       exists msg,
         get (D := D) str_of repr_of db primarykeys = Raise (Exception msg)
         ∧ get (D := D) str_of repr_of db' primarykeys
           = Raise (Exception msg)
         ∧ forall k v, (k, v) ∈ primarykeys ->
             occurs_in k msg ∧ occurs_in (repr_of v) msg).
Proof.
  split; [exact get_themis_absent |]. split; [exact get_filter_absent |].
  intros db db' primarykeys Habsent Hbad.
  destruct (simple_get_absent db primarykeys Habsent) as (msg & Hget & Hmsg).
  exists msg. split; [done |]. split; [| done].
  unfold get in *. by rewrite Hbad; rewrite Habsent in Hget.
Qed.

End DatabaseLookups.

(** A pickle database without any entry, and the same database with an
    entry file that cannot be read; key values are given by their printed
    form. *)
Definition bc03_empty : Data.SimpleDatabase (K := string) (D := unit) :=
  Data.MkSimpleDatabase "bc03" false "data/bc03" ∅ (Data.PParameters []).

Definition bc03_damaged : Data.SimpleDatabase (K := string) (D := unit) :=
  Data.MkSimpleDatabase "bc03" false "data/bc03"
    {[ "imf=0_metallicity=0.02.pickle" := Data.Unreadable ]}
    (Data.PParameters []).

Definition bc03_keys : list (string * string) :=
  [("metallicity", "0.02"); ("imf", "0")].

(** C6 as stated fails for the pickle database: for keys that have no file,
    [SimpleDatabase.get] raises an exception that is not of the lookup
    class; it raises the very same exception for a damaged file, and the
    class is the one with which a damaged database is reported when it is
    opened. *)
Example bc03_basename :
  Data.basename id bc03_keys = "imf=0_metallicity=0.02".
Proof. reflexivity. Qed.

Lemma simple_database_absent_is_not_lookup_error :
  Data.sdb_files bc03_empty !! (Data.basename id bc03_keys +:+ ".pickle") = None
  ∧ exists msg,
      Data.get (D := unit) id id bc03_empty bc03_keys = Raise (Exception msg)
      ∧ is_lookup_error (Exception msg) = false
      ∧ Data.get (D := unit) id id bc03_damaged bc03_keys
        = Raise (Exception msg)
      ∧ exists msg',
          Data.SimpleDatabase_init (K := string) (D := unit) "bc03" false
            "data/bc03" (Some {[ "parameters.pickle" := Data.Unreadable ]})
          = Raise (Exception msg').
Proof.
  split; [reflexivity |]. eexists. split; [reflexivity |].
  split; [reflexivity |]. split; [reflexivity |].
  eexists. reflexivity.
Qed.

Lemma lookup_of_absent_keys_witness :
  (exists msg,
     Data.get_filter (K := string) (D := unit) (Data.MkDatabase [] []) "FUV"
     = Raise (DatabaseLookupError msg) ∧ occurs_in "FUV" msg)
  ∧ (exists msg,
       Data.get (D := unit) id id bc03_empty bc03_keys = Raise (Exception msg)
       ∧ Data.get (D := unit) id id bc03_damaged bc03_keys
         = Raise (Exception msg)
       ∧ occurs_in "metallicity" msg ∧ occurs_in "0.02" msg).
Proof.
  destruct (lookup_of_absent_keys (K := string) (D := unit) id id)
    as (_ & Hfilter & Hsimple).
  split.
  - apply Hfilter. by intros r Hr%elem_of_nil.
  - destruct (Hsimple bc03_empty bc03_damaged bc03_keys eq_refl eq_refl)
      as (msg & H1 & H2 & Hmsg).
    exists msg. split; [done |]. split; [done |].
    apply (Hmsg "metallicity" "0.02"). by left.
Defined.

(** ** The warehouse cache *)

Section WarehouseCache.

Import Warehouse.

Context {P SED : Type} `{Countable P}.
Context (process : string -> P -> SED -> SED) (fresh_sed : SED).

#[local] Abbreviation walk := (walk process).
#[local] Abbreviation get_or_build := (get_or_build process fresh_sed).
#[local] Abbreviation build := (build process fresh_sed).

(** The walk only adds entries. *)
Lemma walk_cache_mono (rest prefix : list (string * P)) (prev sed : SED)
    (w w' : warehouse P SED) (k : list (string * P)) (v : SED) :
  walk prefix prev rest w = (sed, w') ->
  cache w !! k = Some v -> cache w' !! k = Some v.
Proof.
  revert prefix prev w.
  induction rest as [|s rest IH]; intros prefix prev w Hwalk Hk.
  - by injection Hwalk as _ <-.
  - simpl in Hwalk.
    destruct (cache w !! (prefix ++ [s])) as [snapshot|] eqn:Hkey.
    + by eapply IH.
    + eapply IH; [exact Hwalk |]. simpl.
      rewrite lookup_insert_ne; [done |]. intros <-. congruence.
Qed.

(** A walk done again on the warehouse it produced finds every key. *)
Lemma walk_again (rest prefix : list (string * P)) (prev sed : SED)
    (w w' : warehouse P SED) :
  walk prefix prev rest w = (sed, w') ->
  walk prefix prev rest w' = (sed, w').
Proof.
  revert prefix prev w.
  induction rest as [|s rest IH]; intros prefix prev w Hwalk.
  - simpl in *. by injection Hwalk as -> _.
  - simpl in *.
    destruct (cache w !! (prefix ++ [s])) as [snapshot|] eqn:Hkey.
    + rewrite (walk_cache_mono _ _ _ _ _ _ _ _ Hwalk Hkey). by eapply IH.
    + erewrite (walk_cache_mono _ _ _ _ _ _ (prefix ++ [s]) _ Hwalk);
        [by eapply IH |].
      simpl. by rewrite lookup_insert_eq.
Qed.

(** Every key for which [process] has run is in the cache, and none is
    listed twice. *)
Definition once_per_key (w : warehouse P SED) : Prop :=
  NoDup (invocations w)
  ∧ forall k, k ∈ invocations w -> is_Some (cache w !! k).

Lemma walk_once_per_key (rest prefix : list (string * P)) (prev : SED)
    (w : warehouse P SED) :
  once_per_key w -> once_per_key (walk prefix prev rest w).2.
Proof.
  revert prefix prev w.
  induction rest as [|s rest IH]; intros prefix prev w [Hnd Hin]; [done |].
  simpl. destruct (cache w !! (prefix ++ [s])) as [snapshot|] eqn:Hkey.
  - by apply IH.
  - apply IH. split; simpl.
    + apply NoDup_app. split; [done |]. split; [| apply NoDup_singleton].
      intros k Hk ->%list_elem_of_singleton.
      destruct (Hin _ Hk) as [v Hv]. congruence.
    + intros k [Hk | ->%list_elem_of_singleton]%elem_of_app.
      * destruct (decide (prefix ++ [s] = k)) as [<-|Hne].
        -- rewrite lookup_insert_eq. by eexists.
        -- rewrite lookup_insert_ne by done. by apply Hin.
      * rewrite lookup_insert_eq. by eexists.
Qed.

Lemma requests_once_per_key (requests : list (list (string * P)))
    (w : warehouse P SED) :
  once_per_key w ->
  once_per_key (foldl (fun w p => (get_or_build p w).2) w requests).
Proof.
  revert w. induction requests as [|p requests IH]; intros w Hw; [done |].
  simpl. apply IH. by apply walk_once_per_key.
Qed.

(** C2.  A second [get_or_build] of the same pipeline, with no
    invalidation in between, returns the same SED and leaves the warehouse
    as it is, the list of [process] invocations included; and over any
    sequence of requests made to a new warehouse, [process] is run at most
    once for each key. *)
Theorem get_or_build_idempotent :
  (forall (pipeline : list (string * P)) (w : warehouse P SED),
     get_or_build pipeline (get_or_build pipeline w).2
     = get_or_build pipeline w)
  ∧ (forall requests : list (list (string * P)),
       NoDup (invocations
                (foldl (fun w p => (get_or_build p w).2)
                   empty_warehouse requests))).
Proof.
  split.
  - intros pipeline w. unfold Warehouse.get_or_build.
    destruct (walk [] fresh_sed pipeline w) as [sed w'] eqn:Hwalk.
    by apply walk_again in Hwalk.
  - intros requests.
    apply (requests_once_per_key requests empty_warehouse).
    split; simpl; [apply NoDup_nil_2 |]. by intros k Hk%elem_of_nil.
Qed.

(** *** The cache does not change what is computed *)

(** Every snapshot is the SED of its prefix. *)
Definition cache_valid (w : warehouse P SED) : Prop :=
  forall k sed, cache w !! k = Some sed -> sed = build k.

Lemma build_snoc (prefix : list (string * P)) (s : string * P) :
  build (prefix ++ [s]) = process s.1 s.2 (build prefix).
Proof. unfold Warehouse.build. by rewrite foldl_app. Qed.

Lemma walk_valid (rest prefix : list (string * P)) (w : warehouse P SED) :
  cache_valid w ->
  (walk prefix (build prefix) rest w).1 = build (prefix ++ rest)
  ∧ cache_valid (walk prefix (build prefix) rest w).2.
Proof.
  revert prefix w.
  induction rest as [|s rest IH]; intros prefix w Hw.
  - simpl. by rewrite app_nil_r.
  - simpl. rewrite (cons_middle s prefix rest), (assoc (++)).
    destruct (cache w !! (prefix ++ [s])) as [snapshot|] eqn:Hkey.
    + rewrite (Hw _ _ Hkey). by apply IH.
    + rewrite <- build_snoc. apply IH.
      intros k sed. simpl.
      destruct (decide (prefix ++ [s] = k)) as [<-|Hne].
      * rewrite lookup_insert_eq. by intros [= <-].
      * rewrite lookup_insert_ne by done. apply Hw.
Qed.

Lemma get_sed_valid (w : warehouse P SED) (modules : list string)
    (parameters : list P) :
  cache_valid w ->
  (get_sed process fresh_sed w modules parameters).1
  = build (zip modules parameters)
  ∧ cache_valid (get_sed process fresh_sed w modules parameters).2.
Proof. intros Hw. by apply (walk_valid _ [] w). Qed.

Lemma partial_clear_cache_valid (w : warehouse P SED) (n : nat) :
  cache_valid w -> cache_valid (partial_clear_cache n w).
Proof.
  intros Hw k sed. simpl. intros [Hk _]%map_lookup_filter_Some. by apply Hw.
Qed.

Lemma empty_warehouse_valid : cache_valid (empty_warehouse (SED := SED)).
Proof. intros k sed. simpl. by rewrite lookup_empty. Qed.

End WarehouseCache.

(** ** The worker of the flux-saving module *)

Section WorkerRun.

Import SaveFluxes.

Context {W SED T E Fx : Type} `{SedWarehouse W SED}.
Context (compute_fnu : SED -> T -> E -> Fx).

#[local] Abbreviation fnu sed :=
  (fun f : filter_ (T := T) (E := E) =>
     compute_fnu sed (trans_table f) (effective_wavelength f)).

Lemma fluxes_of_run (sed : SED) (filters : list filter_)
    (st : W * list (event (Fx := Fx))) :
  fluxes_of compute_fnu sed filters st
  = (Ok (fnu sed <$> filters), (st.1, st.2 ++ (EvComputeFnu <$> filters))).
Proof.
  revert st. induction filters as [|f filters IH]; intros [w log].
  - simpl. by rewrite app_nil_r.
  - simpl. unfold mbind, stm_mbind.
    rewrite (stm_bind_ok _ _ _ (w, log ++ [EvComputeFnu f]) (fnu sed f))
      by done.
    rewrite (stm_bind_ok _ _ _ _ _ (IH _)). simpl.
    by rewrite <- (assoc (++)).
Qed.

(** The whole of a call of [_worker_sed], from the state [st] of the
    worker. *)
Lemma worker_sed_run (filters : list filter_) (modules : list string)
    (parameters : list dict) (changed : nat)
    (st : W * list (event (Fx := Fx))) :
  let got := get_sed st.1 modules parameters in
  let w := partial_clear_cache got.2 changed in
  let log := st.2 ++ [EvGetSed modules parameters;
                      EvPartialClearCache changed] in
  _worker_sed compute_fnu filters modules parameters changed st
  = match for_parameters parameters [] with
    | Ok row =>
        let row := row ++ (Flux <$> (fnu got.1 <$> filters)) in
        (Ok row, (w, log ++ (EvComputeFnu <$> filters) ++ [EvReturn row]))
    | Raise e => (Raise e, (w, log))
    end.
Proof.
  destruct st as [w0 log0]. simpl.
  unfold _worker_sed, mbind, stm_mbind.
  destruct (get_sed w0 modules parameters) as [sed w1] eqn:Hget.
  rewrite (stm_bind_ok _ _ _ (w1, log0 ++ [EvGetSed modules parameters]) sed)
    by (unfold wk_get_sed; simpl; by rewrite Hget).
  rewrite (stm_bind_ok _ _ _
             (partial_clear_cache w1 changed,
              (log0 ++ [EvGetSed modules parameters])
              ++ [EvPartialClearCache changed]) tt) by done.
  rewrite <- (assoc (++)). simpl.
  destruct (for_parameters parameters []) as [row|e] eqn:Hrow.
  - rewrite (stm_bind_ok (stm_lift (Ok row)) _ _ _ row eq_refl).
    rewrite (stm_bind_ok _ _ _ _ _ (fluxes_of_run _ _ _)).
    unfold wk_return. simpl. by rewrite <- (assoc (++)).
  - by rewrite (stm_bind_raise (stm_lift (Raise e)) _ _ _ e eq_refl).
Qed.

End WorkerRun.

(** ** The order of the calls of a worker *)

Section WorkerOrder.

Import SaveFluxes.

Context {W SED T E Fx : Type} `{SedWarehouse W SED}.
Context (compute_fnu : SED -> T -> E -> Fx).

(** The events that are calls to the warehouse. *)
Definition warehouse_call (ev : event (T := T) (E := E) (Fx := Fx)) : bool :=
  match ev with
  | EvGetSed _ _ | EvPartialClearCache _ => true
  | EvComputeFnu _ | EvReturn _ => false
  end.

(** The record of a worker over the tasks it takes, one block for each
    task: the SED is asked for, the cache is pruned, and what follows up
    to the next task holds no call to the warehouse. *)
Inductive task_blocks (modules : list string)
    : list (list dict * nat) -> list event -> Prop :=
| task_blocks_nil : task_blocks modules [] []
| task_blocks_cons parameters changed tasks tail rest :
    Forall (fun ev => warehouse_call ev = false) tail ->
    task_blocks modules tasks rest ->
    task_blocks modules ((parameters, changed) :: tasks)
      (EvGetSed modules parameters :: EvPartialClearCache changed
       :: tail ++ rest).

(** The tasks, numbered from [i], that the worker [k] takes. *)
Fixpoint tasks_of (assign : nat -> nat) (k i : nat)
    (tasks : list (list dict * nat)) : list (list dict * nat) :=
  match tasks with
  | [] => []
  | t :: tasks =>
      if bool_decide (assign i = k) then t :: tasks_of assign k (S i) tasks
      else tasks_of assign k (S i) tasks
  end.

Lemma worker_sed_events (filters : list filter_) (modules : list string)
    (parameters : list dict) (changed : nat)
    (st : W * list (event (Fx := Fx))) :
  exists tail,
    (_worker_sed compute_fnu filters modules parameters changed st).2.2
    = st.2 ++ EvGetSed modules parameters :: EvPartialClearCache changed
              :: tail
    ∧ Forall (fun ev => warehouse_call ev = false) tail
    ∧ forall row,
        (_worker_sed compute_fnu filters modules parameters changed st).1
        = Ok row ->
        tail = (EvComputeFnu <$> filters) ++ [EvReturn row].
Proof.
  rewrite worker_sed_run. simpl.
  destruct (for_parameters parameters []) as [row|e]; simpl.
  - eexists. rewrite <- (assoc (++)). simpl. split; [reflexivity |]. split.
    + apply Forall_app. split; [| by repeat constructor].
      apply Forall_fmap. by apply Forall_true.
    + by intros row' [= <-].
  - exists []. split; [done |]. split; [constructor | done].
Qed.

Lemma starmap_from_events (assign : nat -> nat) (filters : list filter_)
    (modules : list string) (tasks : list (list dict * nat)) (i k : nat)
    (workers : nat -> W * list (event (Fx := Fx))) :
  exists evs,
    ((starmap_from compute_fnu assign filters modules i tasks workers).2 k).2
    = (workers k).2 ++ evs
    ∧ task_blocks modules (tasks_of assign k i tasks) evs.
Proof.
  revert i workers.
  induction tasks as [|[parameters changed] tasks IH]; intros i workers.
  - exists []. simpl. rewrite app_nil_r. split; [done | constructor].
  - simpl.
    destruct (_worker_sed compute_fnu filters modules parameters changed
                (workers (assign i))) as [outcome st] eqn:Hrun.
    destruct (IH (S i) (<[assign i := st]> workers)) as (evs & Hevs & Hblocks).
    destruct (starmap_from _ _ _ _ _ _ _) as [outcomes workers'].
    simpl in *. rewrite Hevs. case_bool_decide as Hk.
    + subst k. rewrite fn_lookup_insert.
      destruct (worker_sed_events filters modules parameters changed
                  (workers (assign i))) as (tail & Hlog & Htail & _).
      rewrite Hrun in Hlog. simpl in Hlog. rewrite Hlog.
      eexists. rewrite <- (assoc (++)). split; [reflexivity |].
      simpl. by constructor.
    + rewrite fn_lookup_insert_ne by done. by exists evs.
Qed.

(** C3, amended.  A call of [_worker_sed] asks the warehouse for the SED
    and prunes the cache at once, with the changed-at index of its grid
    point: both calls come before any flux is computed and before the row
    is returned, and nothing else of the call touches the warehouse.  The
    record of each worker of the pool is made of such blocks, one for
    each of its tasks in their order, so the cache is pruned for a grid
    point before the worker turns to its next one. *)
Theorem partial_clear_cache_follows_get_sed :
  (forall (filters : list filter_) (modules : list string)
          (parameters : list dict) (changed : nat)
          (st : W * list (event (Fx := Fx))),
     exists tail,
       (_worker_sed compute_fnu filters modules parameters changed st).2.2
       = st.2 ++ EvGetSed modules parameters
                 :: EvPartialClearCache changed :: tail
       ∧ Forall (fun ev => warehouse_call ev = false) tail
       ∧ forall row,
           (_worker_sed compute_fnu filters modules parameters changed st).1
           = Ok row ->
           tail = (EvComputeFnu <$> filters) ++ [EvReturn row])
  ∧ (forall (assign : nat -> nat) (filters : list filter_)
            (modules : list string) (tasks : list (list dict * nat))
            (i k : nat) (workers : nat -> W * list (event (Fx := Fx))),
       exists evs,
         ((starmap_from compute_fnu assign filters modules i tasks
             workers).2 k).2
         = (workers k).2 ++ evs
         ∧ task_blocks modules (tasks_of assign k i tasks) evs).
Proof.
  split; [exact worker_sed_events | exact starmap_from_events].
Qed.

End WorkerOrder.

(** C3 as stated: every pruning of the cache in the record of a call comes
    after the row of that call. *)
Definition pruned_after_row {T E Fx : Type}
    (log : list (SaveFluxes.event (T := T) (E := E) (Fx := Fx))) : Prop :=
  forall i changed,
    log !! i = Some (SaveFluxes.EvPartialClearCache changed) ->
    exists j row, (j < i)%nat ∧ log !! j = Some (SaveFluxes.EvReturn row).

Definition fuv : SaveFluxes.filter_ := SaveFluxes.MkFilter "FUV" 150%nat.

(** The record of one call on a new warehouse: the cache is pruned second,
    before the flux is computed and the row returned. *)
Example worker_sed_record :
  let run :=
    SaveFluxes._worker_sed (H := history_warehouse) count_fnu
      [fuv] ["sfh"] [[("tau", VInt 1)]] 0 (Warehouse.empty_warehouse, []) in
  run.1 = Ok [SaveFluxes.Param (VInt 1); SaveFluxes.Flux 151%nat]
  ∧ run.2.2
    = [SaveFluxes.EvGetSed ["sfh"] [[("tau", VInt 1)]];
       SaveFluxes.EvPartialClearCache 0;
       SaveFluxes.EvComputeFnu fuv;
       SaveFluxes.EvReturn
         [SaveFluxes.Param (VInt 1); SaveFluxes.Flux 151%nat]].
Proof. split; vm_compute; reflexivity. Qed.

Lemma cache_pruned_before_row :
  ~ pruned_after_row
      (SaveFluxes._worker_sed (H := history_warehouse) count_fnu
         [fuv] ["sfh"] [[("tau", VInt 1)]] 0
         (Warehouse.empty_warehouse, [])).2.2.
Proof.
  destruct worker_sed_record as [_ ->]. intros Hclaim.
  destruct (Hclaim 1%nat 0%nat eq_refl) as (j & row & Hj & Hrow).
  destruct j as [|[|j]]; [discriminate Hrow | lia | lia].
Qed.

Lemma partial_clear_cache_follows_get_sed_witness :
  exists tail,
    (SaveFluxes._worker_sed (H := history_warehouse) count_fnu
       [fuv] ["sfh"] [[("tau", VInt 1)]] 0
       (Warehouse.empty_warehouse, [])).2.2
    = SaveFluxes.EvGetSed ["sfh"] [[("tau", VInt 1)]]
      :: SaveFluxes.EvPartialClearCache 0 :: tail
    ∧ tail = [SaveFluxes.EvComputeFnu fuv;
              SaveFluxes.EvReturn
                [SaveFluxes.Param (VInt 1); SaveFluxes.Flux 151%nat]].
Proof.
  destruct (partial_clear_cache_follows_get_sed (H := history_warehouse)
              count_fnu) as [Hcall _].
  destruct (Hcall [fuv] ["sfh"] [[("tau", VInt 1)]] 0%nat
              (Warehouse.empty_warehouse, [])) as (tail & Hlog & _ & Hrow).
  exists tail. split; [exact Hlog |].
  apply Hrow. by destruct worker_sed_record as [-> _].
Defined.

Example find_changed_parameters_grid :
  find_changed_parameters grid_2x2 = [0; 1; 0; 1]%nat.
Proof. reflexivity. Qed.

(** ** The pool and the number of its workers *)

Section PoolDeterminism.

Import SaveFluxes.

Context {SED T E Fx : Type}.
Context (process : string -> dict -> SED -> SED) (fresh_sed : SED).
Context (compute_fnu : SED -> T -> E -> Fx).

#[local] Abbreviation wh := (cached_warehouse process fresh_sed).
#[local] Abbreviation valid := (cache_valid process fresh_sed).

(** The row of a grid point, computed without cache and without pool. *)
Definition reference_row (filters : list (filter_ (T := T) (E := E)))
    (modules : list string) (parameters : list dict)
    : result (list (cell (Fx := Fx))) :=
  let sed := Warehouse.build process fresh_sed (zip modules parameters) in
  row ← for_parameters parameters [];
  Ok (row ++ (Flux <$> ((fun f => compute_fnu sed (trans_table f)
                                    (effective_wavelength f)) <$> filters))).

Lemma worker_sed_reference (filters : list filter_) (modules : list string)
    (parameters : list dict) (changed : nat)
    (st : Warehouse.warehouse dict SED * list (event (Fx := Fx))) :
  valid st.1 ->
  (_worker_sed (H := wh) compute_fnu filters modules parameters changed st).1
  = reference_row filters modules parameters
  ∧ valid (_worker_sed (H := wh) compute_fnu filters modules parameters
             changed st).2.1.
Proof.
  intros Hvalid. rewrite worker_sed_run. simpl.
  destruct (get_sed_valid process fresh_sed st.1 modules parameters Hvalid)
    as [Hsed Hvalid'].
  unfold reference_row.
  destruct (for_parameters parameters []) as [row|e]; simpl.
  - rewrite Hsed. split; [done |]. by apply partial_clear_cache_valid.
  - split; [done |]. by apply partial_clear_cache_valid.
Qed.

Lemma starmap_from_reference (assign : nat -> nat) (filters : list filter_)
    (modules : list string) (tasks : list (list dict * nat)) (i : nat)
    (workers : nat -> Warehouse.warehouse dict SED
                      * list (event (Fx := Fx))) :
  (forall k, valid (workers k).1) ->
  (starmap_from (H := wh) compute_fnu assign filters modules i tasks
     workers).1
  = (fun t => reference_row filters modules t.1) <$> tasks.
Proof.
  revert i workers.
  induction tasks as [|[parameters changed] tasks IH]; intros i workers Hw;
    [done |].
  simpl.
  destruct (worker_sed_reference filters modules parameters changed
              (workers (assign i)) (Hw _)) as [Hrow Hvalid].
  destruct (_worker_sed compute_fnu filters modules parameters changed
              (workers (assign i))) as [outcome st].
  specialize (IH (S i) (<[assign i := st]> workers)).
  destruct (starmap_from _ _ _ _ _ _ _) as [outcomes workers'].
  simpl in *. rewrite Hrow, IH; [done |].
  intros k. destruct (decide (assign i = k)) as [<-|Hne].
  - by rewrite fn_lookup_insert.
  - by rewrite fn_lookup_insert_ne.
Qed.


End PoolDeterminism.


(** The rows of the grid with three workers, task [i] going to worker
    [i mod 3]. *)
Example out_rows_three_workers :
  SaveFluxes.out_rows_of (H := cached_warehouse record_stage [])
    find_changed_parameters (fun i => i) count_fnu 3
    Warehouse.empty_warehouse [fuv] ["sfh"; "dustatt"] grid_2x2
  = Ok [ [SaveFluxes.Param (VInt 1); SaveFluxes.Param (VInt 10);
          SaveFluxes.Flux 152%nat];
         [SaveFluxes.Param (VInt 1); SaveFluxes.Param (VInt 20);
          SaveFluxes.Flux 152%nat];
         [SaveFluxes.Param (VInt 2); SaveFluxes.Param (VInt 10);
          SaveFluxes.Flux 152%nat];
         [SaveFluxes.Param (VInt 2); SaveFluxes.Param (VInt 20);
          SaveFluxes.Flux 152%nat] ].
Proof.
  unfold SaveFluxes.out_rows_of, SaveFluxes.starmap. simpl bool_decide.
  cbv iota.
  rewrite (starmap_from_reference record_stage [] count_fnu)
    by (intros k; apply empty_warehouse_valid).
  reflexivity.
Qed.

(** ** Rows and columns of the output table *)

Section RowsAndColumns.

Import SaveFluxes.

Context {W SED T E Fx : Type} `{SedWarehouse W SED}.
Context (compute_fnu : SED -> T -> E -> Fx).

Definition is_str (a : atom) : bool :=
  match a with
  | AStr _ => true
  | _ => false
  end.

Definition str_of (a : atom) : string :=
  match a with
  | AStr s => s
  | _ => ""
  end.

(** A value that is not a list, or a list of strings. *)
Definition joinable (v : pyval) : bool :=
  match v with
  | VList l => forallb is_str l
  | VAtom _ => true
  end.

(** A parameter value as the row shows it: a list of strings is joined
    with dots into one string. *)
Definition row_value (v : pyval) : pyval :=
  match v with
  | VList l => VStr (join "." (str_of <$> l))
  | VAtom _ => v
  end.

(** The parameter values of a grid point, module after module, each
    module's parameters in the order of its dictionary. *)
Definition parameter_values (parameters : list dict) : list pyval :=
  concat (values <$> parameters).

(** The dotted names [module.parameter], module after module. *)
Definition dotted_names (modules : list string) (parameters : list dict)
    : list string :=
  concat ((fun mp => (fun key => mp.1 +:+ "." +:+ key) <$> keys mp.2)
            <$> zip modules parameters).

Lemma str_items_strings (l : list atom) (i : nat) :
  forallb is_str l = true -> str_items i l = Ok (str_of <$> l).
Proof.
  revert i. induction l as [|[] l IH]; intros i Hl; try done.
  simpl in *. by rewrite IH.
Qed.

Lemma str_items_other (l : list atom) (i : nat) :
  forallb is_str l = false -> exists msg, str_items i l = Raise (TypeError msg).
Proof.
  revert i. induction l as [|a l IH]; intros i Hl; [done |].
  destruct a; simpl in *; try by eexists.
  destruct (IH (S i) Hl) as [msg ->]. by eexists.
Qed.

Lemma joined_joinable (v : pyval) :
  joinable v = true -> joined v = Ok (row_value v).
Proof.
  destruct v as [a|l]; [done |]. simpl. intros Hl.
  by rewrite str_items_strings.
Qed.

Lemma joined_other (v : pyval) :
  joinable v = false -> exists msg, joined v = Raise (TypeError msg).
Proof.
  destruct v as [a|l]; [done |]. simpl. intros Hl.
  destruct (str_items_other l 0 Hl) as [msg ->]. by eexists.
Qed.

Lemma for_values_joinable (vs : list pyval) (row : list (cell (Fx := Fx))) :
  forallb joinable vs = true ->
  for_values vs row = Ok (row ++ (Param <$> (row_value <$> vs))).
Proof.
  revert row. induction vs as [|v vs IH]; intros row Hvs.
  - simpl. by rewrite app_nil_r.
  - simpl in *. apply andb_true_iff in Hvs as [Hv Hvs].
    rewrite joined_joinable by done. simpl.
    rewrite IH by done. by rewrite <- (assoc (++)).
Qed.

Lemma for_values_other (vs : list pyval) (row : list (cell (Fx := Fx))) :
  forallb joinable vs = false ->
  exists msg, for_values vs row = Raise (TypeError msg).
Proof.
  revert row. induction vs as [|v vs IH]; intros row Hvs; [done |].
  simpl in *. destruct (joinable v) eqn:Hv.
  - rewrite joined_joinable by done. simpl. by apply IH.
  - destruct (joined_other v Hv) as [msg ->]. by eexists.
Qed.

Lemma for_parameters_joinable (parameters : list dict)
    (row : list (cell (Fx := Fx))) :
  forallb joinable (parameter_values parameters) = true ->
  for_parameters parameters row
  = Ok (row ++ (Param <$> (row_value <$> parameter_values parameters))).
Proof.
  unfold parameter_values. revert row.
  induction parameters as [|d parameters IH]; intros row Hps.
  - simpl. by rewrite app_nil_r.
  - simpl in *. rewrite forallb_app in Hps.
    apply andb_true_iff in Hps as [Hd Hps].
    rewrite for_values_joinable by done. simpl.
    rewrite IH by done. by rewrite !fmap_app, (assoc (++)).
Qed.

Lemma for_parameters_other (parameters : list dict)
    (row : list (cell (Fx := Fx))) :
  forallb joinable (parameter_values parameters) = false ->
  exists msg, for_parameters parameters row = Raise (TypeError msg).
Proof.
  unfold parameter_values. revert row.
  induction parameters as [|d parameters IH]; intros row Hps; [done |].
  simpl in *. rewrite forallb_app in Hps.
  destruct (forallb joinable (values d)) eqn:Hd.
  - rewrite for_values_joinable by done. simpl. by apply IH.
  - destruct (for_values_other (values d) row Hd) as [msg ->]. by eexists.
Qed.

Lemma for_keys_names (module : string) (ks out_columns : list string) :
  for_keys module ks out_columns
  = out_columns ++ ((fun key => module +:+ "." +:+ key) <$> ks).
Proof.
  revert out_columns. induction ks as [|key ks IH]; intros out_columns.
  - simpl. by rewrite app_nil_r.
  - simpl. rewrite IH. by rewrite <- (assoc (++)).
Qed.

Lemma for_modules_names (pairs : list (string * dict))
    (out_columns : list string) :
  for_modules pairs out_columns
  = out_columns
    ++ concat ((fun mp => (fun key => mp.1 +:+ "." +:+ key) <$> keys mp.2)
                 <$> pairs).
Proof.
  revert out_columns.
  induction pairs as [|[module params] pairs IH]; intros out_columns.
  - simpl. by rewrite app_nil_r.
  - simpl. rewrite IH, for_keys_names. by rewrite <- (assoc (++)).
Qed.

(** C5.  When every list among the parameter values of a grid point is a
    list of strings, the worker returns the parameter values, module
    after module and in the order of each dictionary, the lists joined
    into one string, followed by the flux of the SED in each filter; the
    worker returns a row in no other case.  The column names are the
    dotted names of the parameters of the first grid point followed by
    the names of the filters, which are the used columns that do not end
    in [_err]. *)
Theorem worker_row_and_columns :
  (forall (filters : list filter_) (modules : list string)
          (parameters : list dict) (changed : nat)
          (st : W * list (event (Fx := Fx))),
     let sed := (get_sed st.1 modules parameters).1 in
     let outcome :=
       (_worker_sed compute_fnu filters modules parameters changed st).1 in
     (forallb joinable (parameter_values parameters) = true ->
      outcome
      = Ok ((Param <$> (row_value <$> parameter_values parameters))
            ++ (Flux <$> ((fun f => compute_fnu sed (trans_table f)
                                      (effective_wavelength f))
                          <$> filters))))
     ∧ (forall row, outcome = Ok row ->
          forallb joinable (parameter_values parameters) = true))
  ∧ (forall (creation_modules column_list : list string)
            (first : list dict) (rest : list (list dict)),
       out_columns_of creation_modules (first :: rest)
         (filter_names_of column_list)
       = Ok (dotted_names creation_modules first
             ++ filter_names_of column_list)
       ∧ forall name,
           name ∈ filter_names_of column_list
           <-> name ∈ column_list ∧ endswith name "_err" = false).
Proof.
  split.
  - intros filters modules parameters changed st sed outcome.
    subst outcome. rewrite worker_sed_run. simpl. split.
    + intros Hps. by rewrite for_parameters_joinable.
    + intros row Hrow.
      destruct (forallb joinable (parameter_values parameters)) eqn:Hps;
        [done |].
      destruct (for_parameters_other parameters [] Hps) as [msg Hmsg].
      by rewrite Hmsg in Hrow.
  - intros creation_modules column_list first rest. split.
    + unfold out_columns_of. simpl. by rewrite for_modules_names.
    + intros name. unfold filter_names_of.
      rewrite list_elem_of_In, filter_In, <- list_elem_of_In.
      by rewrite negb_true_iff.
Qed.

End RowsAndColumns.

(** A grid point with a list of strings among its values. *)
Lemma worker_row_and_columns_witness :
  let parameters :=
    [[("filters", VList [AStr "FUV"; AStr "NUV"]); ("tau", VInt 1)];
     [("E_BV", VInt 10)]] in
  forallb joinable (parameter_values parameters) = true
  ∧ (SaveFluxes._worker_sed (H := history_warehouse) count_fnu [fuv]
       ["sfh"; "dustatt"] parameters 0 (Warehouse.empty_warehouse, [])).1
    = Ok [SaveFluxes.Param (VStr "FUV.NUV"); SaveFluxes.Param (VInt 1);
          SaveFluxes.Param (VInt 10); SaveFluxes.Flux 152%nat]
  ∧ SaveFluxes.out_columns_of ["sfh"; "dustatt"] [parameters]
      (SaveFluxes.filter_names_of ["FUV"; "FUV_err"])
    = Ok ["sfh.filters"; "sfh.tau"; "dustatt.E_BV"; "FUV"].
Proof.
  intros parameters.
  destruct (worker_row_and_columns (H := history_warehouse) count_fnu)
    as [Hrow Hcolumns].
  split; [reflexivity |]. split.
  - destruct (Hrow [fuv] ["sfh"; "dustatt"] parameters 0%nat
                (Warehouse.empty_warehouse, [])) as [-> _]; [reflexivity |].
    vm_compute. reflexivity.
  - destruct (Hcolumns ["sfh"; "dustatt"] ["FUV"; "FUV_err"] parameters [])
      as [-> _].
    reflexivity.
Defined.

Example worker_row_list_of_numbers :
  exists msg,
    (SaveFluxes._worker_sed (H := history_warehouse) count_fnu [fuv]
       ["sfh"] [[("ages", VList [AInt 1; AInt 2])]] 0
       (Warehouse.empty_warehouse, [])).1
    = Raise (TypeError msg).
Proof. eexists. vm_compute. reflexivity. Qed.

(** ** The files of a run *)

Section ProcessFiles.

Import SaveFluxes.

Context {W SED T E Fx C : Type} `{SedWarehouse W SED}.
Context (now : string).
Context (get_filter : string -> result (filter_ (T := T) (E := E))).
Context (find_changed_parameters : list (list dict) -> list nat).
Context (table_write : string -> table (Fx := Fx) -> result C).
Context (rename_refused : gmap string (Os.node C) -> string -> string
                          -> option exn).
Context (write_refused : gmap string (Os.node C) -> string -> option exn).
Context (schedule : nat -> nat).
Context (compute_fnu : SED -> T -> E -> Fx).

#[local] Abbreviation process_ :=
  (process now get_filter find_changed_parameters table_write
     rename_refused write_refused schedule compute_fnu).

Lemma backup_name_differs (out_file : string) :
  now +:+ "_" +:+ out_file ≠ out_file.
Proof.
  intros Heq. apply (f_equal String.length) in Heq.
  rewrite !string_app_length in Heq. simpl in Heq. lia.
Qed.

Lemma stm_bind_lift {S A B : Type} (r : result A) (k : A -> stm S B)
    (st : S) :
  stm_bind (stm_lift r) k st
  = match r with
    | Ok a => k a st
    | Raise e => (Raise e, st)
    end.
Proof. by destruct r. Qed.

(** The renaming step: nothing happens unless the output name is that of
    a file; then the system refuses, or the file moves to the new name. *)
Lemma rename_existing_run (out_file : string)
    (st : gmap string (Os.node C) * list string) :
  rename_existing now rename_refused out_file st
  = match st.1 !! out_file with
    | Some (Os.File c) =>
        match rename_refused st.1 out_file (now +:+ "_" +:+ out_file) with
        | Some e => (Raise e, st)
        | None =>
            (Ok tt,
             (<[now +:+ "_" +:+ out_file := Os.File c]>
                (delete out_file st.1),
              st.2 ++ ["The existing " +:+ out_file +:+
                       " file was renamed to " +:+
                       (now +:+ "_" +:+ out_file)]))
        end
    | _ => (Ok tt, st)
    end.
Proof.
  destruct st as [fs out].
  unfold rename_existing, mbind, stm_mbind, stm_bind, os_isfile, os_rename,
    Os.isfile, Os.rename, print.
  simpl. destruct (fs !! out_file) as [[c|]|] eqn:Hfile; simpl; try done.
  destruct (rename_refused fs out_file _); simpl; [done |].
  by rewrite Hfile.
Qed.

(** The run as a whole, once the two names are read from the
    parameters. *)
Lemma process_run (data_file : string) (column_list : list string)
    (creation_modules : list string)
    (creation_modules_params : list (list dict))
    (parameters : gmap string string) (cores : nat)
    (out_file out_format : string)
    (st : gmap string (Os.node C) * list string) :
  parameters !! "output_file" = Some out_file ->
  parameters !! "output_format" = Some out_format ->
  process_ data_file column_list creation_modules creation_modules_params
    parameters cores st
  = match rename_existing now rename_refused out_file st with
    | (Raise e, st1) => (Raise e, st1)
    | (Ok _, st1) =>
        match
          out_table_of get_filter find_changed_parameters schedule
            compute_fnu column_list creation_modules
            creation_modules_params parameters cores
          ≫= table_write out_format
        with
        | Raise e => (Raise e, st1)
        | Ok content =>
            match write_refused st1.1 out_file with
            | Some e => (Raise e, st1)
            | None => (Ok tt, (<[out_file := Os.File content]> st1.1, st1.2))
            end
        end
    end.
Proof.
  intros Hfile Hformat.
  unfold process, mbind at 1 2 3 4 5, stm_mbind, getitem.
  rewrite Hfile, Hformat, !stm_bind_lift.
  unfold stm_bind at 1.
  destruct (rename_existing _ _ _ _) as [[[]|e] st1]; [| done].
  rewrite stm_bind_lift.
  destruct (out_table_of _ _ _ _ _ _ _ _ _) as [out_table|e]; [| done].
  simpl. rewrite stm_bind_lift.
  destruct (table_write out_format out_table) as [content|e]; [| done].
  unfold os_write, Os.write. destruct st1 as [fs1 out1]. simpl.
  by destruct (write_refused fs1 out_file).
Qed.


End ProcessFiles.


(** A run on a POSIX system, where a rename replaces its destination, in a
    directory that holds the table of a run and, under the name prefixed
    with the current minute, the table of the run before it.  A file holds
    the table written to it. *)
Definition table_of_run (n : Z) : SaveFluxes.table (Fx := nat) :=
  SaveFluxes.MkTable ["run"] [[SaveFluxes.Param (VInt n)]].

Definition two_runs : gmap string (Os.node (SaveFluxes.table (Fx := nat))) :=
  <["computed_fluxes.xml" := Os.File (table_of_run 2)]>
    (<["202311031200_computed_fluxes.xml" := Os.File (table_of_run 1)]> ∅).

Definition savefluxes_parameters : gmap string string :=
  <["output_file" := "computed_fluxes.xml"]>
    (<["output_format" := "votable"]> (<["storage_type" := "memory"]> ∅)).





(** ** Writing to the SQLAlchemy database *)

Section DatabaseWrites.

Import Data DataOps.

Context {K D : Type} `{EqDecision K}.
Context (str_of : K -> string).

(** The name of a filter object. *)
Definition filter_name (f : Filter (K := K) (D := D)) : string :=
  match f with
  | Filter_ n _ _ _ => n
  end.

(** The four keys of a model object. *)
Definition model_key (m : THEMIS (K := K) (D := D)) : K * K * K * K :=
  match m with
  | THEMIS_ q u1 u2 a _ _ => (q, u1, u2, a)
  end.

Lemma keys_accepted_spec {A : Type} `{EqDecision A} (old new : list A) :
  keys_accepted old new = true <-> NoDup new ∧ Forall (fun k => k ∉ old) new.
Proof. unfold keys_accepted. by rewrite bool_decide_eq_true. Qed.

(** In a table grown by rows with new, distinct keys, the first row that
    matches the key of an added row is that row. *)
Lemma list_find_added {A B : Type} (key : A -> B) (P : A -> Prop)
    `{forall y, Decision (P y)} (old new : list A) (x : A) :
  (forall y, P y <-> key y = key x) ->
  Forall (fun k => k ∉ key <$> old) (key <$> new) ->
  NoDup (key <$> new) -> x ∈ new ->
  exists i, list_find P (old ++ new) = Some (i, x).
Proof.
  intros HP Hold Hnew Hx.
  apply list_elem_of_lookup in Hx as [j Hj].
  exists (length old + j)%nat. apply list_find_Some.
  split; [by rewrite lookup_app_r, Nat.add_sub' by lia |].
  split; [by apply HP |].
  intros i y Hy Hi Py. apply HP in Py.
  destruct (decide (i < length old)%nat) as [Hlt|Hge].
  - rewrite lookup_app_l in Hy by done.
    rewrite Forall_forall in Hold. apply (Hold (key x)).
    + apply list_elem_of_fmap_2. by eapply list_elem_of_lookup_2.
    + rewrite <- Py. apply list_elem_of_fmap_2. by eapply list_elem_of_lookup_2.
  - rewrite lookup_app_r in Hy by lia.
    assert (i - length old = j)%nat; [| lia].
    eapply (NoDup_lookup (key <$> new)); [done | |].
    + rewrite list_lookup_fmap, Hy. simpl. by rewrite Py.
    + by rewrite list_lookup_fmap, Hj.
Qed.

(** A key that no added row holds is looked up as before. *)
Lemma list_find_not_added {A : Type} (P : A -> Prop)
    `{forall y, Decision (P y)} (old new : list A) :
  Forall (fun y => ~ P y) new ->
  snd <$> list_find P (old ++ new) = snd <$> list_find P old.
Proof.
  intros Hnew.
  destruct (list_find P old) as [[i x]|] eqn:Hfind.
  - by rewrite (list_find_app_l _ _ _ _ _ Hfind).
  - assert (list_find P (old ++ new) = None) as ->; [| done].
    apply list_find_app_None. split; [done |]. by apply list_find_None.
Qed.

Lemma row_of_filter_name (f : Filter (K := K) (D := D)) :
  name (row_of_filter f) = filter_name f.
Proof. by destruct f. Qed.

Lemma row_of_themis_key (m : THEMIS (K := K) (D := D)) :
  themis_key (row_of_themis m) = model_key m.
Proof. by destruct m. Qed.

(** X12.  Filters added to a writable database under names that are new and
    distinct are all accepted; each can then be fetched by its name and
    comes back as it was given, the filters held before are fetched as
    before, and [parse_filters] yields the old filters followed by the new
    ones in the order given. *)
Theorem add_filters_then_get_filter (h : handle (K := K) (D := D))
    (fs : list (Filter (K := K) (D := D))) :
  is_writable h = true ->
  NoDup (filter_name <$> fs) ->
  (forall f, f ∈ fs -> filter_name f ∉ get_filter_names h) ->
  (add_filters h fs).1 = Ok tt
  ∧ (forall f, f ∈ fs ->
       get_filter (rows (add_filters h fs).2) (filter_name f) = Ok f)
  ∧ (forall n, n ∉ filter_name <$> fs ->
       get_filter (rows (add_filters h fs).2) n = get_filter (rows h) n)
  ∧ parse_filters (add_filters h fs).2 = parse_filters h ++ fs.
Proof.
  intros Hw Hnd Hnew.
  assert (Hnames : name <$> (row_of_filter <$> fs) = filter_name <$> fs).
  { rewrite <- list_fmap_compose. apply list_fmap_ext.
    intros i f _. apply row_of_filter_name. }
  assert (Hfresh : Forall (fun k => k ∉ name <$> filters (rows h))
                     (name <$> (row_of_filter <$> fs))).
  { rewrite Hnames. apply Forall_fmap, Forall_forall. intros f Hf.
    by apply Hnew. }
  unfold add_filters. rewrite Hw.
  rewrite (proj2 (keys_accepted_spec _ _))
    by (split; [by rewrite Hnames | done]).
  simpl. split; [done |]. split; [| split].
  - intros f Hf. unfold get_filter, query_filter. simpl.
    destruct (list_find_added name (fun r => name r = filter_name f)
                (filters (rows h)) (row_of_filter <$> fs) (row_of_filter f))
      as [i ->]; try done.
    + intros y. by rewrite row_of_filter_name.
    + by rewrite Hnames.
    + by apply list_elem_of_fmap_2.
    + simpl. by destruct f.
  - intros n Hn. unfold get_filter, query_filter. simpl.
    rewrite list_find_not_added; [done |].
    apply Forall_fmap, Forall_forall. intros f Hf. simpl.
    rewrite row_of_filter_name. intros <-. apply Hn.
    by apply list_elem_of_fmap_2.
  - unfold parse_filters. simpl. rewrite fmap_app. f_equal.
    rewrite <- list_fmap_compose. rewrite <- (list_fmap_id fs) at 2.
    apply list_fmap_ext. intros i f _. by destruct f.
Qed.

(** X13.  A batch that holds a name twice, or the name of a filter already in
    the database, is rejected as a whole: [DatabaseInsertError] is raised
    and no filter of the batch is added.  A database that is not writable
    rejects every batch, and [add_filter] is the batch of one filter. *)
Theorem add_filters_all_or_nothing (h : handle (K := K) (D := D))
    (fs : list (Filter (K := K) (D := D))) :
  (is_writable h = true ->
   (exists f, f ∈ fs ∧ filter_name f ∈ get_filter_names h)
   ∨ ~ NoDup (filter_name <$> fs) ->
   add_filters h fs
   = (Raise (DatabaseInsertError "The filter is already in the base."), h))
  ∧ (is_writable h = false ->
     add_filters h fs = (Raise (Exception "The database is not writable."), h))
  ∧ (forall f, add_filter h f = add_filters h [f]).
Proof.
  assert (Hnames : name <$> (row_of_filter <$> fs) = filter_name <$> fs).
  { rewrite <- list_fmap_compose. apply list_fmap_ext.
    intros i f _. apply row_of_filter_name. }
  split; [| split].
  - intros Hw Hbad. unfold add_filters. rewrite Hw.
    destruct (keys_accepted _ _) eqn:Hacc; [| done].
    apply keys_accepted_spec in Hacc as [Hnd Hfresh]. rewrite Hnames in *.
    destruct Hbad as [(f & Hf & Hin) | Hdup]; [| done].
    rewrite Forall_forall in Hfresh.
    destruct (Hfresh (filter_name f)); [by apply list_elem_of_fmap_2 | done].
  - intros Hw. unfold add_filters. by rewrite Hw.
  - done.
Qed.

(** X14.  The names of the filters are a primary key: if no two filters of the
    database have the same name, this is still so after [add_filters] and
    after [add_filter], whether the call is accepted or not. *)
Theorem add_filters_keeps_names_unique (h : handle (K := K) (D := D))
    (fs : list (Filter (K := K) (D := D))) (f : Filter (K := K) (D := D)) :
  NoDup (get_filter_names h) ->
  NoDup (get_filter_names (add_filters h fs).2)
  ∧ NoDup (get_filter_names (add_filter h f).2).
Proof.
  intros Hnd.
  assert (Hany : forall fs',
            NoDup (get_filter_names (add_filters h fs').2)).
  { intros fs'. unfold add_filters. destruct (is_writable h); [| done].
    destruct (keys_accepted _ _) eqn:Hacc; [| done].
    apply keys_accepted_spec in Hacc as [Hnew Hfresh].
    unfold get_filter_names. simpl. rewrite fmap_app.
    apply NoDup_app. split; [done |]. split; [| done].
    intros n Hold Hn. rewrite Forall_forall in Hfresh. by apply (Hfresh n). }
  split; [apply Hany |].
  change (add_filter h f) with (add_filters h [f]). apply Hany.
Qed.

(** X15.  Every name that [get_filter_names] lists can be fetched: [get_filter]
    returns a filter of that name.  If no two filters have the same name,
    every filter that [parse_filters] yields is the one [get_filter]
    returns for its name. *)
Theorem listed_filters_are_found (h : handle (K := K) (D := D)) :
  (forall n, n ∈ get_filter_names h ->
     exists f, get_filter (rows h) n = Ok f ∧ filter_name f = n)
  ∧ (NoDup (get_filter_names h) ->
     forall f, f ∈ parse_filters h ->
       get_filter (rows h) (filter_name f) = Ok f).
Proof.
  split.
  - intros n Hn. unfold get_filter, query_filter.
    apply list_elem_of_fmap in Hn as (r & -> & Hr).
    destruct (list_find_elem_of (fun r' => name r' = name r)
                (filters (rows h)) r Hr eq_refl) as [[i r'] Hfind].
    rewrite Hfind. simpl. eexists. split; [done |].
    by apply list_find_Some in Hfind as (_ & -> & _).
  - intros Hnd f Hf. unfold parse_filters in Hf.
    apply list_elem_of_fmap in Hf as (r & -> & Hr).
    unfold get_filter, query_filter. simpl.
    destruct (list_find_added name (fun r' => name r' = name r) []
                (filters (rows h)) r) as [i Hfind]; try done.
    { by apply Forall_forall; intros k _ Hk%elem_of_nil. }
    simpl in Hfind. by rewrite Hfind.
Qed.

(** X16.  Models added to a writable database under keys that are new and
    distinct are all accepted, and [get_themis] with the four keys of any
    of them returns that model as it was given. *)
Theorem add_themis_then_get_themis (h : handle (K := K) (D := D))
    (models : list (THEMIS (K := K) (D := D))) :
  is_writable h = true ->
  NoDup (model_key <$> models) ->
  (forall m, m ∈ models ->
     model_key m ∉ themis_key <$> THEMIS_models (rows h)) ->
  (add_themis h models).1 = Ok tt
  ∧ forall q u1 u2 a w l,
      THEMIS_ q u1 u2 a w l ∈ models ->
      get_themis str_of (rows (add_themis h models).2) q u1 u2 a
      = Ok (THEMIS_ q u1 u2 a w l).
Proof.
  intros Hw Hnd Hnew.
  assert (Hkeys : themis_key <$> (row_of_themis <$> models)
                  = model_key <$> models).
  { rewrite <- list_fmap_compose. apply list_fmap_ext.
    intros i m _. apply row_of_themis_key. }
  assert (Hfresh : Forall (fun k => k ∉ themis_key <$> THEMIS_models (rows h))
                     (themis_key <$> (row_of_themis <$> models))).
  { rewrite Hkeys. apply Forall_fmap, Forall_forall. intros m Hm.
    by apply Hnew. }
  unfold add_themis. rewrite Hw.
  rewrite (proj2 (keys_accepted_spec _ _))
    by (split; [by rewrite Hkeys | done]).
  simpl. split; [done |].
  intros q u1 u2 a w l Hm. unfold get_themis, query_themis. simpl.
  destruct (list_find_added themis_key
              (fun r => qhac r = q ∧ umin r = u1 ∧ umax r = u2 ∧ alpha r = a)
              (THEMIS_models (rows h)) (row_of_themis <$> models)
              (row_of_themis (THEMIS_ q u1 u2 a w l)))
    as [i ->]; try done.
  - intros y. unfold themis_key. simpl. split.
    + by intros (-> & -> & -> & ->).
    + by intros [= -> -> -> ->].
  - by rewrite Hkeys.
  - by apply list_elem_of_fmap_2.
Qed.

End DatabaseWrites.

(** ** Writing to the pickle database *)

Section Dictionaries.

Import DataOps.

Context {V : Type}.

Lemma dict_get_cons (x : string * V) (d : list (string * V)) (k : string) :
  dict_get (x :: d) k = if decide (x.1 = k) then Some x.2 else dict_get d k.
Proof.
  unfold dict_get. simpl. case_decide; [done |].
  by destruct (list_find _ d) as [[i y]|].
Qed.

Lemma dict_set_cons (x : string * V) (d : list (string * V)) (k : string)
    (v : V) :
  dict_set (x :: d) k v
  = if decide (x.1 = k) then (k, v) :: d else x :: dict_set d k v.
Proof.
  unfold dict_set. simpl. case_decide; [done |].
  by destruct (list_find _ d) as [[i y]|].
Qed.

Lemma dict_get_is_Some (d : list (string * V)) (k : string) :
  is_Some (dict_get d k) <-> k ∈ d.*1.
Proof.
  induction d as [|x d IH]; simpl.
  - split; [by intros [? [=]] | by intros ?%elem_of_nil].
  - rewrite dict_get_cons, elem_of_cons. case_decide as Hx.
    + split; [by left | by eexists].
    + rewrite IH. split; [by right | by intros [->|]].
Qed.

Lemma dict_get_set_eq (d : list (string * V)) (k : string) (v : V) :
  dict_get (dict_set d k v) k = Some v.
Proof.
  induction d as [|x d IH].
  - unfold dict_set, dict_get. simpl. by rewrite decide_True.
  - rewrite dict_set_cons. case_decide as Hx.
    + by rewrite dict_get_cons, decide_True.
    + by rewrite dict_get_cons, decide_False.
Qed.

Lemma dict_get_set_ne (d : list (string * V)) (k k' : string) (v : V) :
  k ≠ k' -> dict_get (dict_set d k v) k' = dict_get d k'.
Proof.
  intros Hne. induction d as [|x d IH].
  - unfold dict_set, dict_get. simpl. by rewrite decide_False.
  - rewrite dict_set_cons. case_decide as Hx.
    + rewrite !dict_get_cons. simpl. rewrite decide_False by done.
      by rewrite decide_False by congruence.
    + rewrite !dict_get_cons. by case_decide.
Qed.

Lemma dict_set_keys_present (d : list (string * V)) (k : string) (v : V) :
  k ∈ d.*1 -> (dict_set d k v).*1 = d.*1.
Proof.
  induction d as [|x d IH]; [by intros ?%elem_of_nil |].
  rewrite dict_set_cons. simpl. intros Hk. case_decide as Hx.
  - simpl. by rewrite Hx.
  - simpl. f_equal. apply IH. by apply elem_of_cons in Hk as [->|].
Qed.

Lemma dict_set_keys_absent (d : list (string * V)) (k : string) (v : V) :
  k ∉ d.*1 -> dict_set d k v = d ++ [(k, v)].
Proof.
  induction d as [|x d IH]; [done |].
  rewrite dict_set_cons. simpl. intros Hk.
  apply not_elem_of_cons in Hk as [Hx Hk].
  rewrite decide_False by done. by rewrite IH.
Qed.

End Dictionaries.

Section SimpleDatabaseWrites.

Import Data DataOps.

Context {K D : Type} `{EqDecision K}.
Context (str_of repr_of : K -> string).

#[local] Instance key_le_transitive : Transitive (key_le (K := K)).
Proof. intros x y z. unfold key_le. apply transitivity. Qed.

#[local] Instance key_le_total : Total (key_le (K := K)).
Proof. intros x y. unfold key_le. apply total, _. Qed.

Lemma string_app_inv_r (a b s : string) : a +:+ s = b +:+ s -> a = b.
Proof.
  revert b. induction a as [|c a IH]; intros [|c' b] Heq; [done | | |].
  - apply (f_equal String.length) in Heq.
    rewrite !string_app_length in Heq. simpl in Heq. lia.
  - apply (f_equal String.length) in Heq.
    rewrite !string_app_length in Heq. simpl in Heq. lia.
  - unfold append in Heq; fold append in Heq.
    injection Heq as -> Heq. f_equal. by apply IH.
Qed.

(** With distinct names, a name has one value. *)
Lemma NoDup_fst_value {A B : Type} (l : list (A * B)) (k : A) (v1 v2 : B) :
  NoDup l.*1 -> (k, v1) ∈ l -> (k, v2) ∈ l -> v1 = v2.
Proof.
  intros Hnd [i Hi]%list_elem_of_lookup [j Hj]%list_elem_of_lookup.
  assert (i = j) as ->.
  { apply (NoDup_lookup l.*1 i j k); [done | |];
      by rewrite list_lookup_fmap, ?Hi, ?Hj. }
  congruence.
Qed.

(** The name of the file of an entry does not depend on the order in which
    the primary keys are given. *)
Lemma basename_permutation (pk pk' : list (string * K)) :
  NoDup pk.*1 -> pk' ≡ₚ pk -> basename str_of pk' = basename str_of pk.
Proof.
  intros Hnd Hperm. unfold basename. do 2 f_equal.
  apply (Sorted_unique_strong key_le).
  - intros [k1 v1] [k2 v2] H1 H2 Hle Hge. unfold key_le in *. simpl in *.
    assert (k1 = k2) as -> by by apply (anti_symm String.le).
    f_equal. apply (NoDup_fst_value pk k2); [done | |].
    + rewrite <- Hperm. by rewrite <- (merge_sort_Permutation key_le pk').
    + by rewrite <- (merge_sort_Permutation key_le pk).
  - apply (Sorted_merge_sort key_le).
  - apply (Sorted_merge_sort key_le).
  - by rewrite !merge_sort_Permutation.
Qed.

Lemma append_values_keys (pk : list (string * K))
    (ps : list (string * list K)) :
  (append_values ps pk).2.*1 = ps.*1.
Proof.
  revert ps. induction pk as [|[k v] pk IH]; intros ps; [done |].
  simpl. destruct (dict_get ps k) as [l|] eqn:Hk; [| done].
  rewrite IH. apply dict_set_keys_present, dict_get_is_Some. by eexists.
Qed.

Lemma append_values_ok (pk : list (string * K))
    (ps : list (string * list K)) :
  (forall k, k ∈ pk.*1 -> k ∈ ps.*1) -> (append_values ps pk).1 = Ok tt.
Proof.
  revert ps. induction pk as [|[k v] pk IH]; intros ps Hks; [done |].
  simpl.
  destruct (proj2 (dict_get_is_Some ps k)) as [l ->].
  { apply Hks. simpl. by left. }
  apply IH. intros k' Hk'.
  rewrite dict_set_keys_present.
  - apply Hks. simpl. by right.
  - apply Hks. simpl. by left.
Qed.

Lemma append_values_unknown (pk : list (string * K))
    (ps : list (string * list K)) :
  (exists k, k ∈ pk.*1 ∧ k ∉ ps.*1) ->
  exists k, (append_values ps pk).1 = Raise (KeyError k)
            ∧ k ∈ pk.*1 ∧ k ∉ ps.*1.
Proof.
  revert ps. induction pk as [|[k v] pk IH]; intros ps (k0 & Hin & Hout).
  { by apply elem_of_nil in Hin. }
  simpl. destruct (dict_get ps k) as [l|] eqn:Hk.
  - assert (Hkin : k ∈ ps.*1) by (apply dict_get_is_Some; by eexists).
    destruct (IH (dict_set ps k (l ++ [v]))) as (k' & Hraise & Hk' & Hnot).
    { exists k0. rewrite dict_set_keys_present by done.
      split; [| done]. simpl in Hin.
      apply elem_of_cons in Hin as [->|]; done. }
    exists k'. rewrite dict_set_keys_present in Hnot by done.
    split; [done |]. split; [simpl; by right | done].
  - exists k. split; [done |]. split; [simpl; by left |].
    intros Hkin%dict_get_is_Some. rewrite Hk in Hkin. by destruct Hkin.
Qed.

(** X17.  An entry added to a writable database whose parameters dictionary is
    empty or knows the names of its primary keys is accepted; [get] then
    returns it, in whatever order the primary keys are given, and the
    entries kept in other files are read as before. *)
Theorem simple_add_then_get (db : SimpleDatabase (K := K) (D := D))
    (ps : list (string * list K)) (pk : list (string * K))
    (data : list (string * D)) :
  sdb_writable db = true ->
  sdb_parameters db = PParameters ps ->
  ps = [] ∨ (forall k, k ∈ pk.*1 -> k ∈ ps.*1) ->
  NoDup pk.*1 ->
  (add str_of db pk data).1 = Ok tt
  ∧ (forall pk', pk' ≡ₚ pk ->
       get str_of repr_of (add str_of db pk data).2 pk'
       = Ok (PEntry pk data))
  ∧ (forall pk2, basename str_of pk2 ≠ basename str_of pk ->
       get str_of repr_of (add str_of db pk data).2 pk2
       = get str_of repr_of db pk2).
Proof.
  intros Hw Hps Hknown Hnd. unfold add. rewrite Hw, Hps. simpl.
  assert (Hget : forall w ps' pk',
            pk' ≡ₚ pk ->
            get str_of repr_of
              (MkSimpleDatabase (sdb_name db) w (sdb_path db)
                 (<[basename str_of pk +:+ ".pickle" :=
                      Pickle (PEntry pk data)]> (sdb_files db)) ps') pk'
            = Ok (PEntry pk data)).
  { intros w ps' pk' Hperm. unfold get. simpl.
    rewrite (basename_permutation pk pk') by done.
    by rewrite lookup_insert_eq. }
  assert (Hother : forall w ps' pk2,
            basename str_of pk2 ≠ basename str_of pk ->
            get str_of repr_of
              (MkSimpleDatabase (sdb_name db) w (sdb_path db)
                 (<[basename str_of pk +:+ ".pickle" :=
                      Pickle (PEntry pk data)]> (sdb_files db)) ps') pk2
            = get str_of repr_of db pk2).
  { intros w ps' pk2 Hne. unfold get. simpl.
    rewrite lookup_insert_ne; [done |].
    intros Heq. apply Hne. symmetry. by eapply string_app_inv_r. }
  case_bool_decide as Hlen.
  - simpl. split; [done |].
    split; [intros pk'; apply Hget | intros pk2; apply Hother].
  - destruct Hknown as [-> | Hknown]; [done |].
    pose proof (append_values_ok pk ps Hknown) as Hok.
    destruct (append_values ps pk) as [r ps']. simpl in *.
    split; [done |].
    split; [intros pk'; apply Hget | intros pk2; apply Hother].
Qed.

(** X18.  [add] on a database that is not writable raises and changes nothing.
    On a writable database whose parameters dictionary is not empty, a
    primary key under a name the dictionary does not know makes [add] raise
    [KeyError] for such a name; the file of the entry has been written by
    then, so [get] returns the entry although [add] failed, and the names
    of the dictionary are as before. *)
Theorem simple_add_failures (db : SimpleDatabase (K := K) (D := D))
    (pk : list (string * K)) (data : list (string * D)) :
  (sdb_writable db = false ->
   add str_of db pk data
   = (Raise (Exception ("The database " +:+ sdb_name db +:+ " is read-only.")),
      db))
  ∧ (forall ps,
       sdb_writable db = true ->
       sdb_parameters db = PParameters ps ->
       ps ≠ [] ->
       (exists k, k ∈ pk.*1 ∧ k ∉ ps.*1) ->
       exists k ps',
         (add str_of db pk data).1 = Raise (KeyError k)
         ∧ (k ∈ pk.*1) ∧ (k ∉ ps.*1)
         ∧ sdb_parameters (add str_of db pk data).2 = PParameters ps'
         ∧ ps'.*1 = ps.*1
         ∧ get str_of repr_of (add str_of db pk data).2 pk
           = Ok (PEntry pk data)).
Proof.
  split.
  - intros Hw. unfold add. by rewrite Hw.
  - intros ps Hw Hps Hne Hunknown. unfold add. rewrite Hw, Hps. simpl.
    rewrite bool_decide_eq_false_2 by (by destruct ps).
    destruct (append_values_unknown pk ps Hunknown) as (k & Hraise & Hk & Hnot).
    pose proof (append_values_keys pk ps) as Hkeys.
    destruct (append_values ps pk) as [r ps']. simpl in *.
    exists k, ps'. repeat split; try done.
    unfold get. simpl. by rewrite lookup_insert_eq.
Qed.

Lemma create_lists_app (pk : list (string * K))
    (ps : list (string * list K)) :
  NoDup (ps.*1 ++ pk.*1) ->
  create_lists ps pk = ps ++ ((fun kv => (kv.1, [kv.2])) <$> pk).
Proof.
  unfold create_lists. revert ps.
  induction pk as [|[k v] pk IH]; intros ps Hnd.
  - simpl. by rewrite app_nil_r.
  - simpl in *. apply NoDup_app in Hnd as (Hps & Hdisj & Hpk).
    apply NoDup_cons in Hpk as [Hk Hpk].
    rewrite dict_set_keys_absent.
    2:{ intros Hin. apply (Hdisj k Hin). by left. }
    rewrite IH.
    + by rewrite <- (assoc (++)).
    + rewrite fmap_app. simpl. rewrite <- (assoc (++)). simpl.
      apply NoDup_app. split; [done |]. split; [| by apply NoDup_cons].
      intros k' Hin. by apply Hdisj.
Qed.

Lemma append_values_lists (pk : list (string * K))
    (ps : list (string * list K)) (k : string) :
  NoDup pk.*1 ->
  (forall k', k' ∈ pk.*1 -> k' ∈ ps.*1) ->
  dict_get (append_values ps pk).2 k
  = match dict_get pk k with
    | Some v => (fun l => l ++ [v]) <$> dict_get ps k
    | None => dict_get ps k
    end.
Proof.
  revert ps. induction pk as [|[k0 v0] pk IH]; intros ps Hnd Hknown; [done |].
  simpl in *. apply NoDup_cons in Hnd as [Hk0 Hnd].
  destruct (proj2 (dict_get_is_Some ps k0)) as [l Hl]; [apply Hknown; by left |].
  rewrite Hl, IH; [| done |].
  2:{ intros k' Hk'. rewrite dict_set_keys_present.
      - apply Hknown. by right.
      - apply Hknown. by left. }
  rewrite (dict_get_cons (k0, v0)). simpl. case_decide as Hk.
  - subst k0.
    destruct (dict_get pk k) as [v|] eqn:Hpk.
    { destruct Hk0. apply dict_get_is_Some. by eexists. }
    by rewrite dict_get_set_eq, Hl.
  - by rewrite dict_get_set_ne.
Qed.

(** X19.  The parameters dictionary records the values of the primary keys: the
    first entry added creates a list of one value under each name, in the
    order of the primary keys, and a later entry appends its value to the
    list of each of its names and leaves the other lists alone. *)
Theorem simple_add_records_values (db : SimpleDatabase (K := K) (D := D))
    (ps : list (string * list K)) (pk : list (string * K))
    (data : list (string * D)) :
  sdb_writable db = true ->
  sdb_parameters db = PParameters ps ->
  NoDup pk.*1 ->
  (ps = [] ->
   sdb_parameters (add str_of db pk data).2
   = PParameters ((fun kv => (kv.1, [kv.2])) <$> pk))
  ∧ (ps ≠ [] -> (forall k, k ∈ pk.*1 -> k ∈ ps.*1) ->
     exists ps',
       sdb_parameters (add str_of db pk data).2 = PParameters ps'
       ∧ ps'.*1 = ps.*1
       ∧ forall k,
           dict_get ps' k
           = match dict_get pk k with
             | Some v => (fun l => l ++ [v]) <$> dict_get ps k
             | None => dict_get ps k
             end).
Proof.
  intros Hw Hps Hnd. unfold add. rewrite Hw, Hps. simpl. split.
  - intros ->. simpl. by rewrite create_lists_app.
  - intros Hne Hknown.
    rewrite bool_decide_eq_false_2 by (by destruct ps).
    pose proof (append_values_keys pk ps) as Hkeys.
    pose proof (fun k => append_values_lists pk ps k Hnd Hknown) as Hlists.
    destruct (append_values ps pk) as [r ps']. simpl in *.
    by exists ps'.
Qed.

Lemma occurs_in_char_inv (c0 c : ascii) (s : string) :
  occurs_in (String c0 "") (String c s) -> c = c0 ∨ occurs_in (String c0 "") s.
Proof.
  intros (pre & post & Heq). destruct pre as [|c' pre].
  - left. unfold append in Heq; fold append in Heq. by injection Heq as -> _.
  - right. unfold append in Heq; fold append in Heq.
    injection Heq as _ ->. by exists pre, post.
Qed.

Lemma not_occurs_in_char_empty (c0 : ascii) : ~ occurs_in (String c0 "") "".
Proof.
  intros (pre & post & Heq).
  apply (f_equal String.length) in Heq.
  rewrite !string_app_length in Heq. simpl in Heq. lia.
Qed.

(** The name of the file of an entry is empty or has an equals sign. *)
Lemma basename_equals_sign (pk : list (string * K)) :
  pk ≠ [] -> occurs_in "=" (basename str_of pk).
Proof.
  intros Hne. unfold basename.
  pose proof (merge_sort_Permutation key_le pk) as Hperm.
  destruct (merge_sort key_le pk) as [|[k v] l].
  { apply Permutation_nil_l in Hperm. by subst pk. }
  eapply occurs_in_trans; [| apply occurs_in_join; by left].
  simpl. apply occurs_in_app_r, occurs_in_app_l, occurs_in_refl.
Qed.

(** No primary keys give an entry the file of the parameters dictionary. *)
Lemma basename_not_parameters (pk : list (string * K)) :
  basename str_of pk +:+ ".pickle" ≠ "parameters.pickle".
Proof.
  intros Heq. apply (string_app_inv_r _ "parameters") in Heq.
  destruct pk as [|x pk].
  - by vm_compute in Heq.
  - pose proof (basename_equals_sign (x :: pk)) as Hsign.
    rewrite Heq in Hsign. specialize (Hsign ltac:(done)).
    repeat (apply occurs_in_char_inv in Hsign as [Hsign | Hsign];
            [discriminate Hsign |]).
    by apply not_occurs_in_char_empty in Hsign.
Qed.

Lemma dict_set_middle {V : Type} (pre l : list (string * V)) (k : string)
    (v0 v : V) :
  k ∉ pre.*1 -> dict_set (pre ++ (k, v0) :: l) k v = pre ++ (k, v) :: l.
Proof.
  induction pre as [|x pre IH]; simpl; intros Hk.
  - rewrite dict_set_cons. simpl. by rewrite decide_True.
  - rewrite dict_set_cons. apply not_elem_of_cons in Hk as [Hx Hk].
    rewrite decide_False by done. by rewrite IH.
Qed.

Lemma close_loop (set_list : list K -> list K)
    (pre l : list (string * list K)) :
  NoDup (pre ++ l).*1 ->
  foldl (fun ps' kv => dict_set ps' kv.1 (set_list kv.2)) (pre ++ l) l
  = pre ++ ((fun kv => (kv.1, set_list kv.2)) <$> l).
Proof.
  revert pre. induction l as [|[k v] l IH]; intros pre Hnd; [done |].
  simpl. rewrite dict_set_middle.
  2:{ rewrite fmap_app in Hnd. apply NoDup_app in Hnd as (_ & Hdisj & _).
      intros Hin. apply (Hdisj k Hin). by left. }
  rewrite (cons_middle _ pre l), (assoc (++)), IH.
  - by rewrite <- (assoc (++)).
  - rewrite <- (assoc (++)). simpl.
    rewrite fmap_app in *. by simpl in *.
Qed.

Lemma dict_get_fmap {V W : Type} (f : V -> W) (d : list (string * V))
    (k : string) :
  dict_get ((fun kv => (kv.1, f kv.2)) <$> d) k = f <$> dict_get d k.
Proof.
  induction d as [|x d IH]; [done |].
  rewrite fmap_cons, !dict_get_cons. simpl. by case_decide.
Qed.

(** X20.  Closing a writable database whose parameters dictionary has each name
    once succeeds; under each name the dictionary then lists the same
    values as before, each of them once, if [set_list] lists the members
    of the set of a list.  The dictionary is saved: opening the directory
    again, read-only, gives this dictionary, and every entry reads as
    before the database was closed. *)
Theorem simple_close_saves_parameters (set_list : list K -> list K)
    (db : SimpleDatabase (K := K) (D := D)) (ps : list (string * list K)) :
  (forall l, NoDup (set_list l) ∧ forall x, x ∈ set_list l <-> x ∈ l) ->
  sdb_writable db = true ->
  sdb_parameters db = PParameters ps ->
  NoDup ps.*1 ->
  exists db' ps',
    close set_list db = Some db'
    ∧ sdb_parameters db' = PParameters ps'
    ∧ ps'.*1 = ps.*1
    ∧ (forall k l, dict_get ps k = Some l ->
         exists l', dict_get ps' k = Some l' ∧ NoDup l'
                    ∧ forall x, x ∈ l' <-> x ∈ l)
    ∧ (forall pk, get str_of repr_of db' pk = get str_of repr_of db pk)
    ∧ exists db'',
        SimpleDatabase_init (sdb_name db) false (sdb_path db)
          (Some (sdb_files db')) = Ok db''
        ∧ sdb_parameters db'' = PParameters ps'
        ∧ forall pk, get str_of repr_of db'' pk = get str_of repr_of db pk.
Proof.
  intros Hset Hw Hps Hnd. unfold close. rewrite Hw, Hps.
  pose proof (close_loop set_list [] ps Hnd) as Hloop. simpl in Hloop.
  rewrite Hloop. clear Hloop.
  eexists _, _. split; [done |]. simpl. split; [done |].
  split.
  { rewrite <- list_fmap_compose. by apply list_fmap_ext. }
  split.
  { intros k l Hl. exists (set_list l). rewrite dict_get_fmap, Hl.
    split; [done |]. apply Hset. }
  assert (Hget : forall w ps' pk,
    get str_of repr_of
      (MkSimpleDatabase (sdb_name db) w (sdb_path db)
         (<["parameters.pickle" := Pickle (PParameters ps')]> (sdb_files db))
         (PParameters ps')) pk
    = get str_of repr_of db pk).
  { intros w ps' pk. unfold get. simpl.
    rewrite lookup_insert_ne; [done |].
    intros Heq. by apply (basename_not_parameters pk). }
  split; [apply Hget |].
  unfold SimpleDatabase_init. simpl. rewrite lookup_insert_eq.
  eexists. split; [done |]. split; [done |]. apply Hget.
Qed.

(** X21.  [add] writes the file of the entry at once but keeps the new values of
    the parameters in memory: if the database is opened again before it
    was closed, the entry can be read and the parameters dictionary is the
    one that was saved last. *)
Theorem simple_add_defers_parameters (db : SimpleDatabase (K := K) (D := D))
    (pk : list (string * K)) (data : list (string * D)) (saved : pickled) :
  sdb_writable db = true ->
  sdb_files db !! "parameters.pickle" = Some (Pickle saved) ->
  (exists ps, sdb_parameters db = PParameters ps) ->
  exists db',
    SimpleDatabase_init (sdb_name db) false (sdb_path db)
      (Some (sdb_files (add str_of db pk data).2)) = Ok db'
    ∧ sdb_parameters db' = saved
    ∧ get str_of repr_of db' pk = Ok (PEntry pk data).
Proof.
  intros Hw Hsaved [ps Hps]. unfold add. rewrite Hw, Hps. simpl.
  assert (Hfile : forall ps',
    sdb_files
      (MkSimpleDatabase (sdb_name db) true (sdb_path db)
         (<[basename str_of pk +:+ ".pickle" := Pickle (PEntry pk data)]>
            (sdb_files db)) ps')
    = <[basename str_of pk +:+ ".pickle" := Pickle (PEntry pk data)]>
        (sdb_files db)) by done.
  unfold SimpleDatabase_init.
  assert (Hlook :
    (<[basename str_of pk +:+ ".pickle" := Pickle (PEntry pk data)]>
       (sdb_files db) : gmap string file) !! "parameters.pickle"
    = Some (Pickle saved)).
  { rewrite lookup_insert_ne; [done |]. apply basename_not_parameters. }
  destruct (bool_decide (length ps = 0)); simpl; rewrite ?Hfile.
  - rewrite Hlook. eexists. split; [done |]. split; [done |].
    unfold get. simpl. by rewrite lookup_insert_eq.
  - destruct (append_values ps pk) as [r ps']. simpl. rewrite Hlook.
    eexists. split; [done |]. split; [done |].
    unfold get. simpl. by rewrite lookup_insert_eq.
Qed.

End SimpleDatabaseWrites.

(** ** More on the completion of parameters and on module lookup *)

Section ParameterCompletion.

Import Common.

Context (set_iter : gset string -> list string).

(** X1.  [complete_parameters] returns exactly when every supplied key is a key
    of the schema and every key of the schema that is not supplied has a
    default other than [None]. *)
Theorem complete_parameters_succeeds_iff (given : gmap string pyval)
    (parameter_list : gmap string schema_entry) :
  (exists parameters,
     complete_parameters set_iter given parameter_list = Ok parameters)
  <-> (forall k, k ∈ dom given -> k ∈ dom parameter_list)
      ∧ (forall k e, parameter_list !! k = Some e -> given !! k = None ->
           is_None (default_of e) = false).
Proof.
  unfold complete_parameters. cbv zeta.
  pose proof (fill_defaults_lookup given parameter_list) as Hlook.
  split.
  - intros [parameters Hok].
    case_bool_decide as Hdom; [| done]. clear Hok. split.
    + intros k Hk. rewrite <- Hdom. apply elem_of_dom.
      apply elem_of_dom in Hk as [v Hv].
      exists v. rewrite Hlook. unfold resolved_value. by rewrite Hv.
    + intros k e He Hg.
      assert (Hk : k ∈ dom (fill_defaults given parameter_list)).
      { rewrite Hdom. apply elem_of_dom. by exists e. }
      apply elem_of_dom in Hk as [v Hv]. rewrite Hlook in Hv.
      unfold resolved_value in Hv. rewrite Hg, He in Hv.
      by destruct (is_None (default_of e)).
  - intros [Hsub Hdef]. eexists. rewrite bool_decide_eq_true_2; [done |].
    apply set_eq. intros k. rewrite !elem_of_dom, Hlook.
    unfold resolved_value. split.
    + destruct (given !! k) as [v|] eqn:Hg.
      * intros _. apply elem_of_dom, Hsub, elem_of_dom. by exists v.
      * destruct (parameter_list !! k) as [e|]; [by eexists |].
        by intros [? [=]].
    + intros [e He]. rewrite He.
      destruct (given !! k) as [v|] eqn:Hg; [by eexists |].
      rewrite (Hdef k e He Hg). by eexists.
Qed.

(** X2.  A dictionary that [complete_parameters] returned keeps every value
    that was supplied, has the keys of the schema, and is returned as it
    is when it is completed again. *)
Theorem complete_parameters_idempotent (given parameters : gmap string pyval)
    (parameter_list : gmap string schema_entry) :
  complete_parameters set_iter given parameter_list = Ok parameters ->
  given ⊆ parameters
  ∧ dom parameters = dom parameter_list
  ∧ complete_parameters set_iter parameters parameter_list = Ok parameters.
Proof.
  unfold complete_parameters at 1. cbv zeta.
  case_bool_decide as Hdom; [| done]. intros [= <-].
  pose proof (fill_defaults_lookup given parameter_list) as Hlook.
  split; [| split; [done |]].
  - apply map_subseteq_spec. intros k v Hv.
    rewrite Hlook. unfold resolved_value. by rewrite Hv.
  - assert (Hsame : fill_defaults (fill_defaults given parameter_list)
                      parameter_list
                    = fill_defaults given parameter_list).
    { apply map_eq. intros k. rewrite fill_defaults_lookup.
      unfold resolved_value at 1.
      destruct (fill_defaults given parameter_list !! k) as [v|] eqn:Hk;
        [done |].
      destruct (parameter_list !! k) as [e|] eqn:He; [| done].
      assert (Hin : k ∈ dom (fill_defaults given parameter_list)).
      { rewrite Hdom. apply elem_of_dom. by exists e. }
      apply elem_of_dom in Hin as [v Hv]. congruence. }
    unfold complete_parameters. cbv zeta. rewrite Hsame.
    by rewrite bool_decide_eq_true_2.
Qed.

Context (py_exec : string -> result module_class).

(** X3.  With a true [blank] keyword, [get_module] returns an instance without
    parameters once the import went through: the other keywords are not
    checked against the schema of the module and its initialisation code
    is not run. *)
Theorem get_module_blank (name module_name : string)
    (kwargs : gmap string pyval) (blank : pyval) (cls : module_class) :
  split dot name !! 0%nat = Some module_name ->
  py_exec (import_string module_name) = Ok cls ->
  kwargs !! "blank" = Some blank ->
  truthy blank = true ->
  get_module set_iter py_exec name kwargs = ([], Ok (Instance_ cls name None)).
Proof.
  intros Hsplit Hexec Hblank Htrue.
  unfold get_module. rewrite Hsplit, Hexec. simpl.
  unfold new_Module. rewrite Hblank. simpl. by rewrite Htrue.
Qed.

(** X4.  What [get_module] does with an exception raised after the import
    went through.  A [KeyError] of the parameter check is raised as it is
    and nothing is printed.  An exception of the initialisation code of
    the module is raised as it is too; if it is an [ImportError], the
    message that the module does not exist is printed although the module
    was imported. *)
Theorem get_module_later_errors (name module_name : string)
    (kwargs : gmap string pyval) (cls : module_class) :
  split dot name !! 0%nat = Some module_name ->
  py_exec (import_string module_name) = Ok cls ->
  from_option truthy false (kwargs !! "blank") = false ->
  (forall msg,
     complete_parameters set_iter (delete "blank" kwargs) (parameter_list cls)
     = Raise (KeyError msg) ->
     get_module set_iter py_exec name kwargs = ([], Raise (KeyError msg)))
  ∧ (forall parameters e,
       complete_parameters set_iter (delete "blank" kwargs)
         (parameter_list cls) = Ok parameters ->
       _init_code cls parameters = Raise e ->
       get_module set_iter py_exec name kwargs
       = (match e with
          | ImportError _ =>
              ["Module " +:+ module_name +:+ " does not exists!"]
          | _ => []
          end, Raise e)).
Proof.
  intros Hsplit Hexec Hblank. split.
  - intros msg Hcp. unfold get_module. rewrite Hsplit, Hexec. simpl.
    unfold new_Module. by rewrite Hblank, Hcp.
  - intros parameters e Hcp Hinit. unfold get_module.
    rewrite Hsplit, Hexec. simpl.
    unfold new_Module. rewrite Hblank, Hcp. simpl. rewrite Hinit. simpl.
    by destruct e.
Qed.

End ParameterCompletion.

(** ** The values of the adjusted errors *)

Section AdjustedValues.

Import Analysis.

Context {F : Type} `{Float F}.

(** The error of a flux after adjustment. *)
Definition adjusted_error (tolerance default_error systematic_deviation : F)
    (f e : F) : F :=
  let e := if flt e tolerance then fmul default_error f else e in
  fsqrt (fadd (fsquare e) (fsquare (fmul f systematic_deviation))).

Lemma put_select_zip (g : F -> F) (p : F -> bool) (fl er : list F) :
  length fl = length er ->
  put er (map p er) (map g (select fl (map p er)))
  = zip_with (fun f e => if p e then g f else e) fl er.
Proof.
  revert fl. induction er as [|e er IH]; intros [|f fl] Hlen; try done.
  injection Hlen as Hlen. simpl. destruct (p e); simpl; by rewrite IH.
Qed.

Lemma adjusted_zip (tolerance default_error systematic_deviation : F)
    (fl er : list F) :
  map fsqrt
    (zip_with fadd
       (map fsquare
          (zip_with
             (fun f e => if flt e tolerance then fmul default_error f else e)
             fl er))
       (map fsquare (map (fun x => fmul x systematic_deviation) fl)))
  = zip_with (adjusted_error tolerance default_error systematic_deviation)
      fl er.
Proof.
  revert er. induction fl as [|f fl IH]; intros [|e er]; try done.
  simpl. f_equal. apply IH.
Qed.

Lemma adjust_errors_result (h : store F) (flux error : ref) (fl er : list F)
    (tolerance default_error systematic_deviation : F) :
  h !! flux = Some fl -> h !! error = Some er ->
  length fl = length er ->
  exists work : list F,
    adjust_errors flux error tolerance default_error systematic_deviation h
    = (Ok (S (length h)),
       h ++ [work]
         ++ [zip_with (adjusted_error tolerance default_error
                         systematic_deviation) fl er]).
Proof.
  intros Hfl Her Hlen.
  pose proof (lookup_lt_Some _ _ _ Hfl) as Hflt.
  pose proof (lookup_lt_Some _ _ _ Her) as Hert.
  set (mask := map (fun e => flt e tolerance) er).
  set (work := put er mask (map (fmul default_error) (select fl mask))).
  assert (Hmask : length mask = length er)
    by (unfold mask; by rewrite length_map).
  assert (Hh1f : (h ++ [er]) !! flux = Some fl) by by rewrite lookup_app_l.
  assert (Hh1c : (h ++ [er]) !! length h = Some er)
    by by rewrite list_lookup_middle.
  assert (Hh2 : <[length h := work]> (h ++ [er]) = h ++ [work]).
  { rewrite insert_app_r_alt by lia. by rewrite Nat.sub_diag. }
  assert (Hh2f : (h ++ [work]) !! flux = Some fl) by by rewrite lookup_app_l.
  assert (Hh2c : (h ++ [work]) !! length h = Some work)
    by by rewrite list_lookup_middle.
  exists work. unfold adjust_errors, mbind, stm_mbind.
  rewrite (stm_bind_ok _ _ h h fl) by by apply np_read_ok.
  rewrite (stm_bind_ok _ _ h h er) by by apply np_read_ok.
  rewrite bool_decide_eq_true_2 by done. cbn [negb].
  rewrite (stm_bind_ok _ _ h (h ++ [er]) (length h)) by by apply np_copy_ok.
  rewrite (stm_bind_ok _ _ _ (h ++ [er]) er) by by apply np_read_ok.
  rewrite (stm_bind_ok _ _ _ (h ++ [er]) fl) by by apply np_read_ok.
  rewrite (stm_bind_ok _ _ _ (h ++ [er]) (select fl mask))
    by (unfold stm_lift; rewrite mask_getitem_ok;
        [done | rewrite length_map; congruence]).
  rewrite (stm_bind_ok _ _ _ (h ++ [er]) er) by by apply np_read_ok.
  rewrite (stm_bind_ok _ _ _ (h ++ [work]) tt).
  2:{ rewrite <- Hh2. apply mask_setitem_ok; [done | done |].
      rewrite length_map. apply select_length. fold mask. congruence. }
  rewrite (stm_bind_ok _ _ _ (h ++ [work]) work) by by apply np_read_ok.
  rewrite (stm_bind_ok _ _ _ (h ++ [work]) fl) by by apply np_read_ok.
  rewrite (stm_bind_ok _ _ _ (h ++ [work])
             (zip_with fadd (map fsquare work)
                (map fsquare
                   (map (fun x => fmul x systematic_deviation) fl)))).
  2:{ unfold stm_lift. rewrite broadcast2_same_length; [done |].
      rewrite !length_map. unfold work. rewrite put_length. congruence. }
  unfold np_alloc. rewrite length_app. simpl length.
  rewrite Nat.add_1_r. rewrite <- (assoc (++)).
  unfold work, mask.
  rewrite (put_select_zip (fmul default_error) (fun e => flt e tolerance))
    by done.
  by rewrite adjusted_zip.
Qed.

(** X5.  On arrays of equal length, [adjust_errors] returns a new array whose
    element at each place is computed from the flux and the error at that
    place alone: an error below the tolerance is replaced by the default
    error times the flux, and the outcome is the square root of the sum
    of the squares of that error and of the flux times the systematic
    deviation. *)
Theorem adjust_errors_elementwise (h : store F) (flux error : ref)
    (fl er : list F) (tolerance default_error systematic_deviation : F) :
  h !! flux = Some fl -> h !! error = Some er ->
  length fl = length er ->
  let run :=
    adjust_errors flux error tolerance default_error systematic_deviation h in
  exists out res,
    run.1 = Ok out ∧ run.2 !! out = Some res
    ∧ forall i f e, fl !! i = Some f -> er !! i = Some e ->
        res !! i
        = Some (fsqrt (fadd
                  (fsquare (if flt e tolerance then fmul default_error f
                            else e))
                  (fsquare (fmul f systematic_deviation)))).
Proof.
  intros Hfl Her Hlen run.
  destruct (adjust_errors_result h flux error fl er tolerance default_error
              systematic_deviation Hfl Her Hlen) as (work & Hrun).
  subst run. rewrite Hrun. simpl.
  eexists _, _. split; [done |]. split.
  - rewrite lookup_app_r by lia.
    by replace (S (length h) - length h)%nat with 1%nat by lia.
  - intros i f e Hf He. rewrite lookup_zip_with, Hf. simpl. by rewrite He.
Qed.

End AdjustedValues.

(** ** The table of the flux-saving module *)

Section OutputTable.

Import SaveFluxes.

Lemma substring_all (s : string) : String.substring 0 (String.length s) s = s.
Proof. induction s as [|c s IH]; [done |]. simpl. by rewrite IH. Qed.

Lemma substring_app_r (pre s : string) :
  String.substring (String.length pre) (String.length s) (pre +:+ s) = s.
Proof.
  induction pre as [|c pre IH]; simpl.
  - apply substring_all.
  - unfold append; fold append. apply IH.
Qed.

Lemma substring_split (n : nat) (s : string) :
  (n ≤ String.length s)%nat ->
  s = String.substring 0 n s
      +:+ String.substring n (String.length s - n) s.
Proof.
  revert n. induction s as [|c s IH]; intros [|n] Hn; simpl in *; try done.
  - by rewrite substring_all.
  - unfold append; fold append. f_equal. apply IH. lia.
Qed.

(** [name.endswith(suffix)] holds exactly when [name] is some text
    followed by [suffix]. *)
Lemma endswith_spec (name suffix : string) :
  endswith name suffix = true <-> exists pre, name = pre +:+ suffix.
Proof.
  unfold endswith. cbv zeta. rewrite andb_true_iff, bool_decide_eq_true.
  rewrite String.eqb_eq. split.
  - intros [Hle Hsub].
    exists (String.substring 0 (String.length name - String.length suffix)
              name).
    pose proof (substring_split
                  (String.length name - String.length suffix) name
                  ltac:(lia)) as Hsplit.
    replace (String.length name
             - (String.length name - String.length suffix))%nat
      with (String.length suffix) in Hsplit by lia.
    by rewrite Hsub in Hsplit.
  - intros [pre ->]. rewrite string_app_length. split; [lia |].
    replace (String.length pre + String.length suffix
             - String.length suffix)%nat
      with (String.length pre) by lia.
    apply substring_app_r.
Qed.

Lemma filter_sublist {A : Type} (p : A -> bool) (l : list A) :
  sublist (List.filter p l) l.
Proof.
  induction l as [|x l IH]; [done |]. simpl.
  destruct (p x); by constructor.
Qed.

(** X7.  The names of the filters of a run are the used columns that are not
    some text followed by [_err], in the order of the column list; so the
    error column [name_err] that [complete_obs_table] gives the filter
    [name] is never taken for a filter, and neither is a column called
    [_err]. *)
Theorem filter_names_of_spec (column_list : list string) :
  (forall name,
     name ∈ filter_names_of column_list
     <-> name ∈ column_list ∧ forall pre, name ≠ pre +:+ "_err")
  ∧ sublist (filter_names_of column_list) column_list
  ∧ (forall name, name +:+ "_err" ∉ filter_names_of column_list).
Proof.
  assert (Hspec : forall name,
    name ∈ filter_names_of column_list
    <-> name ∈ column_list ∧ forall pre, name ≠ pre +:+ "_err").
  { intros name. unfold filter_names_of.
    rewrite list_elem_of_In, filter_In, <- list_elem_of_In.
    rewrite negb_true_iff, <- not_true_iff_false, endswith_spec.
    split; intros [Hin Hno]; (split; [done |]).
    - intros pre Hpre. apply Hno. by exists pre.
    - intros [pre Hpre]. by apply (Hno pre). }
  split; [done |]. split; [apply filter_sublist |].
  intros name [_ Hno]%Hspec. by apply (Hno name).
Qed.

Lemma foldr_min_same {A : Type} (rest : list (list A)) (m : nat) :
  Forall (fun r => length r = m) rest ->
  foldr (fun r k => Nat.min (length r) k) m rest = m.
Proof.
  induction 1 as [|r rest Hr _ IH]; [done |]. simpl. rewrite IH. lia.
Qed.

Lemma omap_lookup_all {A : Type} (rows : list (list A)) (j : nat) :
  Forall (fun r => (j < length r)%nat) rows ->
  length (omap (fun r => r !! j) rows) = length rows
  ∧ forall i row, rows !! i = Some row ->
      omap (fun r => r !! j) rows !! i = row !! j.
Proof.
  induction 1 as [|r rows Hr _ [IHlen IH]]; [done |].
  destruct (lookup_lt_is_Some_2 r j Hr) as [x Hx].
  simpl. rewrite Hx. simpl. split; [f_equal; exact IHlen |].
  intros [|i] row Hrow.
  - simpl in *. by injection Hrow as <-.
  - exact (IH i row Hrow).
Qed.

Lemma zip_star_rectangular {A : Type} (rows : list (list A)) (m : nat) :
  rows ≠ [] ->
  Forall (fun r => length r = m) rows ->
  length (zip_star rows) = m
  ∧ Forall (fun col => length col = length rows) (zip_star rows)
  ∧ forall i j row x,
      rows !! i = Some row -> row !! j = Some x ->
      exists col, zip_star rows !! j = Some col ∧ col !! i = Some x.
Proof.
  intros Hne Hrows. destruct rows as [|row0 rest]; [done |].
  unfold zip_star.
  apply Forall_cons in Hrows as Hboth. destruct Hboth as [Hrow0 Hrest].
  rewrite Hrow0, (foldr_min_same rest m Hrest).
  assert (Hall : forall j, (j < m)%nat ->
            Forall (fun r : list A => (j < length r)%nat) (row0 :: rest)).
  { intros j Hj. eapply Forall_impl; [exact Hrows |]. simpl. intros r ->.
    done. }
  split; [by rewrite length_fmap, length_seq |]. split.
  - apply Forall_fmap, Forall_forall. intros j Hj%elem_of_seq.
    assert (Hjm : (j < m)%nat) by lia.
    exact (proj1 (omap_lookup_all (row0 :: rest) j (Hall j Hjm))).
  - intros i j row x Hrow Hx.
    assert (Hj : (j < m)%nat).
    { rewrite Forall_forall in Hrows.
      rewrite <- (Hrows row) by by eapply list_elem_of_lookup_2.
      by eapply lookup_lt_Some. }
    exists (omap (fun r => r !! j) (row0 :: rest)).
    rewrite list_lookup_fmap, lookup_seq_lt by done.
    split; [done |].
    rewrite <- Hx.
    exact (proj2 (omap_lookup_all (row0 :: rest) j (Hall j Hj)) i row Hrow).
Qed.

(** X8.  On rows that all have [m] elements, and of which there is at least
    one, [zip_star] gives [m] columns, each with one element per row, and
    the element [i] of column [j] is the element [j] of row [i]. *)
Theorem zip_star_transposes {A : Type} (rows : list (list A)) (m : nat) :
  rows ≠ [] ->
  Forall (fun r => length r = m) rows ->
  length (zip_star rows) = m
  ∧ Forall (fun col => length col = length rows) (zip_star rows)
  ∧ forall i j row x,
      rows !! i = Some row -> row !! j = Some x ->
      exists col, zip_star rows !! j = Some col ∧ col !! i = Some x.
Proof. apply zip_star_rectangular. Qed.

End OutputTable.

(** ** The table a run writes *)

Section TableOfARun.

Import SaveFluxes.

Context {W SED T E Fx C : Type} `{SedWarehouse W SED}.
Context (now : string).
Context (get_filter : string -> result (filter_ (T := T) (E := E))).
Context (find_changed_parameters : list (list dict) -> list nat).
Context (table_write : string -> table (Fx := Fx) -> result C).
Context (rename_refused : gmap string (Os.node C) -> string -> string
                          -> option exn).
Context (write_refused : gmap string (Os.node C) -> string -> option exn).
Context (schedule : nat -> nat).
Context (compute_fnu : SED -> T -> E -> Fx).

(** A row of the table: the parameter values of the grid point and then
    the fluxes of some SED in the filters. *)
Definition row_of_point (filters : list (filter_ (T := T) (E := E)))
    (parameters : list dict) (row : list (cell (Fx := Fx))) : Prop :=
  exists sed : SED,
    row = (Param <$> (row_value <$> parameter_values parameters))
          ++ (Flux <$> ((fun f => compute_fnu sed (trans_table f)
                                    (effective_wavelength f)) <$> filters)).


Lemma starmap_from_rows (assign : nat -> nat) (filters : list filter_)
    (modules : list string) (tasks : list (list dict * nat)) (i : nat)
    (workers : nat -> W * list (event (Fx := Fx))) :
  Forall (fun t => forallb joinable (parameter_values t.1) = true) tasks ->
  exists rows,
    gather (starmap_from compute_fnu assign filters modules i tasks
              workers).1 = Ok rows
    ∧ Forall2 (fun t row => row_of_point filters t.1 row) tasks rows.
Proof.
  revert i workers.
  induction tasks as [|[parameters changed] tasks IH]; intros i workers Hts.
  { exists []. by split; [| constructor]. }
  apply Forall_cons in Hts as [Ht Hts]. simpl in Ht. simpl.
  pose proof (worker_sed_run compute_fnu filters modules parameters changed
                (workers (assign i))) as Hrun.
  simpl in Hrun. rewrite for_parameters_joinable in Hrun by done.
  destruct (_worker_sed compute_fnu filters modules parameters changed
              (workers (assign i))) as [outcome st].
  injection Hrun as -> _.
  destruct (IH (S i) (<[assign i := st]> workers) Hts) as (rows & Hrows & Hall).
  destruct (starmap_from _ _ _ _ _ _ _) as [outcomes workers'].
  simpl in *. rewrite Hrows. simpl. eexists. split; [done |].
  constructor; [| done]. simpl. by eexists.
Qed.



(** X11.  A run that meets no refusal writes the table: if the table has been
    made and the writer of the format accepts it, and the operating
    system refuses neither the renaming nor the writing, [process]
    returns, the file of the output name holds the table as the writer
    gave it, an output that existed is under the name prefixed with the
    time, and the message about the renaming is printed exactly when
    there was such an output. *)
Theorem process_writes_table (data_file : string)
    (column_list creation_modules : list string)
    (creation_modules_params : list (list dict))
    (parameters : gmap string string) (cores : nat)
    (out_file out_format : string) (tbl : table (Fx := Fx)) (content : C)
    (st : gmap string (Os.node C) * list string) :
  parameters !! "output_file" = Some out_file ->
  parameters !! "output_format" = Some out_format ->
  out_table_of get_filter find_changed_parameters schedule compute_fnu
    column_list creation_modules creation_modules_params parameters cores
  = Ok tbl ->
  table_write out_format tbl = Ok content ->
  (forall fs src dst, rename_refused fs src dst = None) ->
  (forall fs path, write_refused fs path = None) ->
  let ran :=
    process now get_filter find_changed_parameters table_write
      rename_refused write_refused schedule compute_fnu
      data_file column_list creation_modules creation_modules_params
      parameters cores st in
  let new_name := now +:+ "_" +:+ out_file in
  ran.1 = Ok tt
  ∧ ran.2.1 !! out_file = Some (Os.File content)
  ∧ (forall c, st.1 !! out_file = Some (Os.File c) ->
       ran.2.1 !! new_name = Some (Os.File c)
       ∧ ran.2.2 = st.2 ++ ["The existing " +:+ out_file +:+
                            " file was renamed to " +:+ new_name])
  ∧ (Os.isfile st.1 out_file = false -> ran.2.2 = st.2).
Proof.
  intros Hfile Hformat Htable Hwrite Hrename Hrefused ran new_name.
  subst ran.
  rewrite (process_run now get_filter find_changed_parameters table_write
             rename_refused write_refused schedule compute_fnu
             _ _ _ _ _ _ out_file out_format) by done.
  rewrite rename_existing_run, Htable. simpl. rewrite Hwrite.
  pose proof (backup_name_differs now out_file) as Hdiff.
  fold new_name in Hdiff. fold new_name.
  unfold Os.isfile.
  destruct (st.1 !! out_file) as [[c|]|] eqn:Hout;
    rewrite ?Hrename, ?Hrefused; simpl;
    (split; [done |]); (split; [by rewrite lookup_insert_eq |]);
    (split; [| done]).
  - intros c' [= <-]. split; [| done].
    by rewrite lookup_insert_ne, lookup_insert_eq by done.
  - done.
  - done.
Qed.

Lemma starmap_from_fails (assign : nat -> nat) (filters : list filter_)
    (modules : list string) (tasks : list (list dict * nat)) (i : nat)
    (workers : nat -> W * list (event (Fx := Fx))) :
  Exists (fun t => forallb joinable (parameter_values t.1) = false) tasks ->
  exists msg,
    gather (starmap_from compute_fnu assign filters modules i tasks
              workers).1 = Raise (TypeError msg).
Proof.
  revert i workers.
  induction tasks as [|[parameters changed] tasks IH]; intros i workers Hts.
  { by apply Exists_nil in Hts. }
  simpl.
  pose proof (worker_sed_run compute_fnu filters modules parameters changed
                (workers (assign i))) as Hrun.
  simpl in Hrun.
  destruct (_worker_sed compute_fnu filters modules parameters changed
              (workers (assign i))) as [outcome st].
  destruct (forallb joinable (parameter_values parameters)) eqn:Hjoin.
  - rewrite for_parameters_joinable in Hrun by done.
    injection Hrun as -> _.
    apply Exists_cons in Hts as [Hhead | Htail].
    { simpl in Hhead. congruence. }
    destruct (IH (S i) (<[assign i := st]> workers) Htail) as [msg Hmsg].
    destruct (starmap_from _ _ _ _ _ _ _) as [outcomes workers'].
    simpl in *. rewrite Hmsg. by exists msg.
  - destruct (for_parameters_other (Fx := Fx) parameters [] Hjoin)
      as [msg Hmsg].
    rewrite Hmsg in Hrun. injection Hrun as -> _.
    destruct (starmap_from _ _ _ _ _ _ _) as [outcomes workers'].
    simpl. by exists msg.
Qed.

(** X9.  The pool gives rows for the whole grid or for none of it: with at
    least one core, the rows are returned exactly when no grid point has,
    among its parameter values, a list with an item that is not a string;
    one such grid point makes the run raise [TypeError], whatever the
    number of cores and the schedule, and no row of the other grid points
    is kept. *)
Theorem out_rows_of_all_or_nothing (cores : nat) (warehouse : W)
    (filter_list : list filter_) (creation_modules : list string)
    (creation_modules_params : list (list dict)) :
  (1 ≤ cores)%nat ->
  length (find_changed_parameters creation_modules_params)
  = length creation_modules_params ->
  let out_rows :=
    out_rows_of find_changed_parameters schedule compute_fnu cores warehouse
      filter_list creation_modules creation_modules_params in
  ((forall point, point ∈ creation_modules_params ->
      forallb joinable (parameter_values point) = true) ->
   exists rows,
     out_rows = Ok rows
     ∧ Forall2 (row_of_point filter_list) creation_modules_params rows)
  ∧ (forall point, point ∈ creation_modules_params ->
       forallb joinable (parameter_values point) = false ->
       exists msg, out_rows = Raise (TypeError msg)).
Proof.
  intros Hcores Hchanged out_rows. subst out_rows.
  unfold out_rows_of. rewrite bool_decide_eq_false_2 by lia.
  set (tasks := zip creation_modules_params
                  (find_changed_parameters creation_modules_params)).
  assert (Htasks : tasks.*1 = creation_modules_params)
    by (by apply fst_zip; lia).
  unfold starmap. split.
  - intros Hjoin.
    destruct (starmap_from_rows (fun i => schedule i mod cores) filter_list
                creation_modules tasks 0 (fun _ => (warehouse, [])))
      as (rows & Hrows & Hall).
    { apply Forall_forall. intros t Ht. apply Hjoin.
      rewrite <- Htasks. by apply list_elem_of_fmap_2. }
    exists rows. split; [done |].
    rewrite <- Htasks. by apply Forall2_fmap_l.
  - intros point Hpoint Hbad.
    apply starmap_from_fails, Exists_exists.
    rewrite <- Htasks in Hpoint.
    apply list_elem_of_fmap in Hpoint as (t & -> & Ht). by exists t.
Qed.

End TableOfARun.

(** ** The completed observation table *)

Section CompletedTable.

Import Analysis.

Context {F : Type} `{Float F}.

(** The array of the column called [c], the first if there are several. *)
Definition column (t : table) (c : string) : option ref :=
  DataOps.dict_get t c.

(** Every column of the table is an array of [n] elements of the store. *)
Definition table_ok (h : store F) (t : table) (n : nat) : Prop :=
  Forall (fun c => exists a, h !! c.2 = Some a ∧ length a = n) t.

(** The errors a filter has when its turn comes: those of its error
    column if that column is among the used ones, zeros otherwise. *)
Definition errors_before (h : store F) (t : table) (used_columns : list string)
    (name : string) (n : nat) : option (list F) :=
  if bool_decide (name +:+ "_err" ∈ used_columns)
  then r ← column t (name +:+ "_err"); h !! r
  else Some (replicate n fzero).

(** The first part of a turn of the loop of [complete_obs_table]: the
    error column is added or reset unless it is among the used ones. *)
Definition fill_error_column (obs_table : table) (used_columns : list string)
    (name : string) : np F table :=
  let name_err := name +:+ "_err" in
  if negb (bool_decide (name_err ∈ used_columns))
  then
    if negb (bool_decide (name_err ∈ colnames obs_table))
    then
      n ← table_len obs_table;
      zeros ← np_alloc (replicate n fzero);
      i ← index_of (colnames obs_table) name;
      stm_ret (add_column obs_table name_err zeros (i + 1))
    else
      n ← table_len obs_table;
      zeros ← np_alloc (replicate n fzero);
      stm_ret (table_setitem obs_table name_err zeros)
  else stm_ret obs_table.

Lemma complete_obs_table_cons (obs_table : table)
    (used_columns filter_list : list string) (name : string)
    (tolerance default_error systematic_deviation : F) :
  complete_obs_table obs_table used_columns (name :: filter_list)
    tolerance default_error systematic_deviation
  = if negb (bool_decide (name ∈ colnames obs_table))
    then stm_raise (StandardError
           ("The filter <" +:+ name +:+
            "> (at least) is not present in the observation table."))
    else
      stm_bind (fill_error_column obs_table used_columns name)
        (fun obs_table =>
           stm_bind (table_getitem obs_table name) (fun flux =>
           stm_bind (table_getitem obs_table (name +:+ "_err")) (fun error =>
           stm_bind (adjust_errors flux error tolerance default_error
                       systematic_deviation) (fun adjusted =>
           complete_obs_table
             (table_setitem obs_table (name +:+ "_err") adjusted)
             used_columns filter_list
             tolerance default_error systematic_deviation)))).
Proof. reflexivity. Qed.

Lemma name_err_differs (name : string) : name ≠ name +:+ "_err".
Proof.
  intros Heq. apply (f_equal String.length) in Heq.
  rewrite string_app_length in Heq. simpl in Heq. lia.
Qed.

Lemma column_None (t : table) (c : string) :
  column t c = None <-> c ∉ colnames t.
Proof.
  unfold column, colnames. rewrite <- dict_get_is_Some.
  by rewrite eq_None_not_Some.
Qed.

Lemma column_in (t : table) (c : string) (r : ref) :
  column t c = Some r -> c ∈ colnames t ∧ (c, r) ∈ t.
Proof.
  intros Hc. split.
  - apply dict_get_is_Some. by eexists.
  - unfold column, DataOps.dict_get in Hc.
    destruct (list_find _ t) as [[i [c' r']]|] eqn:Hfind; [| done].
    simpl in Hc. injection Hc as ->.
    apply list_find_Some in Hfind as (Hi & Hname & _). simpl in Hname.
    subst c'. by eapply list_elem_of_lookup_2.
Qed.

Lemma column_data (h : store F) (t : table) (n : nat) (c : string) (r : ref) :
  table_ok h t n -> column t c = Some r ->
  exists a, h !! r = Some a ∧ length a = n.
Proof.
  intros Hok [_ Hin]%column_in. unfold table_ok in Hok.
  rewrite Forall_forall in Hok. exact (Hok _ Hin).
Qed.

Lemma table_getitem_column (t : table) (c : string) (r : ref) (h : store F) :
  column t c = Some r -> table_getitem t c h = (Ok r, h).
Proof.
  unfold column, DataOps.dict_get, table_getitem.
  destruct (list_find _ t) as [[i x]|]; [| done].
  simpl. by intros [= ->].
Qed.

Lemma column_setitem (t : table) (c c' : string) (r : ref) :
  column (table_setitem t c r) c'
  = if decide (c = c') then Some r else column t c'.
Proof.
  change (table_setitem t c r) with (DataOps.dict_set t c r).
  unfold column. case_decide as Hc.
  - subst c'. apply dict_get_set_eq.
  - by apply dict_get_set_ne.
Qed.

Lemma dict_get_app {V : Type} (l1 l2 : list (string * V)) (c : string) :
  DataOps.dict_get (l1 ++ l2) c
  = match DataOps.dict_get l1 c with
    | Some r => Some r
    | None => DataOps.dict_get l2 c
    end.
Proof.
  induction l1 as [|x l1 IH]; [done |].
  rewrite <- app_comm_cons, !dict_get_cons. by case_decide.
Qed.

Lemma column_add_column (t : table) (c c' : string) (r : ref) (k : nat) :
  c ∉ colnames t ->
  column (add_column t c r k) c'
  = if decide (c = c') then Some r else column t c'.
Proof.
  intros Hc. unfold column, add_column.
  rewrite dict_get_app, dict_get_cons. simpl. case_decide as Hcc.
  - subst c'.
    assert (Hnone : DataOps.dict_get (take k t) c = None).
    { apply eq_None_not_Some. rewrite dict_get_is_Some.
      intros Hin. apply Hc. unfold colnames.
      rewrite <- (take_drop k t), fmap_app. apply elem_of_app. by left. }
    by rewrite Hnone.
  - rewrite <- dict_get_app. by rewrite take_drop.
Qed.

Lemma table_ok_setitem (h : store F) (t : table) (n : nat) (c : string)
    (r : ref) :
  table_ok h t n -> (exists a, h !! r = Some a ∧ length a = n) ->
  table_ok h (table_setitem t c r) n.
Proof.
  change (table_setitem t c r) with (DataOps.dict_set t c r).
  intros Hok Hr. induction Hok as [|x t Hx Hok IH].
  - by constructor.
  - rewrite dict_set_cons. case_decide; constructor; done.
Qed.

Lemma table_ok_add_column (h : store F) (t : table) (n : nat) (c : string)
    (r : ref) (k : nat) :
  table_ok h t n -> (exists a, h !! r = Some a ∧ length a = n) ->
  table_ok h (add_column t c r k) n.
Proof.
  intros Hok Hr. unfold table_ok, add_column.
  apply Forall_app. split; [by apply Forall_take |].
  constructor; [done | by apply Forall_drop].
Qed.

Lemma table_ok_ext (h ext : store F) (t : table) (n : nat) :
  table_ok h t n -> table_ok (h ++ ext) t n.
Proof.
  intros Hok. eapply Forall_impl; [exact Hok |].
  intros c (a & Ha & Hlen). exists a. split; [| done].
  by apply lookup_app_l_Some.
Qed.

Lemma table_len_ok (h : store F) (t : table) (n : nat) :
  t ≠ [] -> table_ok h t n -> table_len t h = (Ok n, h).
Proof.
  intros Hne Hok. destruct t as [|c t]; [done |].
  apply Forall_cons in Hok as [(a & Ha & Hlen) _].
  unfold table_len, mbind, stm_mbind.
  rewrite (stm_bind_ok _ _ h h a) by by apply np_read_ok.
  by rewrite <- Hlen.
Qed.

Lemma index_of_ok (l : list string) (name : string) (h : store F) :
  name ∈ l -> exists i, index_of l name h = (Ok i, h).
Proof.
  intros Hin. unfold index_of.
  destruct (list_find_elem_of (fun c => c = name) l name Hin eq_refl)
    as [[i x] ->].
  by exists i.
Qed.

Lemma fill_error_column_ok (h : store F) (t : table) (n : nat)
    (used_columns : list string) (name : string) :
  table_ok h t n ->
  is_Some (column t name) ->
  (name +:+ "_err" ∈ used_columns -> is_Some (column t (name +:+ "_err"))) ->
  exists t1 ext re er,
    fill_error_column t used_columns name h = (Ok t1, h ++ ext)
    ∧ table_ok (h ++ ext) t1 n
    ∧ (forall c, c ≠ name +:+ "_err" -> column t1 c = column t c)
    ∧ column t1 (name +:+ "_err") = Some re
    ∧ (h ++ ext) !! re = Some er
    ∧ length er = n
    ∧ errors_before h t used_columns name n = Some er.
Proof.
  intros Hok [rf Hname] Hused.
  assert (Hne : t ≠ []) by (by intros ->).
  assert (Hzeros : exists a : list F,
            (h ++ [replicate n fzero]) !! length h = Some a ∧ length a = n).
  { exists (replicate n fzero).
    by rewrite list_lookup_middle, length_replicate. }
  unfold fill_error_column, errors_before. cbv zeta.
  destruct (bool_decide (name +:+ "_err" ∈ used_columns)) eqn:Hu; cbn [negb].
  - apply bool_decide_eq_true in Hu. destruct (Hused Hu) as [re Hre].
    destruct (column_data h t n _ re Hok Hre) as (er & Her & Hlen).
    exists t, [], re, er. rewrite app_nil_r, Hre. simpl. by rewrite Her.
  - unfold mbind, stm_mbind.
    destruct (bool_decide (name +:+ "_err" ∈ colnames t)) eqn:Hc; cbn [negb].
    + apply bool_decide_eq_true in Hc.
      rewrite (stm_bind_ok _ _ h h n) by by apply table_len_ok.
      rewrite (stm_bind_ok _ _ h (h ++ [replicate n fzero]) (length h))
        by done.
      exists (table_setitem t (name +:+ "_err") (length h)),
        [replicate n fzero], (length h), (replicate n fzero).
      split; [done |]. split.
      { apply table_ok_setitem; [by apply table_ok_ext | done]. }
      split.
      { intros c Hcne. rewrite column_setitem. by rewrite decide_False. }
      split.
      { rewrite column_setitem. by rewrite decide_True. }
      split; [by rewrite list_lookup_middle |].
      by rewrite length_replicate.
    + apply bool_decide_eq_false in Hc.
      rewrite (stm_bind_ok _ _ h h n) by by apply table_len_ok.
      rewrite (stm_bind_ok _ _ h (h ++ [replicate n fzero]) (length h))
        by done.
      destruct (index_of_ok (colnames t) name (h ++ [replicate n fzero]))
        as [i Hi].
      { by apply (column_in t name rf). }
      rewrite (stm_bind_ok _ _ _ _ _ Hi).
      exists (add_column t (name +:+ "_err") (length h) (i + 1)),
        [replicate n fzero], (length h), (replicate n fzero).
      split; [done |]. split.
      { apply table_ok_add_column; [by apply table_ok_ext | done]. }
      split.
      { intros c Hcne. rewrite column_add_column by done.
        by rewrite decide_False. }
      split.
      { rewrite column_add_column by done. by rewrite decide_True. }
      split; [by rewrite list_lookup_middle |].
      by rewrite length_replicate.
Qed.

(** A turn of the loop on a table whose columns all have [n] rows. *)
Lemma complete_obs_table_turn (h : store F) (t : table) (n : nat)
    (used_columns filter_list : list string) (name : string)
    (tolerance default_error systematic_deviation : F)
    (rf : ref) (flx : list F) :
  table_ok h t n ->
  column t name = Some rf ->
  h !! rf = Some flx ->
  (name +:+ "_err" ∈ used_columns -> is_Some (column t (name +:+ "_err"))) ->
  exists t2 ext r' er,
    complete_obs_table t used_columns (name :: filter_list)
      tolerance default_error systematic_deviation h
    = complete_obs_table t2 used_columns filter_list
        tolerance default_error systematic_deviation (h ++ ext)
    ∧ table_ok (h ++ ext) t2 n
    ∧ (forall c, c ≠ name +:+ "_err" -> column t2 c = column t c)
    ∧ column t2 (name +:+ "_err") = Some r'
    ∧ errors_before h t used_columns name n = Some er
    ∧ h !! r' = None
    ∧ (h ++ ext) !! r'
      = Some (zip_with (adjusted_error tolerance default_error
                          systematic_deviation) flx er).
Proof.
  intros Hok Hname Hflx Hused.
  destruct (column_data h t n name rf Hok Hname) as (flx' & Hflx' & Hlen).
  assert (flx' = flx) as -> by congruence.
  destruct (fill_error_column_ok h t n used_columns name Hok
              ltac:(by eexists) Hused)
    as (t1 & ext & re & er & Hfill & Hok1 & Hframe1 & Hre & Her & Hlener
        & Hbefore).
  assert (Hname1 : column t1 name = Some rf).
  { rewrite Hframe1; [done | apply name_err_differs]. }
  assert (Hflx1 : (h ++ ext) !! rf = Some flx) by by apply lookup_app_l_Some.
  destruct (adjust_errors_result (h ++ ext) rf re flx er tolerance
              default_error systematic_deviation Hflx1 Her)
    as [work Hadjust]; [congruence |].
  set (res := zip_with (adjusted_error tolerance default_error
                          systematic_deviation) flx er) in *.
  exists (table_setitem t1 (name +:+ "_err") (S (length (h ++ ext)))),
    (ext ++ [work] ++ [res]), (S (length (h ++ ext))), er.
  assert (Hres : (h ++ ext ++ [work] ++ [res]) !! S (length (h ++ ext))
                 = Some res).
  { rewrite (assoc (++) h ext), lookup_app_r by lia.
    by replace (S (length (h ++ ext)) - length (h ++ ext))%nat
      with 1%nat by lia. }
  split.
  { rewrite complete_obs_table_cons.
    rewrite bool_decide_eq_true_2 by by apply (column_in t name rf).
    cbn [negb].
    rewrite (stm_bind_ok _ _ _ _ _ Hfill).
    rewrite (stm_bind_ok _ _ _ _ _ (table_getitem_column t1 name rf _ Hname1)).
    rewrite (stm_bind_ok _ _ _ _ _
               (table_getitem_column t1 (name +:+ "_err") re _ Hre)).
    rewrite (stm_bind_ok _ _ _ _ _ Hadjust).
    by rewrite <- (assoc (++) h ext). }
  split.
  { apply table_ok_setitem.
    - rewrite (assoc (++) h ext). by apply table_ok_ext.
    - exists res. split; [done |].
      unfold res. rewrite length_zip_with. lia. }
  split.
  { intros c Hc. rewrite column_setitem, decide_False by done.
    by apply Hframe1. }
  split; [by rewrite column_setitem, decide_True |].
  split; [done |]. split; [| done].
  apply lookup_ge_None_2. rewrite length_app. lia.
Qed.

(** The loop as a whole, on a table that holds every filter of the list
    and every error column that is among the used ones. *)
Lemma complete_obs_table_run (h : store F) (t : table) (n : nat)
    (used_columns filter_list : list string)
    (tolerance default_error systematic_deviation : F) :
  table_ok h t n ->
  (forall name, name ∈ filter_list -> is_Some (column t name)) ->
  (forall name, name ∈ filter_list -> name +:+ "_err" ∈ used_columns ->
     is_Some (column t (name +:+ "_err"))) ->
  exists t' ext,
    complete_obs_table t used_columns filter_list
      tolerance default_error systematic_deviation h
    = (Ok t', h ++ ext)
    ∧ table_ok (h ++ ext) t' n
    ∧ (forall c, (forall name, name ∈ filter_list -> c ≠ name +:+ "_err") ->
         column t' c = column t c)
    ∧ (NoDup filter_list ->
       (forall a b, a ∈ filter_list -> b ∈ filter_list -> a ≠ b +:+ "_err") ->
       forall name, name ∈ filter_list ->
         exists rf flx er r',
           column t name = Some rf ∧ h !! rf = Some flx
           ∧ errors_before h t used_columns name n = Some er
           ∧ column t' (name +:+ "_err") = Some r'
           ∧ h !! r' = None
           ∧ (h ++ ext) !! r'
             = Some (zip_with (adjusted_error tolerance default_error
                                 systematic_deviation) flx er)).
Proof.
  revert t h.
  induction filter_list as [|name filter_list IH]; intros t h Hok Hin Herr.
  { exists t, []. rewrite app_nil_r. split; [done |]. split; [done |].
    split; [done |]. by intros _ _ name' ?%elem_of_nil. }
  destruct (Hin name) as [rf Hname]; [by left |].
  destruct (column_data h t n name rf Hok Hname) as (flx & Hflx & Hlen).
  destruct (complete_obs_table_turn h t n used_columns filter_list name
              tolerance default_error systematic_deviation rf flx Hok Hname
              Hflx)
    as (t2 & ext & r' & er & Hturn & Hok2 & Hframe2 & Hr' & Hbefore & Hnew
        & Hres).
  { apply Herr. by left. }
  assert (Hkeep : forall name', name' ∈ filter_list ->
            forall c, is_Some (column t c) -> is_Some (column t2 c)).
  { intros name' _ c Hc.
    destruct (decide (c = name +:+ "_err")) as [->|Hne]; [by eexists |].
    by rewrite Hframe2. }
  destruct (IH t2 (h ++ ext) Hok2) as (t' & ext' & Hrun & Hok' & Hframe' & Hvalues).
  { intros name' Hname'. apply (Hkeep name' Hname'), Hin. by right. }
  { intros name' Hname' Hu. apply (Hkeep name' Hname'), Herr; [by right | done]. }
  exists t', (ext ++ ext'). rewrite (assoc (++) h ext ext').
  split; [by rewrite Hturn |]. split; [done |]. split.
  { intros c Hc. rewrite Hframe'.
    - apply Hframe2, Hc. by left.
    - intros name' Hname'. apply Hc. by right. }
  intros Hnd Hsep name' Hname'.
  apply NoDup_cons in Hnd as [Hfresh Hnd].
  assert (Hinj : forall a b, a +:+ "_err" = b +:+ "_err" -> a = b)
    by (intros a b; apply string_app_inv_r).
  apply elem_of_cons in Hname' as [-> | Hname'].
  - exists rf, flx, er, r'. split; [done |]. split; [done |].
    split; [done |]. split; [| split; [done |]].
    + rewrite Hframe'; [done |].
      intros b Hb Heq. apply Hinj in Heq. by subst b.
    + rewrite (assoc (++) h ext ext'). by apply lookup_app_l_Some.
  - destruct (Hvalues Hnd) with (name := name')
      as (rf' & flx' & er' & r'' & Hc' & Hf' & He' & Hr'' & Hnew' & Hres');
      [| done |].
    { intros a b Ha Hb. apply Hsep; by right. }
    assert (Hne1 : name' ≠ name +:+ "_err").
    { apply Hsep; [by right | by left]. }
    assert (Hne2 : name' +:+ "_err" ≠ name +:+ "_err").
    { intros Heq. apply Hinj in Heq. by subst name'. }
    rewrite Hframe2 in Hc' by done.
    destruct (column_data h t n name' rf' Hok Hc') as (flx0 & Hflx0 & _).
    assert (flx' = flx0) as ->.
    { apply (lookup_app_l_Some _ ext) in Hflx0.
      assert (Heq : Some flx' = Some flx0)
        by exact (eq_trans (eq_sym Hf') Hflx0).
      by injection Heq. }
    exists rf', flx0, er', r''. split; [done |]. split; [done |].
    split; [| split; [done |]; split;
                [| by rewrite ?(assoc (++) h ext ext')]].
    2:{ apply lookup_ge_None. apply lookup_ge_None in Hnew'.
        rewrite length_app in Hnew'. lia. }
    unfold errors_before in *.
    destruct (bool_decide (name' +:+ "_err" ∈ used_columns)); [| done].
    rewrite Hframe2 in He' by done.
    destruct (column t (name' +:+ "_err")) as [re|] eqn:Hre; [| done].
    simpl in *.
    destruct (column_data h t n _ re Hok Hre) as (a & Ha & _).
    apply (lookup_app_l_Some _ ext) in Ha as Ha'.
    assert (Heq : Some er' = Some a)
      by exact (eq_trans (eq_sym He') Ha').
    injection Heq as ->. exact Ha.
Qed.

(** X6.  On a table whose columns all have [n] rows and hold every filter
    of the list and its error column, [complete_obs_table] returns a
    table.  The arrays the caller held are as before, a column that is
    not the error column of a filter of the list is the array it was, and
    every column still has [n] rows.  If no filter is listed twice and
    none is named like the error column of another, the error column of
    each filter is a new array: the errors adjusted from the fluxes of
    the filter and from the errors it had if its error column is among
    the used ones, and from zeros if it is not, whatever errors the table
    held for it. *)
Theorem complete_obs_table_completes (h : store F) (t : table) (n : nat)
    (used_columns filter_list : list string)
    (tolerance default_error systematic_deviation : F) :
  table_ok h t n ->
  (forall name, name ∈ filter_list ->
     is_Some (column t name) ∧ is_Some (column t (name +:+ "_err"))) ->
  exists t' ext,
    complete_obs_table t used_columns filter_list
      tolerance default_error systematic_deviation h
    = (Ok t', h ++ ext)
    ∧ table_ok (h ++ ext) t' n
    ∧ (forall c, (forall name, name ∈ filter_list -> c ≠ name +:+ "_err") ->
         column t' c = column t c)
    ∧ (NoDup filter_list ->
       (forall a b, a ∈ filter_list -> b ∈ filter_list -> a ≠ b +:+ "_err") ->
       forall name, name ∈ filter_list ->
         exists rf flx er r',
           column t name = Some rf ∧ h !! rf = Some flx
           ∧ errors_before h t used_columns name n = Some er
           ∧ column t' (name +:+ "_err") = Some r'
           ∧ h !! r' = None
           ∧ (h ++ ext) !! r'
             = Some (zip_with (adjusted_error tolerance default_error
                                 systematic_deviation) flx er)).
Proof.
  intros Hok Hin.
  destruct (complete_obs_table_run h t n used_columns filter_list tolerance
              default_error systematic_deviation Hok)
    as (t' & ext & Hrun & Hok' & Hframe & Hvalues).
  { intros name Hname. by apply Hin. }
  { intros name Hname _. by apply Hin. }
  exists t', ext. split; [done |]. split; [done |]. split; [done |].
  intros Hnd Hsep name Hname.
  destruct (Hvalues Hnd Hsep name Hname)
    as (rf & flx & er & r' & Hrf & Hflx & Her & Hr' & Hnew & Hres).
  by exists rf, flx, er, r'.
Qed.

End CompletedTable.

(** ** [pcigale_filters/__init__.py]: importing filter files *)

Module PcigaleFilters.

Section Definitions.

Context {K D : Type} `{EqDecision K}.

(** What a turn of the loop of [add_filters] does with the file [fname]
    before it asks the database: it reads the three lines of the header
    and the table, converts the units, prints the line [Importing ...]
    and normalises the filter.  [prepare] gives what was printed and the
    filter, or the exception that stopped the turn. *)
Context (prepare : string
                   -> list string * result (Data.Filter (K := K) (D := D))).

(** [for fname in fnames: ...; base.add_filter(new_filter)] *)
Fixpoint for_fnames (fnames : list string)
    (base : DataOps.handle (K := K) (D := D)) (out : list string)
    : result unit * (DataOps.handle (K := K) (D := D) * list string) :=
  match fnames with
  | [] => (Ok tt, (base, out))
  | fname :: fnames =>
      let (printed, prepared) := prepare fname in
      match prepared with
      | Raise e => (Raise e, (base, out ++ printed))
      | Ok new_filter =>
          match DataOps.add_filter base new_filter with
          | (Ok _, base) => for_fnames fnames base (out ++ printed)
          | (Raise e, base) => (Raise e, (base, out ++ printed))
          end
      end
  end.

(** [add_filters(fnames)], on the rows of the database: the database is
    opened writable, and what was committed stays when it is closed. *)
Definition add_filters (fnames : list string)
    (db : Data.Database (K := K) (D := D))
    : result unit * (Data.Database (K := K) (D := D) * list string) :=
  let ran := for_fnames fnames (DataOps.MkHandle db true) [] in
  (ran.1, (DataOps.rows ran.2.1, ran.2.2)).

End Definitions.

End PcigaleFilters.

Section FilterImport.

Import Data DataOps PcigaleFilters.

Context {K D : Type} `{EqDecision K}.
Context (prepare : string
                   -> list string * result (Filter (K := K) (D := D))).

Lemma for_fnames_app (l1 l2 : list string) (h : handle (K := K) (D := D))
    (out : list string) :
  for_fnames prepare (l1 ++ l2) h out
  = match for_fnames prepare l1 h out with
    | (Ok _, (h', out')) => for_fnames prepare l2 h' out'
    | (Raise e, st) => (Raise e, st)
    end.
Proof.
  revert h out. induction l1 as [|fname l1 IH]; intros h out; [done |].
  simpl. destruct (prepare fname) as [printed [f|e]]; [| done].
  destruct (add_filter h f) as [[[]|e] h']; [apply IH | done].
Qed.

Lemma add_filter_fresh (h : handle (K := K) (D := D))
    (f : Filter (K := K) (D := D)) :
  is_writable h = true ->
  filter_name f ∉ get_filter_names h ->
  add_filter h f
  = (Ok tt,
     MkHandle (MkDatabase (THEMIS_models (rows h))
                 (filters (rows h) ++ [row_of_filter f])) true).
Proof.
  intros Hw Hfresh. unfold add_filter. rewrite Hw.
  rewrite (proj2 (keys_accepted_spec _ _)); [done |].
  simpl. rewrite row_of_filter_name. split.
  - apply NoDup_singleton.
  - by apply Forall_singleton.
Qed.

Lemma add_filter_known (h : handle (K := K) (D := D))
    (f : Filter (K := K) (D := D)) :
  is_writable h = true ->
  filter_name f ∈ get_filter_names h ->
  add_filter h f
  = (Raise (DatabaseInsertError "The filter is already in the base."), h).
Proof.
  intros Hw Hknown. unfold add_filter. rewrite Hw.
  destruct (keys_accepted _ _) eqn:Hacc; [| done].
  apply keys_accepted_spec in Hacc as [_ Hfresh]. simpl in Hfresh.
  rewrite row_of_filter_name in Hfresh.
  rewrite Forall_singleton in Hfresh. exfalso. apply Hfresh. exact Hknown.
Qed.

Lemma for_fnames_ok (fnames : list string)
    (fs : list (Filter (K := K) (D := D))) (h : handle (K := K) (D := D))
    (out : list string) :
  Forall2 (fun fname f => (prepare fname).2 = Ok f) fnames fs ->
  is_writable h = true ->
  NoDup (filter_name <$> fs) ->
  (forall f, f ∈ fs -> filter_name f ∉ get_filter_names h) ->
  (for_fnames prepare fnames h out).1 = Ok tt
  ∧ (for_fnames prepare fnames h out).2.1
    = MkHandle (MkDatabase (THEMIS_models (rows h))
                  (filters (rows h) ++ (row_of_filter <$> fs))) true
  ∧ (for_fnames prepare fnames h out).2.2
    = out ++ concat ((fun fname => (prepare fname).1) <$> fnames).
Proof.
  intros Hall. revert h out.
  induction Hall as [|fname f fnames fs Hf Hall IH]; intros h out Hw Hnd Hfresh.
  { simpl. rewrite !app_nil_r. split; [done |]. split; [| done].
    destruct h as [[ms fls] w]. simpl in *. by subst w. }
  simpl in *. apply NoDup_cons in Hnd as [Hnew Hnd].
  destruct (prepare fname) as [printed prepared]. simpl in *. subst prepared.
  rewrite add_filter_fresh; [| done | apply Hfresh; by left].
  destruct (IH (MkHandle (MkDatabase (THEMIS_models (rows h))
                            (filters (rows h) ++ [row_of_filter f])) true)
              (out ++ printed)) as (Hok & Hrows & Hout); [done | done | |].
  { intros f' Hf'. unfold get_filter_names. simpl.
    rewrite fmap_app. simpl. rewrite row_of_filter_name.
    intros [Hold | Hsame%list_elem_of_singleton]%elem_of_app.
    - by apply (Hfresh f'); [right |].
    - apply Hnew. rewrite <- Hsame. by apply list_elem_of_fmap_2. }
  split; [done |]. split.
  - rewrite Hrows. simpl. by rewrite <- (assoc (++)).
  - rewrite Hout. by rewrite <- (assoc (++)).
Qed.

(** X22.  The command that imports filter files commits file by file.  If the
    files of [fnames] give filters with new and distinct names, all of
    them are added, as [Database.add_filters] would add them in one
    batch.  If the next file cannot be prepared, or gives a filter whose
    name is that of a filter of the database or of an earlier file, the
    command raises at that file, and the filters of the files before it
    stay in the database. *)
Theorem add_filters_file_by_file (db : Database (K := K) (D := D))
    (fnames : list string) (fs : list (Filter (K := K) (D := D))) :
  Forall2 (fun fname f => (prepare fname).2 = Ok f) fnames fs ->
  NoDup (filter_name <$> fs) ->
  (forall f, f ∈ fs -> filter_name f ∉ name <$> filters db) ->
  let added := MkDatabase (THEMIS_models db)
                 (filters db ++ (row_of_filter <$> fs)) in
  ((PcigaleFilters.add_filters prepare fnames db).1 = Ok tt
   ∧ (PcigaleFilters.add_filters prepare fnames db).2.1 = added
   ∧ rows (DataOps.add_filters (MkHandle db true) fs).2 = added)
  ∧ (forall fname rest e,
       (prepare fname).2 = Raise e ->
       (PcigaleFilters.add_filters prepare (fnames ++ fname :: rest) db).1
       = Raise e
       ∧ (PcigaleFilters.add_filters prepare (fnames ++ fname :: rest) db).2.1
         = added)
  ∧ (forall fname rest f,
       (prepare fname).2 = Ok f ->
       filter_name f ∈ name <$> filters added ->
       (PcigaleFilters.add_filters prepare (fnames ++ fname :: rest) db).1
       = Raise (DatabaseInsertError "The filter is already in the base.")
       ∧ (PcigaleFilters.add_filters prepare (fnames ++ fname :: rest) db).2.1
         = added).
Proof.
  intros Hall Hnd Hfresh added.
  destruct (for_fnames_ok fnames fs (MkHandle db true) [] Hall eq_refl Hnd
              Hfresh) as (Hok & Hrows & Hout).
  unfold PcigaleFilters.add_filters. cbv zeta.
  split; [| split].
  - split; [done |]. split; [by rewrite Hrows |].
    unfold DataOps.add_filters. simpl.
    rewrite (proj2 (keys_accepted_spec _ _)); [done |].
    assert (Hnames : name <$> (row_of_filter <$> fs) = filter_name <$> fs).
    { rewrite <- list_fmap_compose. apply list_fmap_ext.
      intros i f _. apply row_of_filter_name. }
    rewrite Hnames. split; [done |].
    apply Forall_fmap, Forall_forall. intros f Hf. by apply Hfresh.
  - intros fname rest e He. rewrite for_fnames_app.
    destruct (for_fnames prepare fnames _ _) as [r [h' out']].
    simpl in Hok, Hrows. subst r h'. simpl.
    destruct (prepare fname) as [printed prepared]. simpl in He.
    by subst prepared.
  - intros fname rest f Hf Hknown. rewrite for_fnames_app.
    destruct (for_fnames prepare fnames _ _) as [r [h' out']].
    simpl in Hok, Hrows. subst r h'. simpl.
    destruct (prepare fname) as [printed prepared]. simpl in Hf.
    subst prepared. by rewrite add_filter_known.
Qed.

End FilterImport.

(** ** The theorems on concrete data *)

(** A database with the filter [FUV], open for writing, and two filters
    to add. *)
Definition galex_base : DataOps.handle (K := string) (D := unit) :=
  DataOps.MkHandle
    (Data.MkDatabase [] [Data.Mk_Filter "FUV" "GALEX FUV" tt "152"]) true.

Definition nuv : Data.Filter (K := string) (D := unit) :=
  Data.Filter_ "NUV" "GALEX NUV" tt "231".

Definition johnson_v : Data.Filter (K := string) (D := unit) :=
  Data.Filter_ "V" "Johnson V" tt "551".

Definition themis_model : Data.THEMIS (K := string) (D := unit) :=
  Data.THEMIS_ "0.36" "0.10" "1.0" "2.0" tt tt.

Lemma two_new_filters :
  NoDup (filter_name <$> [nuv; johnson_v])
  ∧ forall f, f ∈ [nuv; johnson_v] ->
      filter_name f ∉ DataOps.get_filter_names galex_base.
Proof.
  split; [compute_done |].
  intros f Hf. apply list_elem_of_In in Hf.
  destruct Hf as [<- | [<- | []]]; compute_done.
Qed.

Lemma add_filters_then_get_filter_witness :
  DataOps.is_writable galex_base = true
  ∧ (DataOps.add_filters galex_base [nuv; johnson_v]).1 = Ok tt
  ∧ Data.get_filter
      (DataOps.rows (DataOps.add_filters galex_base [nuv; johnson_v]).2) "V"
    = Ok johnson_v
  ∧ DataOps.parse_filters (DataOps.add_filters galex_base [nuv; johnson_v]).2
    = DataOps.parse_filters galex_base ++ [nuv; johnson_v].
Proof.
  destruct (add_filters_then_get_filter galex_base [nuv; johnson_v] eq_refl
              (proj1 two_new_filters) (proj2 two_new_filters))
    as (Hok & Hget & _ & Hparse).
  split; [reflexivity |]. split; [exact Hok |]. split; [| exact Hparse].
  apply (Hget johnson_v). by right; left.
Defined.

Lemma add_filters_keeps_names_unique_witness :
  NoDup (DataOps.get_filter_names galex_base)
  ∧ NoDup (DataOps.get_filter_names
             (DataOps.add_filters galex_base [nuv; nuv]).2)
  ∧ NoDup (DataOps.get_filter_names (DataOps.add_filter galex_base nuv).2).
Proof.
  assert (Hnd : NoDup (DataOps.get_filter_names galex_base))
    by compute_done.
  split; [exact Hnd |].
  exact (add_filters_keeps_names_unique galex_base [nuv; nuv] nuv Hnd).
Defined.

Lemma add_themis_then_get_themis_witness :
  DataOps.is_writable galex_base = true
  ∧ (DataOps.add_themis galex_base [themis_model]).1 = Ok tt
  ∧ Data.get_themis id
      (DataOps.rows (DataOps.add_themis galex_base [themis_model]).2)
      "0.36" "0.10" "1.0" "2.0"
    = Ok themis_model.
Proof.
  destruct (add_themis_then_get_themis id galex_base [themis_model] eq_refl)
    as (Hok & Hget).
  - compute_done.
  - by intros m Hm ?%elem_of_nil.
  - split; [reflexivity |]. split; [exact Hok |].
    apply (Hget "0.36" "0.10" "1.0" "2.0" tt tt). by left.
Defined.

(** A pickle database open for writing, new and after a first entry. *)
Definition bc03_new : Data.SimpleDatabase (K := string) (D := unit) :=
  Data.MkSimpleDatabase "bc03" true "data/bc03"
    {[ "parameters.pickle" := Data.Pickle (Data.PParameters []) ]}
    (Data.PParameters []).

Definition bc03_one : Data.SimpleDatabase (K := string) (D := unit) :=
  Data.MkSimpleDatabase "bc03" true "data/bc03"
    {[ "parameters.pickle" := Data.Pickle (Data.PParameters []) ]}
    (Data.PParameters [("metallicity", ["0.02"; "0.02"]); ("imf", ["0"; "0"])]).

Definition bc03_data : list (string * unit) := [("spec_table", tt)].

Lemma simple_add_then_get_witness :
  Data.sdb_writable bc03_new = true
  ∧ NoDup bc03_keys.*1
  ∧ (DataOps.add id bc03_new bc03_keys bc03_data).1 = Ok tt
  ∧ Data.get id id (DataOps.add id bc03_new bc03_keys bc03_data).2
      [("imf", "0"); ("metallicity", "0.02")]
    = Ok (Data.PEntry bc03_keys bc03_data).
Proof.
  assert (Hnd : NoDup bc03_keys.*1) by compute_done.
  destruct (simple_add_then_get id id bc03_new [] bc03_keys bc03_data
              eq_refl eq_refl (or_introl eq_refl) Hnd) as (Hok & Hget & _).
  split; [reflexivity |]. split; [exact Hnd |]. split; [exact Hok |].
  apply Hget. apply perm_swap.
Defined.

Lemma simple_add_records_values_witness :
  Data.sdb_writable bc03_one = true
  ∧ exists ps',
      Data.sdb_parameters
        (DataOps.add id bc03_one [("imf", "1"); ("metallicity", "0.05")]
           bc03_data).2
      = Data.PParameters ps'
      ∧ DataOps.dict_get ps' "metallicity" = Some ["0.02"; "0.02"; "0.05"]
      ∧ DataOps.dict_get ps' "imf" = Some ["0"; "0"; "1"].
Proof.
  split; [reflexivity |].
  destruct (simple_add_records_values id bc03_one
              [("metallicity", ["0.02"; "0.02"]); ("imf", ["0"; "0"])]
              [("imf", "1"); ("metallicity", "0.05")] bc03_data
              eq_refl eq_refl) as [_ Happend]; [compute_done |].
  destruct Happend as (ps' & Hps & _ & Hlists); [done | |].
  { intros k Hk. apply list_elem_of_In in Hk.
    destruct Hk as [<- | [<- | []]]; compute_done. }
  exists ps'. split; [exact Hps |]. split; apply Hlists.
Defined.

Lemma remove_dups_set (l : list string) :
  NoDup (remove_dups l) ∧ forall x, x ∈ remove_dups l <-> x ∈ l.
Proof.
  split; [apply NoDup_remove_dups |]. intros x. apply elem_of_remove_dups.
Qed.

Lemma simple_close_saves_parameters_witness :
  Data.sdb_writable bc03_one = true
  ∧ exists db' ps',
      DataOps.close remove_dups bc03_one = Some db'
      ∧ Data.sdb_parameters db' = Data.PParameters ps'
      ∧ ps'.*1 = ["metallicity"; "imf"]
      ∧ exists l', DataOps.dict_get ps' "imf" = Some l' ∧ NoDup l'
                   ∧ forall x, x ∈ l' <-> x ∈ ["0"; "0"].
Proof.
  split; [reflexivity |].
  destruct (simple_close_saves_parameters id id remove_dups bc03_one
              [("metallicity", ["0.02"; "0.02"]); ("imf", ["0"; "0"])]
              remove_dups_set eq_refl eq_refl)
    as (db' & ps' & Hclose & Hps & Hnames & Hvalues & _); [compute_done |].
  exists db', ps'. split; [exact Hclose |]. split; [exact Hps |].
  split; [exact Hnames |]. by apply Hvalues.
Defined.

Lemma simple_add_defers_parameters_witness :
  Data.sdb_writable bc03_one = true
  ∧ exists db',
      Data.SimpleDatabase_init "bc03" false "data/bc03"
        (Some (Data.sdb_files
                 (DataOps.add id bc03_one bc03_keys bc03_data).2)) = Ok db'
      ∧ Data.sdb_parameters db' = Data.PParameters []
      ∧ Data.get id id db' bc03_keys = Ok (Data.PEntry bc03_keys bc03_data).
Proof.
  split; [reflexivity |].
  apply (simple_add_defers_parameters id id bc03_one bc03_keys bc03_data
           (Data.PParameters [])); [reflexivity | reflexivity |].
  by eexists.
Defined.

Lemma complete_parameters_idempotent_witness :
  Common.complete_parameters elements (<["b" := VInt 5]> ∅) schema_ab
  = Ok (<["a" := VInt 1]> (<["b" := VInt 5]> ∅))
  ∧ Common.complete_parameters elements
      (<["a" := VInt 1]> (<["b" := VInt 5]> ∅)) schema_ab
    = Ok (<["a" := VInt 1]> (<["b" := VInt 5]> ∅)).
Proof.
  assert (Hok : Common.complete_parameters elements (<["b" := VInt 5]> ∅)
                  schema_ab
                = Ok (<["a" := VInt 1]> (<["b" := VInt 5]> ∅)))
    by (vm_compute; reflexivity).
  split; [exact Hok |].
  exact (proj2 (proj2 (complete_parameters_idempotent elements _ _ _ Hok))).
Defined.

(** A module whose initialisation code needs a package that is not
    installed. *)
Definition m2005_class : Common.module_class :=
  Common.ModuleClass ∅ (fun _ => Raise (ImportError "No module named scipy")).

Lemma get_module_blank_witness :
  Common.get_module elements dh2002_only "dh2002.1"
    (<["blank" := VAtom (ABool true)]> (<["unknown" := VInt 3]> ∅))
  = ([], Ok (Common.Instance_ dh2002_class "dh2002.1" None)).
Proof.
  apply (get_module_blank elements dh2002_only "dh2002.1" "dh2002" _
           (VAtom (ABool true)) dh2002_class); reflexivity.
Defined.

Lemma get_module_later_errors_witness :
  (exists msg,
     Common.get_module elements dh2002_only "dh2002.1" (<["c" := VInt 9]> ∅)
     = ([], Raise (KeyError msg)))
  ∧ Common.get_module elements (fun _ => Ok m2005_class) "m2005" ∅
    = (["Module m2005 does not exists!"],
       Raise (ImportError "No module named scipy")).
Proof.
  split.
  - destruct (get_module_later_errors elements dh2002_only "dh2002.1" "dh2002"
                (<["c" := VInt 9]> ∅) dh2002_class eq_refl eq_refl)
      as [Hkey _]; [reflexivity |].
    eexists. apply Hkey. vm_compute. reflexivity.
  - destruct (get_module_later_errors elements (fun _ => Ok m2005_class)
                "m2005" "m2005" ∅ m2005_class eq_refl eq_refl)
      as [_ Hinit]; [reflexivity |].
    apply (Hinit ∅ (ImportError "No module named scipy")); reflexivity.
Defined.

Lemma adjust_errors_elementwise_witness :
  let h := [[3; 4]; [0; 5]]%Z in
  let run := Analysis.adjust_errors (H := Z_float) 0 1 1%Z 2%Z 1%Z h in
  h !! 0%nat = Some [3; 4]%Z ∧ h !! 1%nat = Some [0; 5]%Z
  ∧ exists out res,
      run.1 = Ok out ∧ run.2 !! out = Some res
      ∧ res !! 0%nat = Some 6%Z ∧ res !! 1%nat = Some 6%Z.
Proof.
  intros h run.
  destruct (@adjust_errors_elementwise Z Z_float h 0 1 [3; 4]%Z [0; 5]%Z
              1%Z 2%Z 1%Z eq_refl eq_refl eq_refl)
    as (out & res & Hrun & Hres & Hvalues).
  split; [reflexivity |]. split; [reflexivity |].
  exists out, res. split; [exact Hrun |]. split; [exact Hres |]. split.
  - exact (Hvalues 0%nat 3%Z 0%Z eq_refl eq_refl).
  - exact (Hvalues 1%nat 4%Z 5%Z eq_refl eq_refl).
Defined.

Lemma complete_obs_table_completes_witness :
  @table_ok Z [[3; 4]; [1; 1]]%Z [("f", 0%nat); ("f_err", 1%nat)] 2
  ∧ exists t' ext,
      Analysis.complete_obs_table (H := Z_float)
        [("f", 0%nat); ("f_err", 1%nat)] ["f"] ["f"]
        1%Z 2%Z 1%Z [[3; 4]; [1; 1]]%Z
      = (Ok t', [[3; 4]; [1; 1]]%Z ++ ext)
      ∧ column t' "f" = Some 0%nat
      ∧ exists r',
          column t' "f_err" = Some r'
          ∧ ([[3; 4]; [1; 1]]%Z ++ ext) !! r' = Some [6; 8]%Z.
Proof.
  assert (Hok : @table_ok Z [[3; 4]; [1; 1]]%Z
                  [("f", 0%nat); ("f_err", 1%nat)] 2).
  { constructor; [by exists [3; 4]%Z |].
    constructor; [by exists [1; 1]%Z | constructor]. }
  split; [exact Hok |].
  destruct (@complete_obs_table_completes Z Z_float [[3; 4]; [1; 1]]%Z
              [("f", 0%nat); ("f_err", 1%nat)] 2 ["f"] ["f"] 1%Z 2%Z 1%Z Hok)
    as (t' & ext & Hrun & _ & Hframe & Hvalues).
  - intros name ->%list_elem_of_singleton. split; by eexists.
  - exists t', ext. split; [exact Hrun |]. split.
    + rewrite Hframe; [reflexivity |].
      by intros name ->%list_elem_of_singleton.
    + destruct (Hvalues (NoDup_singleton "f")) with (name := "f")
        as (rf & flx & er & r' & Hrf & Hflx & Her & Hr' & _ & Hres).
      * intros a b ->%list_elem_of_singleton ->%list_elem_of_singleton.
        done.
      * by left.
      * injection Hrf as <-. injection Hflx as <-. injection Her as <-.
        exists r'. split; [exact Hr' | exact Hres].
Defined.

Lemma zip_star_transposes_witness :
  let rows := [[1; 2; 3]; [4; 5; 6]]%nat in
  rows ≠ []
  ∧ length (SaveFluxes.zip_star rows) = 3%nat
  ∧ exists col,
      SaveFluxes.zip_star rows !! 2%nat = Some col ∧ col !! 1%nat = Some 6%nat.
Proof.
  intros rows.
  assert (Hne : rows ≠ []) by done.
  destruct (zip_star_transposes rows 3 Hne) as (Hlen & _ & Hcell).
  - by repeat constructor.
  - split; [exact Hne |]. split; [exact Hlen |].
    exact (Hcell 1%nat 2%nat [4; 5; 6]%nat 6%nat eq_refl eq_refl).
Defined.

(** A warehouse that keeps nothing: the SED is built anew at each call. *)
Definition uncached_warehouse : SaveFluxes.SedWarehouse unit history :=
  {| SaveFluxes.new_warehouse := fun _ => tt;
     SaveFluxes.get_sed := fun w modules parameters =>
       (zip modules parameters, w);
     SaveFluxes.partial_clear_cache := fun w _ => w |}.

(** A grid of one module and two values, each grid point computed from
    the first stage on. *)
Definition grid_tau : list (list SaveFluxes.dict) :=
  [ [[("tau", VInt 1)]]; [[("tau", VInt 2)]] ].

Definition from_first_stage (grid : list (list SaveFluxes.dict)) : list nat :=
  replicate (length grid) 0%nat.

Definition any_filter (name : string)
    : result (SaveFluxes.filter_ (T := string) (E := nat)) :=
  Ok (SaveFluxes.MkFilter name 150%nat).

Definition table_tau : SaveFluxes.table (Fx := nat) :=
  SaveFluxes.MkTable ["sfh.tau"; "FUV"]
    [ [SaveFluxes.Param (VInt 1); SaveFluxes.Param (VInt 2)];
      [SaveFluxes.Flux 151%nat; SaveFluxes.Flux 151%nat] ].

Lemma grid_tau_points (point : list SaveFluxes.dict) :
  point ∈ grid_tau ->
  forallb joinable (parameter_values point) = true
  ∧ length (parameter_values point) = 1%nat.
Proof.
  intros Hpoint. apply list_elem_of_In in Hpoint.
  by destruct Hpoint as [<- | [<- | []]].
Qed.


Lemma out_table_tau :
  SaveFluxes.out_table_of (H := uncached_warehouse) any_filter
    from_first_stage (fun i => i) count_fnu ["FUV"; "FUV_err"] ["sfh"]
    grid_tau savefluxes_parameters 2 = Ok table_tau.
Proof. vm_compute. reflexivity. Qed.

Lemma process_writes_table_witness :
  let ran :=
    SaveFluxes.process (H := uncached_warehouse) "202311031200" any_filter
      from_first_stage (fun _ t => Ok t) (fun _ _ _ => None)
      (fun _ _ => None) (fun i => i) count_fnu
      "observations.txt" ["FUV"; "FUV_err"] ["sfh"] grid_tau
      savefluxes_parameters 2 (two_runs, []) in
  ran.1 = Ok tt
  ∧ ran.2.1 !! "computed_fluxes.xml" = Some (Os.File table_tau)
  ∧ ran.2.1 !! "202311031200_computed_fluxes.xml"
    = Some (Os.File (table_of_run 2))
  ∧ ran.2.2 = ["The existing computed_fluxes.xml file was renamed to "
               +:+ "202311031200_computed_fluxes.xml"].
Proof.
  intros ran.
  destruct (process_writes_table (H := uncached_warehouse) "202311031200"
              any_filter from_first_stage (fun _ t => Ok t)
              (fun _ _ _ => None) (fun _ _ => None) (fun i => i) count_fnu
              "observations.txt" ["FUV"; "FUV_err"] ["sfh"] grid_tau
              savefluxes_parameters 2 "computed_fluxes.xml" "votable"
              table_tau table_tau (two_runs, [])
              eq_refl eq_refl out_table_tau eq_refl
              (fun _ _ _ => eq_refl) (fun _ _ => eq_refl))
    as (Hok & Hout & Hold & _).
  split; [exact Hok |]. split; [exact Hout |].
  exact (Hold (table_of_run 2) eq_refl).
Defined.

(** A grid whose second point has a list with a number among its
    values. *)
Definition grid_bad : list (list SaveFluxes.dict) :=
  [ [[("tau", VInt 1)]]; [[("filters", VList [AStr "FUV"; AInt 3])]] ].

Lemma out_rows_of_all_or_nothing_witness :
  (exists rows,
     SaveFluxes.out_rows_of (H := uncached_warehouse) from_first_stage
       (fun i => i) count_fnu 2 tt [fuv] ["sfh"] grid_tau = Ok rows
     ∧ length rows = 2%nat)
  ∧ exists msg,
      SaveFluxes.out_rows_of (H := uncached_warehouse) from_first_stage
        (fun i => i) count_fnu 2 tt [fuv] ["sfh"] grid_bad
      = Raise (TypeError msg).
Proof.
  split.
  - destruct (out_rows_of_all_or_nothing (H := uncached_warehouse)
                from_first_stage (fun i => i) count_fnu 2 tt [fuv] ["sfh"]
                grid_tau) as [Hrows _]; [lia | reflexivity |].
    destruct Hrows as (rows & Hrows & Hall).
    { intros point Hpoint. exact (proj1 (grid_tau_points point Hpoint)). }
    exists rows. split; [exact Hrows |].
    by rewrite <- (Forall2_length _ _ _ Hall).
  - destruct (out_rows_of_all_or_nothing (H := uncached_warehouse)
                from_first_stage (fun i => i) count_fnu 2 tt [fuv] ["sfh"]
                grid_bad) as [_ Hbad]; [lia | reflexivity |].
    apply (Hbad [[("filters", VList [AStr "FUV"; AInt 3])]]).
    + by right; left.
    + reflexivity.
Defined.

(** Files that give a filter of their own name, and a file that cannot be
    read as a filter. *)
Definition prepare_file (fname : string)
    : list string * result (Data.Filter (K := string) (D := unit)) :=
  if String.eqb fname "notes.txt"
  then ([], Raise (ValueError
              "Filter transmission type can only be 'energy' or 'photon'."))
  else (["Importing " +:+ fname +:+ "... (2 points)"],
        Ok (Data.Filter_ fname "" tt "1")).

Lemma add_filters_file_by_file_witness :
  (PcigaleFilters.add_filters prepare_file ["NUV"; "V"]
     (DataOps.rows galex_base)).1 = Ok tt
  ∧ (PcigaleFilters.add_filters prepare_file ["NUV"; "V"; "notes.txt"; "B"]
       (DataOps.rows galex_base)).1
    = Raise (ValueError
               "Filter transmission type can only be 'energy' or 'photon'.")
  ∧ Data.name <$> Data.filters
      (PcigaleFilters.add_filters prepare_file ["NUV"; "V"; "notes.txt"; "B"]
         (DataOps.rows galex_base)).2.1
    = ["FUV"; "NUV"; "V"]
  ∧ (PcigaleFilters.add_filters prepare_file ["NUV"; "V"; "FUV"; "B"]
       (DataOps.rows galex_base)).1
    = Raise (DatabaseInsertError "The filter is already in the base.").
Proof.
  destruct (add_filters_file_by_file prepare_file (DataOps.rows galex_base)
              ["NUV"; "V"]
              [Data.Filter_ "NUV" "" tt "1"; Data.Filter_ "V" "" tt "1"])
    as ((Hok & _) & Hraise & Hknown).
  - by repeat constructor.
  - compute_done.
  - intros f Hf. apply list_elem_of_In in Hf.
    destruct Hf as [<- | [<- | []]]; compute_done.
  - split; [exact Hok |].
    destruct (Hraise "notes.txt" ["B"]
                (ValueError
                   "Filter transmission type can only be 'energy' or 'photon'.")
                eq_refl) as [Hfail Hrows].
    split; [exact Hfail |].
    split; [exact (f_equal (fun d => Data.name <$> Data.filters d) Hrows) |].
    refine (proj1 (Hknown "FUV" ["B"] (Data.Filter_ "FUV" "" tt "1")
                     eq_refl _)).
    compute_done.
Defined.

Lemma add_filters_all_or_nothing_witness :
  DataOps.add_filters galex_base [nuv; johnson_v; nuv]
  = (Raise (DatabaseInsertError "The filter is already in the base."),
     galex_base)
  ∧ DataOps.add_filters galex_base
      [johnson_v; Data.Filter_ "FUV" "another FUV" tt "150"]
    = (Raise (DatabaseInsertError "The filter is already in the base."),
       galex_base).
Proof.
  split.
  - apply (proj1 (add_filters_all_or_nothing galex_base
                    [nuv; johnson_v; nuv])); [reflexivity |].
    right. compute_done.
  - apply (proj1 (add_filters_all_or_nothing galex_base
                    [johnson_v; Data.Filter_ "FUV" "another FUV" tt "150"]));
      [reflexivity |].
    left. exists (Data.Filter_ "FUV" "another FUV" tt "150").
    split; [by right; left | compute_done].
Defined.

Lemma listed_filters_are_found_witness :
  exists f,
    Data.get_filter (DataOps.rows galex_base) "FUV" = Ok f
    ∧ filter_name f = "FUV".
Proof.
  apply (proj1 (listed_filters_are_found galex_base) "FUV"). by left.
Defined.

Lemma simple_add_failures_witness :
  exists k ps',
    (DataOps.add id bc03_one [("imf", "1"); ("age", "10")] bc03_data).1
    = Raise (KeyError k)
    ∧ (k ∉ ["metallicity"; "imf"])
    ∧ Data.sdb_parameters
        (DataOps.add id bc03_one [("imf", "1"); ("age", "10")] bc03_data).2
      = Data.PParameters ps'
    ∧ Data.get id id
        (DataOps.add id bc03_one [("imf", "1"); ("age", "10")] bc03_data).2
        [("imf", "1"); ("age", "10")]
      = Ok (Data.PEntry [("imf", "1"); ("age", "10")] bc03_data).
Proof.
  destruct (proj2 (simple_add_failures id id bc03_one
                     [("imf", "1"); ("age", "10")] bc03_data)
              [("metallicity", ["0.02"; "0.02"]); ("imf", ["0"; "0"])]
              eq_refl eq_refl)
    as (k & ps' & Hraise & _ & Hk & Hps & _ & Hget); [done | |].
  { exists "age". split; [by right; left | compute_done]. }
  exists k, ps'. split; [exact Hraise |]. split; [exact Hk |].
  split; [exact Hps | exact Hget].
Defined.

Lemma complete_parameters_succeeds_iff_witness :
  exists parameters,
    Common.complete_parameters elements (<["b" := VInt 5]> ∅) schema_ab
    = Ok parameters.
Proof.
  apply (proj2 (complete_parameters_succeeds_iff elements
                  (<["b" := VInt 5]> ∅) schema_ab)).
  split.
  - intros k Hk. apply elem_of_dom in Hk as [v Hv].
    destruct (decide (k = "b")) as [-> | Hne]; [compute_done |].
    by rewrite lookup_insert_ne in Hv.
  - intros k e He Hgiven.
    destruct (decide (k = "b")) as [-> | Hnb];
      [by rewrite lookup_insert_eq in Hgiven |].
    destruct (decide (k = "a")) as [-> | Hna].
    + by injection He as <-.
    + unfold schema_ab in He.
      by rewrite !lookup_insert_ne in He.
Defined.

Lemma filter_names_of_spec_witness :
  "FUV" ∈ SaveFluxes.filter_names_of ["FUV"; "FUV_err"; "_err"]
  ∧ ("FUV_err" ∉ SaveFluxes.filter_names_of ["FUV"; "FUV_err"; "_err"])
  ∧ ("_err" ∉ SaveFluxes.filter_names_of ["FUV"; "FUV_err"; "_err"]).
Proof.
  destruct (filter_names_of_spec ["FUV"; "FUV_err"; "_err"])
    as (Hspec & _ & Herr).
  split; [| split].
  - apply Hspec. split; [by left |].
    intros pre Hpre. apply (f_equal (fun s => SaveFluxes.endswith s "_err")) in Hpre.
    rewrite (proj2 (endswith_spec (pre +:+ "_err") "_err")) in Hpre
      by by exists pre.
    done.
  - exact (Herr "FUV").
  - exact (Herr "").
Defined.
